(** * PaymentsRifas: the payment-confirmation protocol of the raffle server

    A shallow embedding of the two versions of the Go server found in the
    repository: [main.go], and the version that adds Apple Pay and the
    CSP header.  They are embedded below as the modules [MainGo] and
    [ApplePay]; what both share is embedded once.  The properties are
    those of the two handlers, [CreatePaymentIntent] and
    [HandleStripeWebhook]; the CORS and CSP middleware around them
    only sets headers and answers OPTIONS, and is embedded apart, with
    the routes that [main] registers.

    The external collaborators (Supabase over net/http, the Stripe SDK,
    Resend and encoding/json on struct types) are the fields of a record
    of oracles; every call to one of them is recorded in a trace.  The
    JSON text of the [numeros] metadata field, which the program itself
    writes at intent creation and reads back in the webhook, is modelled
    down to the characters, and so are the checks of net/url that the
    id of a request can fail when the URL of a query is built. *)

From Stdlib Require Import ZArith String Ascii List Lia Bool.
From Stdlib Require Import DecimalString DecimalZ DecimalPos DecimalFacts.
From stdpp Require Import base option list gmap strings.

Local Open Scope Z_scope.

(** ** Machine integers *)

(** Go's [int64] (and [int] on the 64-bit hosts the server targets):
    a [Z] kept in range by [wrap64] after every arithmetic operation. *)
Module Int64.

Definition min : Z := - 2 ^ 63.
Definition max : Z := 2 ^ 63 - 1.

Definition in_range (z : Z) : bool := (min <=? z) && (z <=? max).

Definition wrap64 (z : Z) : Z := (z + 2 ^ 63) mod 2 ^ 64 - 2 ^ 63.

Definition mul (a b : Z) : Z := wrap64 (a * b).

End Int64.

(** Go slices distinguish [nil] from an empty slice; [json.Marshal]
    prints the former as [null] and the latter as an empty array. *)
Definition slice (A : Type) : Type := option (list A).

Definition elems {A} (s : slice A) : list A := default [] s.

Definition len {A} (s : slice A) : Z := Z.of_nat (length (elems s)).

(** ** encoding/json on the [numeros] field *)

Module Json.

#[local] Unset Elimination Schemes.

Inductive jvalue : Type :=
| JNull
| JBool (b : bool)
| JNumber (lit : string)
| JString (raw : string)
| JArray (items : list jvalue)
| JObject (members : list (string * jvalue)).

#[local] Set Elimination Schemes.

Inductive json_error : Type :=
| SyntaxError
| UnmarshalTypeError.

Definition dquote : ascii := "034"%char.
Definition backslash : ascii := "092"%char.

Definition is_space (c : ascii) : bool :=
  Ascii.eqb c " " || Ascii.eqb c "009" || Ascii.eqb c "010" || Ascii.eqb c "013".

Definition is_digit (c : ascii) : bool :=
  let n := N_of_ascii c in (48 <=? n)%N && (n <=? 57)%N.

Definition is_hex (c : ascii) : bool :=
  let n := N_of_ascii c in
  is_digit c || ((97 <=? n)%N && (n <=? 102)%N) || ((65 <=? n)%N && (n <=? 70)%N).

Definition is_simple_escape (c : ascii) : bool :=
  Ascii.eqb c "b" || Ascii.eqb c "f" || Ascii.eqb c "n" || Ascii.eqb c "r"
  || Ascii.eqb c "t" || Ascii.eqb c backslash || Ascii.eqb c "/"
  || Ascii.eqb c dquote.

Fixpoint skip_ws (s : string) : string :=
  match s with
  | String c r => if is_space c then skip_ws r else s
  | EmptyString => s
  end.

Fixpoint span_digits (s : string) : string * string :=
  match s with
  | String c r =>
      if is_digit c
      then let '(d, r') := span_digits r in (String c d, r')
      else (EmptyString, s)
  | EmptyString => (EmptyString, EmptyString)
  end.

(** The integer part of a number literal: a lone [0], or a non-zero
    digit followed by digits. *)
Definition scan_int (s : string) : option (string * string) :=
  match s with
  | String c r =>
      if Ascii.eqb c "0" then Some (String c EmptyString, r)
      else if is_digit c
      then let '(d, r') := span_digits r in Some (String c d, r')
      else None
  | EmptyString => None
  end.

Definition scan_frac (s : string) : option (string * string) :=
  match s with
  | String c r =>
      if Ascii.eqb c "."
      then match span_digits r with
           | (EmptyString, _) => None
           | (d, r') => Some (String c d, r')
           end
      else Some (EmptyString, s)
  | EmptyString => Some (EmptyString, s)
  end.

Definition scan_sign (s : string) : string * string :=
  match s with
  | String c r =>
      if Ascii.eqb c "+" || Ascii.eqb c "-"
      then (String c EmptyString, r) else (EmptyString, s)
  | EmptyString => (EmptyString, s)
  end.

Definition scan_exp (s : string) : option (string * string) :=
  match s with
  | String c r =>
      if Ascii.eqb c "e" || Ascii.eqb c "E"
      then let '(sg, r1) := scan_sign r in
           match span_digits r1 with
           | (EmptyString, _) => None
           | (d, r2) => Some (String c (sg +:+ d), r2)
           end
      else Some (EmptyString, s)
  | EmptyString => Some (EmptyString, s)
  end.

Definition scan_number (s : string) : option (string * string) :=
  let '(sg, s1) :=
    match s with
    | String c r =>
        if Ascii.eqb c "-" then (String c EmptyString, r) else (EmptyString, s)
    | EmptyString => (EmptyString, s)
    end in
  '(i, s2) ← scan_int s1;
  '(f, s3) ← scan_frac s2;
  '(e, s4) ← scan_exp s3;
  Some (sg +:+ i +:+ f +:+ e, s4).

(** The body of a string literal, after its opening quote: the raw
    text up to the closing quote (escapes checked, not decoded) and
    what follows the closing quote. *)
Fixpoint scan_string (s : string) : option (string * string) :=
  match s with
  | EmptyString => None
  | String c r =>
      if Ascii.eqb c dquote then Some (EmptyString, r)
      else if Ascii.eqb c backslash then
        match r with
        | String e r1 =>
            if is_simple_escape e then
              '(raw, rest) ← scan_string r1;
              Some (String c (String e raw), rest)
            else if Ascii.eqb e "u" then
              match r1 with
              | String h1 (String h2 (String h3 (String h4 r2))) =>
                  if is_hex h1 && is_hex h2 && is_hex h3 && is_hex h4 then
                    '(raw, rest) ← scan_string r2;
                    Some (String c (String e (String h1 (String h2
                           (String h3 (String h4 raw))))), rest)
                  else None
              | _ => None
              end
            else None
        | EmptyString => None
        end
      else if (N_of_ascii c <? 32)%N then None
      else '(raw, rest) ← scan_string r; Some (String c raw, rest)
  end.

Fixpoint strip_prefix (p s : string) : option string :=
  match p, s with
  | EmptyString, _ => Some s
  | String a p', String b s' => if Ascii.eqb a b then strip_prefix p' s' else None
  | String _ _, EmptyString => None
  end.

(** scanner.go: at most this many arrays and objects may be open. *)
Definition maxNestingDepth : N := 10000.

(** One value at the head of [s] (no leading blanks), and the rest.
    [depth] counts the arrays and objects already open; [elements]
    and [members] read what follows an opening bracket or brace. *)
Definition value_step
    (elements : N → string → option (list jvalue * string))
    (members : N → string → option (list (string * jvalue) * string))
    (depth : N) (s : string) : option (jvalue * string) :=
  match s with
  | EmptyString => None
  | String c r =>
      if Ascii.eqb c "{" then
        if (maxNestingDepth <=? depth)%N then None else
        match skip_ws r with
        | String c' r' =>
            if Ascii.eqb c' "}" then Some (JObject [], r')
            else '(ms, r'') ← members (N.succ depth) (String c' r');
                 Some (JObject ms, r'')
        | EmptyString => None
        end
      else if Ascii.eqb c "[" then
        if (maxNestingDepth <=? depth)%N then None else
        match skip_ws r with
        | String c' r' =>
            if Ascii.eqb c' "]" then Some (JArray [], r')
            else '(vs, r'') ← elements (N.succ depth) (String c' r');
                 Some (JArray vs, r'')
        | EmptyString => None
        end
      else if Ascii.eqb c dquote then
        '(raw, r') ← scan_string r; Some (JString raw, r')
      else if Ascii.eqb c "t" then
        r' ← strip_prefix "rue" r; Some (JBool true, r')
      else if Ascii.eqb c "f" then
        r' ← strip_prefix "alse" r; Some (JBool false, r')
      else if Ascii.eqb c "n" then
        r' ← strip_prefix "ull" r; Some (JNull, r')
      else
        '(lit, r') ← scan_number s; Some (JNumber lit, r')
  end.

(** The items of an array from its first item on, up to and
    including the closing bracket. *)
Definition elements_step
    (value : N → string → option (jvalue * string))
    (elements : N → string → option (list jvalue * string))
    (depth : N) (s : string) : option (list jvalue * string) :=
  '(v, r) ← value depth s;
  match skip_ws r with
  | String c r' =>
      if Ascii.eqb c "," then
        '(vs, r'') ← elements depth (skip_ws r');
        Some (v :: vs, r'')
      else if Ascii.eqb c "]" then Some ([v], r')
      else None
  | EmptyString => None
  end.

(** The members of an object from its first key on, up to and
    including the closing brace. *)
Definition members_step
    (value : N → string → option (jvalue * string))
    (members : N → string → option (list (string * jvalue) * string))
    (depth : N) (s : string) : option (list (string * jvalue) * string) :=
  match s with
  | String q r =>
      if Ascii.eqb q dquote then
        '(k, r1) ← scan_string r;
        match skip_ws r1 with
        | String c r2 =>
            if Ascii.eqb c ":" then
              '(v, r3) ← value depth (skip_ws r2);
              match skip_ws r3 with
              | String c' r4 =>
                  if Ascii.eqb c' "," then
                    '(ms, r5) ← members depth (skip_ws r4);
                    Some ((k, v) :: ms, r5)
                  else if Ascii.eqb c' "}" then Some ([(k, v)], r4)
                  else None
              | EmptyString => None
              end
            else None
        | EmptyString => None
        end
      else None
  | EmptyString => None
  end.

Fixpoint parse_value (fuel : nat) (depth : N) (s : string) {struct fuel}
  : option (jvalue * string) :=
  match fuel with
  | O => None
  | S fuel' =>
      value_step (λ d r, parse_elements fuel' d r) (λ d r, parse_members fuel' d r)
        depth s
  end
with parse_elements (fuel : nat) (depth : N) (s : string) {struct fuel}
  : option (list jvalue * string) :=
  match fuel with
  | O => None
  | S fuel' =>
      elements_step (λ d r, parse_value fuel' d r) (λ d r, parse_elements fuel' d r)
        depth s
  end
with parse_members (fuel : nat) (depth : N) (s : string) {struct fuel}
  : option (list (string * jvalue) * string) :=
  match fuel with
  | O => None
  | S fuel' =>
      members_step (λ d r, parse_value fuel' d r) (λ d r, parse_members fuel' d r)
        depth s
  end.

(** Each call of the parser that calls itself again has consumed a
    character first, or has gone from a list to its first item: twice
    the length of the input is fuel enough ([fuel_is_enough] below). *)
Definition fuel_for (s : string) : nat := 2 * String.length s + 2.

(** [checkValid] followed by the scan of the one value: the whole
    input is one JSON value between optional blanks. *)
Definition parse (data : string) : option jvalue :=
  '(v, r) ← parse_value (fuel_for data) 0 (skip_ws data);
  match skip_ws r with
  | EmptyString => Some v
  | String _ _ => None
  end.

Definition Valid (data : string) : bool :=
  match parse data with Some _ => true | None => false end.

(** strconv.ParseInt(s, 10, 64). *)
Definition ParseInt (s : string) : option Z :=
  let '(neg, ds) :=
    match s with
    | String c r =>
        if Ascii.eqb c "-" then (true, r)
        else if Ascii.eqb c "+" then (false, r)
        else (false, s)
    | EmptyString => (false, s)
    end in
  match ds with
  | EmptyString => None
  | String _ _ =>
      u ← NilEmpty.uint_of_string ds;
      let z := if neg then - Z.of_uint u else Z.of_uint u in
      if Int64.in_range z then Some z else None
  end.

(** strconv.FormatInt(z, 10), which is also what fmt.Sprint prints
    for an int. *)
Definition FormatInt (z : Z) : string := NilEmpty.string_of_int (Z.to_int z).

Fixpoint join (sep : string) (l : list string) : string :=
  match l with
  | [] => EmptyString
  | [x] => x
  | x :: l' => x +:+ sep +:+ join sep l'
  end.

(** json.Marshal of a []int. *)
Definition Marshal_ints (v : slice Z) : string :=
  match v with
  | None => "null"
  | Some l => "[" +:+ join "," (FormatInt <$> l) +:+ "]"
  end.

(** One array item decoded into an int: a number literal that
    ParseInt accepts gives its value; any other item leaves the zero
    value, and all but [null] report a type error. *)
Definition decode_int (v : jvalue) : Z * option json_error :=
  match v with
  | JNumber lit =>
      match ParseInt lit with
      | Some z => (z, None)
      | None => (0, Some UnmarshalTypeError)
      end
  | JNull => (0, None)
  | _ => (0, Some UnmarshalTypeError)
  end.

Fixpoint first_error (l : list (option json_error)) : option json_error :=
  match l with
  | [] => None
  | Some e :: _ => Some e
  | None :: l' => first_error l'
  end.

(** json.Unmarshal(data, &v) for [v] of type []int: the new value of
    [v] and the error returned.  Invalid input leaves [v] alone. *)
Definition Unmarshal_ints (data : string) (v : slice Z)
  : slice Z * option json_error :=
  match parse data with
  | None => (v, Some SyntaxError)
  | Some JNull => (None, None)
  | Some (JArray items) =>
      let ds := decode_int <$> items in
      (Some (fst <$> ds), first_error (snd <$> ds))
  | Some _ => (v, Some UnmarshalTypeError)
  end.

End Json.

(** ** net/url on the query URLs *)

(** [http.NewRequest] fails when [url.Parse] rejects the URL.  Every
    URL of the program is the SUPABASE_URL of the deployment followed
    by a path and, for the two queries, by text of the request.  The
    base is configuration: it is taken to be a URL that parses with
    each of the paths behind it and has a query or fragment part of
    its own in none of them, so that the insert, whose URL holds
    nothing else, can always be built.  What a request adds can still
    make [url.Parse] fail, in its two checks that look behind the
    path: a control character before the first [#], and a malformed
    percent escape in the fragment after it. *)
Module Url.

Definition is_ctl (c : ascii) : bool :=
  let n := N_of_ascii c in (n <? 32)%N || (n =? 127)%N.

Fixpoint stringContainsCTLByte (s : string) : bool :=
  match s with
  | EmptyString => false
  | String c r => is_ctl c || stringContainsCTLByte r
  end.

Definition ishex (c : ascii) : bool :=
  let n := N_of_ascii c in
  ((48 <=? n)%N && (n <=? 57)%N) || ((97 <=? n)%N && (n <=? 102)%N)
  || ((65 <=? n)%N && (n <=? 70)%N).

(** [strings.Cut(rawURL, "#")]: the text before the first [#] and the
    text after it, empty when there is none. *)
Fixpoint cut_fragment (s : string) : string * string :=
  match s with
  | EmptyString => (EmptyString, EmptyString)
  | String c r =>
      if Ascii.eqb c "#" then (EmptyString, r)
      else let '(u, frag) := cut_fragment r in (String c u, frag)
  end.

(** [unescape] on a fragment: its only error is a [%] that is not
    followed by two hex digits. *)
Fixpoint unescape_ok (s : string) : bool :=
  match s with
  | EmptyString => true
  | String c r =>
      if Ascii.eqb c "%" then
        match r with
        | String a (String b r') => ishex a && ishex b && unescape_ok r'
        | _ => false
        end
      else unescape_ok r
  end.

(** Whether [url.Parse] accepts the text that follows the base. *)
Definition Parse (rawURL : string) : bool :=
  let '(u, frag) := cut_fragment rawURL in
  negb (stringContainsCTLByte u) && unescape_ok frag.

End Url.

(** ** Data of the program *)

(** A Go [error], carried as its message. *)
Definition error : Type := string.

Inductive result (A : Type) : Type :=
| Ok (a : A)
| Err (e : error).
Arguments Ok {A} a.
Arguments Err {A} e.

Record PaymentRequest : Type := {
  RifaID : string;
  Numeros : slice Z;
  UserId : string;
  Email : string
}.

Record Rifa : Type := {
  ID : string;
  Price : Z;
  Title : string
}.

(** One element of the payload of [registrarTickets]: the map with
    the keys [rifa_id], [number] and [profile_id]; a row of the
    table [tikect]. *)
Record Ticket : Type := {
  rifa_id : string;
  number : Z;
  profile_id : string
}.

#[global] Instance Ticket_eq_dec : EqDecision Ticket.
Proof. solve_decision. Defined.

(** The pair that the store is meant to keep unique. *)
Definition key (t : Ticket) : string * Z := (rifa_id t, number t).

(** *** Supabase over net/http *)

(** The three requests the program sends to the REST API, by their
    method, table and query:
    - GET  /rest/v1/rifa?id=eq.ID&select=id,price,title
    - GET  /rest/v1/tikect?rifa_id=eq.ID&number=in.(N1,N2,...)
    - POST /rest/v1/tikect with the JSON of the payload (a slice that
      was never appended to is nil, and is sent as [null]). *)
Inductive SupaRequest : Type :=
| GET_rifa (id : string)
| GET_tikect (rifaID : string) (numeros : list Z)
| POST_tikect (payload : list Ticket).

Record Response (B : Type) : Type := {
  StatusCode : Z;
  Body : B
}.
Arguments StatusCode {B} _.
Arguments Body {B} _.

(** What [http.DefaultClient.Do] returns: an error, or a response. *)
Inductive DoResult (B : Type) : Type :=
| DoErr (err : error)
| DoResp (resp : Response B).
Arguments DoErr {B} err.
Arguments DoResp {B} resp.

(** *** Stripe *)

Record PaymentIntentParams : Type := {
  Amount : Z;
  Currency : string;
  AutomaticPaymentMethods : option bool;
  Metadata : gmap string string
}.

Record PaymentIntent : Type := {
  PI_ID : string;
  ClientSecret : string;
  PI_Metadata : gmap string string
}.

Record Event : Type := {
  Type_ : string;
  Data_Raw : string
}.

(** *** Resend *)

Record SendEmailRequest : Type := {
  From : string;
  To : list string;
  Subject : string;
  Html : string
}.

(** *** The HTTP request and the response writer *)

Record Request : Type := {
  ReqBody : string;
  Stripe_Signature : string
}.

Inductive Chunk : Type :=
| Text (s : string)
| ClientSecretJSON (secret : string).

(** net/http's ResponseWriter: the first WriteHeader fixes the
    status, a Write without one implies 200. *)
Record ResponseWriter : Type := {
  wroteHeader : option Z;
  written : list Chunk
}.

Definition newResponseWriter : ResponseWriter :=
  {| wroteHeader := None; written := [] |}.

Definition rw_WriteHeader (code : Z) (w : ResponseWriter) : ResponseWriter :=
  match wroteHeader w with
  | Some _ => w
  | None => {| wroteHeader := Some code; written := written w |}
  end.

Definition rw_Write (c : Chunk) (w : ResponseWriter) : ResponseWriter :=
  let w' := rw_WriteHeader 200 w in
  {| wroteHeader := wroteHeader w'; written := written w' ++ [c] |}.

(** The status the client receives once the handler has returned:
    net/http sends 200 when the handler never wrote one. *)
Definition status_sent (w : ResponseWriter) : Z := default 200 (wroteHeader w).

(** ** The external collaborators *)

(** [S] is the state of the store, [B] a response body as the
    program receives it: a stream that it only hands to a decoder or
    to io.ReadAll. *)
Record External (S B : Type) : Type := {
  Getenv : string → string;
  (** http.DefaultClient.Do on the three requests above *)
  Do : SupaRequest → S → S * DoResult B;
  (** json.NewDecoder(body).Decode(&data) for [data []Rifa], the
      error dropped: what is left in [data] *)
  Decode_Rifas : B → list Rifa;
  (** json.NewDecoder(body).Decode(&count) for [count []interface{}],
      the error dropped: [len(count)] afterwards *)
  Decode_count : B → nat;
  ReadAll : B → string;
  (** json.NewDecoder(r.Body).Decode(&req) *)
  Decode_PaymentRequest : string → result PaymentRequest;
  (** paymentintent.New *)
  paymentintent_New : PaymentIntentParams → result PaymentIntent;
  (** webhook.ConstructEvent(payload, header, secret) *)
  webhook_ConstructEvent : string → string → string → result Event;
  (** json.Unmarshal(raw, &pi): the intent as far as it was filled
      in, and the error *)
  Unmarshal_PaymentIntent : string → PaymentIntent * option error;
  (** client.Emails.Send *)
  Emails_Send : SendEmailRequest → option error
}.
Arguments Getenv {S B} _ _.
Arguments Do {S B} _ _ _.
Arguments Decode_Rifas {S B} _ _.
Arguments Decode_count {S B} _ _.
Arguments ReadAll {S B} _ _.
Arguments Decode_PaymentRequest {S B} _ _.
Arguments paymentintent_New {S B} _ _.
Arguments webhook_ConstructEvent {S B} _ _ _ _.
Arguments Unmarshal_PaymentIntent {S B} _ _.
Arguments Emails_Send {S B} _ _.

(** ** Handlers as state transformers *)

Inductive Call : Type :=
| CallDo (req : SupaRequest)
| CallStripe (params : PaymentIntentParams)
| CallSend (mail : SendEmailRequest)
| Log (line : string).

(** The closure of the [go] statement of the webhook handler. *)
Record Task : Type := {
  task_userEmail : string;
  task_rifaTitle : string;
  task_numeros : slice Z
}.

Record State (S : Type) : Type := {
  store : S;
  w : ResponseWriter;
  trace : list Call;
  spawned : list Task
}.
Arguments store {S} _.
Arguments w {S} _.
Arguments trace {S} _.
Arguments spawned {S} _.

(** How a piece of a handler ends: it falls through with a value, it
    executes [return], or it panics (a nil dereference). *)
Inductive Res (A : Type) : Type :=
| Normal (a : A)
| Returned
| Panicked.
Arguments Normal {A} a.
Arguments Returned {A}.
Arguments Panicked {A}.

Definition M (S A : Type) : Type := State S → Res A * State S.

#[global] Instance M_ret {S} : MRet (M S) := λ A a st, (Normal a, st).

#[global] Instance M_bind {S} : MBind (M S) := λ A B f m st,
  match m st with
  | (Normal a, st') => f a st'
  | (Returned, st') => (Returned, st')
  | (Panicked, st') => (Panicked, st')
  end.

Definition return_ {S A} : M S A := λ st, (Returned, st).

Definition panic {S A} : M S A := λ st, (Panicked, st).

Definition record {S} (c : Call) : M S unit := λ st,
  (Normal (), {| store := store st; w := w st;
                 trace := trace st ++ [c]; spawned := spawned st |}).

Definition log_Printf {S} (line : string) : M S unit := record (Log line).

Definition on_writer {S} (f : ResponseWriter → ResponseWriter) : M S unit := λ st,
  (Normal (), {| store := store st; w := f (w st);
                 trace := trace st; spawned := spawned st |}).

Definition WriteHeader {S} (code : Z) : M S unit := on_writer (rw_WriteHeader code).

(** http.Error(w, msg, code) *)
Definition http_Error {S} (msg : string) (code : Z) : M S unit :=
  on_writer (λ w, rw_Write (Text (msg +:+ String "010" EmptyString))
                    (rw_WriteHeader code w)).

Definition go {S} (t : Task) : M S unit := λ st,
  (Normal (), {| store := store st; w := w st;
                 trace := trace st; spawned := spawned st ++ [t] |}).

Definition lookup_str (m : gmap string string) (k : string) : string :=
  default EmptyString (m !! k).

Section Collaborators.

Context {S B : Type} (ext : External S B).

Definition http_Do (req : SupaRequest) : M S (DoResult B) := λ st,
  let '(s', r) := Do ext req (store st) in
  (Normal r, {| store := s'; w := w st;
                trace := trace st ++ [CallDo req]; spawned := spawned st |}).

Definition stripe_New (params : PaymentIntentParams) : M S (result PaymentIntent) :=
  record (CallStripe params);; mret (paymentintent_New ext params).

(** The URLs of the two queries, behind the base. *)
Definition rifa_url (id : string) : string :=
  "/rest/v1/rifa?id=eq." +:+ id +:+ "&select=id,price,title".

Definition tikect_url (rifaID : string) (numeros : list Z) : string :=
  "/rest/v1/tikect?rifa_id=eq." +:+ rifaID +:+ "&number=in.("
  +:+ Json.join "," (Json.FormatInt <$> numeros) +:+ ")".

(** [http.NewRequest("GET", url, nil)]: whether it returns a request.
    The program drops its error; on failure the request is nil. *)
Definition NewRequest (url : string) : bool := Url.Parse url.
#[global] Arguments NewRequest : simpl never.

(** getRifa: the same in both versions.  The error of NewRequest is
    dropped, so that for a URL that does not parse [req] is nil and
    [req.Header.Set] dereferences it. *)
Definition getRifa (id : string) : M S (result Rifa) :=
  if NewRequest (rifa_url id) then
    r ← http_Do (GET_rifa id);
    match r with
    | DoErr _ => mret (Err "error supabase")
    | DoResp resp =>
        if bool_decide (StatusCode resp ≠ 200) then mret (Err "error supabase")
        else match Decode_Rifas ext (Body resp) with
             | [] => mret (Err "404")
             | rifa :: _ => mret (Ok rifa)
             end
    end
  else panic.

(** toString, applied to the numbers of a request. *)
Definition toString (v : slice Z) : string := Json.Marshal_ints v.

(** The amount of CreatePaymentIntent, the same expression in both
    versions: [(rifa.Price * int64(len(req.Numeros))) * 100]. *)
Definition montoTotal (rifa : Rifa) (req : PaymentRequest) : Z :=
  Int64.mul (Int64.mul (Price rifa) (len (Numeros req))) 100.

Definition intent_Metadata (rifa : Rifa) (req : PaymentRequest) : gmap string string :=
  {[ "rifa_id" := RifaID req;
     "rifa_title" := Title rifa;
     "user_id" := UserId req;
     "user_email" := Email req;
     "numeros" := toString (Numeros req) ]}.

(** The rows that registrarTickets builds, one per element. *)
Definition ticket_payload (rifaID : string) (numeros : slice Z) (userID : string)
  : list Ticket :=
  (λ n, {| rifa_id := rifaID; number := n; profile_id := userID |}) <$> elems numeros.

(** fmt.Sprint of a []int: the elements between brackets, separated
    by blanks. *)
Definition Sprint_ints (v : slice Z) : string :=
  "[" +:+ Json.join " " (Json.FormatInt <$> elems v) +:+ "]".

Fixpoint in_cutset (c : ascii) (cutset : string) : bool :=
  match cutset with
  | EmptyString => false
  | String x r => Ascii.eqb c x || in_cutset c r
  end.

Fixpoint TrimLeft (s cutset : string) : string :=
  match s with
  | String c r => if in_cutset c cutset then TrimLeft r cutset else s
  | EmptyString => s
  end.

(** strings.Trim *)
Definition Trim (s cutset : string) : string :=
  String.rev (TrimLeft (String.rev (TrimLeft s cutset)) cutset).

(** The numbers as the e-mail shows them.  strings.Fields is stdpp's
    [String.words], which splits at the same ASCII blanks. *)
Definition numsStr (numeros : slice Z) : string :=
  Trim (Json.join ", " (String.words (Sprint_ints numeros))) "[]".

End Collaborators.

(** ** main.go *)

Module MainGo.
Section Handlers.

Context {S B : Type} (ext : External S B).

(** validarNumeros.  The error of NewRequest is dropped as in
    getRifa, and so is the error of [Do]: on a transport error [resp]
    is nil and [defer resp.Body.Close()] dereferences it. *)
Definition validarNumeros (rifaID : string) (numeros : slice Z) : M S (option error) :=
  if NewRequest (tikect_url rifaID (elems numeros)) then
    r ← http_Do ext (GET_tikect rifaID (elems numeros));
    match r with
    | DoErr _ => panic
    | DoResp resp =>
        if bool_decide (0 < Decode_count ext (Body resp))%nat
        then mret (Some "algunos números ya no están disponibles")
        else mret None
    end
  else panic.

(** registrarTickets.  The URL of its request is the base and a
    path, with nothing of the event in it. *)
Definition registrarTickets (rifaID : string) (numeros : slice Z) (userID : string)
  : M S (option error) :=
  let payload := ticket_payload rifaID numeros userID in
  r ← http_Do ext (POST_tikect payload);
  match r with
  | DoErr err => mret (Some err)
  | DoResp resp =>
      if bool_decide (400 ≤ StatusCode resp) then mret (Some "error registro")
      else mret None
  end.

(** The request that enviarCorreoConfirmacion builds (the style
    attributes of the HTML are left out). *)
Definition correo_params (destinatario rifaNombre : string)
    (numeros : slice Z) : SendEmailRequest :=
  {| From := "Twins Rifas <onboarding@resend.dev>";
     To := [destinatario];
     Subject := "Tus números para " +:+ rifaNombre;
     Html := "<div><h2>¡Confirmación de Compra!</h2><p>Hola, tus números para la rifa <strong>"
             +:+ rifaNombre
             +:+ "</strong> ya están registrados.</p><div><p>TUS NÚMEROS:</p><h1># "
             +:+ numsStr numeros
             +:+ "</h1></div><p>Este es un recibo automático de Twins Rifas.</p></div>" |}.

Definition CreatePaymentIntent (r : Request) : M S unit :=
  match Decode_PaymentRequest ext (ReqBody r) with
  | Err _ => http_Error "JSON inválido" 400
  | Ok req =>
      rifa ← getRifa ext (RifaID req);
      match rifa with
      | Err _ => http_Error "Rifa no encontrada" 404
      | Ok rifa =>
          err ← validarNumeros (RifaID req) (Numeros req);
          match err with
          | Some e => http_Error e 409
          | None =>
              let params :=
                {| Amount := montoTotal rifa req;
                   Currency := "usd";
                   AutomaticPaymentMethods := None;
                   Metadata := intent_Metadata rifa req |} in
              pi ← stripe_New ext params;
              match pi with
              | Err e =>
                  log_Printf ("❌ Stripe Error: " +:+ e);;
                  http_Error "Error Stripe" 500
              | Ok pi => on_writer (rw_Write (ClientSecretJSON (ClientSecret pi)))
              end
          end
      end
  end.

Definition MaxBodyBytes : Z := 65536.

Definition HandleStripeWebhook (r : Request) : M S unit :=
  if bool_decide (MaxBodyBytes < Z.of_nat (String.length (ReqBody r)))
  then WriteHeader 400
  else
    let payload := ReqBody r in
    let endpointSecret := Getenv ext "STRIPE_WEBHOOK_SECRET" in
    let signature := Stripe_Signature r in
    match webhook_ConstructEvent ext payload signature endpointSecret with
    | Err e =>
        log_Printf ("⚠️ Firma inválida (webhook no autorizado): " +:+ e);;
        WriteHeader 400
    | Ok event =>
        (if bool_decide (Type_ event = "payment_intent.succeeded") then
           let pi := fst (Unmarshal_PaymentIntent ext (Data_Raw event)) in
           let rifaID := lookup_str (PI_Metadata pi) "rifa_id" in
           let rifaTitle := lookup_str (PI_Metadata pi) "rifa_title" in
           let userID := lookup_str (PI_Metadata pi) "user_id" in
           let userEmail := lookup_str (PI_Metadata pi) "user_email" in
           let numeros :=
             fst (Json.Unmarshal_ints (lookup_str (PI_Metadata pi) "numeros") None) in
           log_Printf ("💰 Pago verificado de: " +:+ userEmail);;
           err ← registrarTickets rifaID numeros userID;
           match err with
           | Some e => log_Printf ("❌ ERROR DB: " +:+ e);; return_
           | None => mret ()
           end;;
           go {| task_userEmail := userEmail; task_rifaTitle := rifaTitle;
                 task_numeros := numeros |}
         else mret ());;
        WriteHeader 200
    end.

(** enviarCorreoConfirmacion: the call it makes and the error it
    returns. *)
Definition enviarCorreoConfirmacion (destinatario rifaNombre : string)
    (numeros : slice Z) : list Call * option error :=
  let params := correo_params destinatario rifaNombre numeros in
  ([CallSend params], Emails_Send ext params).

(** The body of the goroutine. *)
Definition go_func (t : Task) : list Call :=
  let '(sent, err) :=
    enviarCorreoConfirmacion (task_userEmail t) (task_rifaTitle t) (task_numeros t) in
  sent ++
  match err with
  | Some err => [Log ("⚠️ Error correo: " +:+ err)]
  | None => [Log ("📧 Correo enviado a " +:+ task_userEmail t)]
  end.

End Handlers.
End MainGo.

(** ** The version with Apple Pay and the CSP header *)

Module ApplePay.
Section Handlers.

Context {S B : Type} (ext : External S B).

Definition registrarTickets (rifaID : string) (numeros : slice Z) (userID : string)
  : M S (option error) :=
  let payload := ticket_payload rifaID numeros userID in
  r ← http_Do ext (POST_tikect payload);
  match r with
  | DoErr err => mret (Some err)
  | DoResp resp =>
      if bool_decide (400 ≤ StatusCode resp)
      then mret (Some ("status " +:+ Json.FormatInt (StatusCode resp) +:+ ": "
                       +:+ ReadAll ext (Body resp)))
      else mret None
  end.

(** The request that enviarCorreoConfirmacion builds (the style
    attributes of the HTML are left out). *)
Definition correo_params (destinatario rifaNombre : string)
    (numeros : slice Z) : SendEmailRequest :=
  {| From := "Twins Rifas <onboarding@resend.dev>";
     To := [destinatario];
     Subject := "Tus números confirmados";
     Html := "<div><h2>¡Compra Exitosa!</h2><p>Tus números para <b>"
             +:+ rifaNombre +:+ "</b>:</p><h1># "
             +:+ numsStr numeros +:+ "</h1></div>" |}.

Definition CreatePaymentIntent (r : Request) : M S unit :=
  log_Printf "--- Nuevo Intento de Pago ---";;
  match Decode_PaymentRequest ext (ReqBody r) with
  | Err e =>
      log_Printf ("❌ Error decodificando JSON: " +:+ e);;
      http_Error "JSON inválido" 400
  | Ok req =>
      rifa ← getRifa ext (RifaID req);
      match rifa with
      | Err _ =>
          log_Printf ("❌ Rifa " +:+ RifaID req +:+ " no encontrada");;
          http_Error "Rifa no encontrada" 404
      | Ok rifa =>
          let params :=
            {| Amount := montoTotal rifa req;
               Currency := "usd";
               AutomaticPaymentMethods := Some true;
               Metadata := intent_Metadata rifa req |} in
          pi ← stripe_New ext params;
          match pi with
          | Err e =>
              log_Printf ("❌ Error Stripe API: " +:+ e);;
              http_Error "Error Stripe" 500
          | Ok pi =>
              log_Printf ("✅ Intent Creado: " +:+ PI_ID pi +:+ " para " +:+ Email req);;
              on_writer (rw_Write (ClientSecretJSON (ClientSecret pi)))
          end
      end
  end.

Definition MaxBodyBytes : Z := 65536.

Definition HandleStripeWebhook (r : Request) : M S unit :=
  log_Printf "--- Webhook Recibido ---";;
  if bool_decide (MaxBodyBytes < Z.of_nat (String.length (ReqBody r)))
  then
    log_Printf "❌ Error leyendo payload: http: request body too large";;
    WriteHeader 400
  else
    let payload := ReqBody r in
    let endpointSecret := Getenv ext "STRIPE_WEBHOOK_SECRET" in
    let signature := Stripe_Signature r in
    match webhook_ConstructEvent ext payload signature endpointSecret with
    | Err e =>
        log_Printf ("❌ Falló la validación del Webhook: " +:+ e);;
        WriteHeader 400
    | Ok event =>
        (if bool_decide (Type_ event = "payment_intent.succeeded") then
           let '(pi, err) := Unmarshal_PaymentIntent ext (Data_Raw event) in
           match err with
           | Some e =>
               log_Printf ("❌ Error parseando PaymentIntent: " +:+ e);;
               WriteHeader 400;;
               return_
           | None => mret ()
           end;;
           let rifaID := lookup_str (PI_Metadata pi) "rifa_id" in
           let rifaTitle := lookup_str (PI_Metadata pi) "rifa_title" in
           let userID := lookup_str (PI_Metadata pi) "user_id" in
           let userEmail := lookup_str (PI_Metadata pi) "user_email" in
           let numeros :=
             fst (Json.Unmarshal_ints (lookup_str (PI_Metadata pi) "numeros") None) in
           err ← registrarTickets rifaID numeros userID;
           match err with
           | Some e =>
               log_Printf ("❌ ERROR al registrar en Supabase: " +:+ e);;
               WriteHeader 500;;
               return_
           | None => mret ()
           end;;
           go {| task_userEmail := userEmail; task_rifaTitle := rifaTitle;
                 task_numeros := numeros |}
         else mret ());;
        WriteHeader 200
    end.

(** enviarCorreoConfirmacion: the call it makes and the error it
    returns. *)
Definition enviarCorreoConfirmacion (destinatario rifaNombre : string)
    (numeros : slice Z) : list Call * option error :=
  let params := correo_params destinatario rifaNombre numeros in
  ([CallSend params], Emails_Send ext params).

(** The body of the goroutine. *)
Definition go_func (t : Task) : list Call :=
  let '(sent, err) :=
    enviarCorreoConfirmacion (task_userEmail t) (task_rifaTitle t) (task_numeros t) in
  sent ++
  match err with
  | Some err => [Log ("⚠️ Error enviando correo: " +:+ err)]
  | None => []
  end.

End Handlers.
End ApplePay.

(** ** Serving one request *)

(** What one request leaves behind.  [response] is the status the
    client receives, [None] when the handler panicked and net/http
    dropped the connection.  The calls of the goroutines that the
    handler started are kept apart from its own: they run at some
    later time, after the status is fixed. *)
Record Served (S : Type) : Type := {
  response : option Z;
  store_after : S;
  calls : list Call;
  background : list Call
}.
Arguments response {S} _.
Arguments store_after {S} _.
Arguments calls {S} _.
Arguments background {S} _.

(** The state in which a handler starts on store [s]. *)
Definition fresh {S} (s : S) : State S :=
  {| store := s; w := newResponseWriter; trace := []; spawned := [] |}.

Definition serve {S} (go_func : Task → list Call) (h : M S unit) (s : S) : Served S :=
  let '(res, st) := h (fresh s) in
  {| response := match res with
                 | Panicked => None
                 | _ => Some (status_sent (w st))
                 end;
     store_after := store st;
     calls := trace st;
     background := concat (go_func <$> spawned st) |}.

Definition is_store_call (c : Call) : bool :=
  match c with CallDo _ => true | _ => false end.

Definition is_stripe_call (c : Call) : bool :=
  match c with CallStripe _ => true | _ => false end.

Definition is_send_call (c : Call) : bool :=
  match c with CallSend _ => true | _ => false end.

Definition is_log (c : Call) : bool :=
  match c with Log _ => true | _ => false end.

Definition is_availability_query (c : Call) : bool :=
  match c with CallDo (GET_tikect _ _) => true | _ => false end.

(** The store accepted a request when the program sees neither an
    error nor a status from 400 on. *)
Definition accepted {B} (r : DoResult B) : bool :=
  match r with
  | DoErr _ => false
  | DoResp resp => bool_decide (StatusCode resp < 400)
  end.

Module MainGoServer.
Section Endpoints.
Context {S B : Type} (ext : External S B).

Definition create_intent (r : Request) (s : S) : Served S :=
  serve (MainGo.go_func ext) (MainGo.CreatePaymentIntent ext r) s.

Definition webhook (r : Request) (s : S) : Served S :=
  serve (MainGo.go_func ext) (MainGo.HandleStripeWebhook ext r) s.

End Endpoints.
End MainGoServer.

Module ApplePayServer.
Section Endpoints.
Context {S B : Type} (ext : External S B).

Definition create_intent (r : Request) (s : S) : Served S :=
  serve (ApplePay.go_func ext) (ApplePay.CreatePaymentIntent ext r) s.

Definition webhook (r : Request) (s : S) : Served S :=
  serve (ApplePay.go_func ext) (ApplePay.HandleStripeWebhook ext r) s.

End Endpoints.
End ApplePayServer.

(** ** What the program expects of the store *)

Section StoreContracts.

Context {S B : Type} (rows : S → list Ticket) (ext : External S B).

(** Modelled from the spec: the store keeps (item, number) unique and
    takes or refuses a batch as a whole; reading changes nothing. *)
Record UniqueStore : Prop := {
  read_rifa : ∀ id s, rows (Do ext (GET_rifa id) s).1 = rows s;
  read_tikect : ∀ rid ns s, rows (Do ext (GET_tikect rid ns) s).1 = rows s;
  post_accepted : ∀ p s,
    accepted (Do ext (POST_tikect p) s).2 = true →
    rows (Do ext (POST_tikect p) s).1 = rows s ++ p ∧ NoDup (key <$> (rows s ++ p));
  post_rejected : ∀ p s,
    accepted (Do ext (POST_tikect p) s).2 = false →
    rows (Do ext (POST_tikect p) s).1 = rows s
}.

(** The least the invariant needs of the store, whether it takes a
    batch as a whole or row by row: reading changes nothing, an
    insert adds rows of its payload only, and never a second ticket
    for an (item, number) pair. *)
Record KeepsUnique : Prop := {
  query_rifa : ∀ id s, rows (Do ext (GET_rifa id) s).1 = rows s;
  query_tikect : ∀ rid ns s, rows (Do ext (GET_tikect rid ns) s).1 = rows s;
  insert_grants : ∀ p s, ∃ granted,
    granted ⊆ p ∧
    rows (Do ext (POST_tikect p) s).1 = rows s ++ granted ∧
    (NoDup (key <$> rows s) → NoDup (key <$> (rows s ++ granted)))
}.

(** Modelled from the spec: the availability query is answered with
    status 200 and the existing tickets of the item whose number is
    among those asked for. *)
Definition taken (rid : string) (ns : list Z) (l : list Ticket) : list Ticket :=
  filter (λ t, rifa_id t = rid ∧ number t ∈ ns) l.

Definition AnswersAvailability : Prop :=
  ∀ rid ns s, ∃ resp,
    (Do ext (GET_tikect rid ns) s).2 = DoResp resp ∧
    Decode_count ext (Body resp) = length (taken rid ns (rows s)).

End StoreContracts.

(** ** Test doubles *)

Module Fixture.

Inductive FBody : Type :=
| RifasJSON (l : list Rifa)
| RowsJSON (l : list Ticket)
| NoContent
| Message (s : string).

Definition catalog : list Rifa :=
  [ {| ID := "R1"; Price := 1000; Title := "Spring Raffle" |};
    {| ID := "X"; Price := 500; Title := "Rifa X" |} ].

(** A PostgREST-like store over the rows of [tikect]; [unique] says
    whether the table has the unique constraint on (rifa_id, number). *)
Definition postgrest (unique : bool) (req : SupaRequest) (rows : list Ticket)
  : list Ticket * DoResult FBody :=
  match req with
  | GET_rifa id =>
      (rows, DoResp {| StatusCode := 200;
                       Body := RifasJSON (filter (λ r, ID r = id) catalog) |})
  | GET_tikect rid ns =>
      (rows, DoResp {| StatusCode := 200; Body := RowsJSON (taken rid ns rows) |})
  | POST_tikect payload =>
      if unique && negb (bool_decide (NoDup (key <$> (rows ++ payload))))
      then (rows, DoResp {| StatusCode := 409;
                            Body := Message "duplicate key value violates unique constraint" |})
      else (rows ++ payload, DoResp {| StatusCode := 201; Body := NoContent |})
  end.

(** A store that takes a batch row by row: the rows whose pair is
    free are inserted, the others are skipped, and the insert is
    answered 201 either way. *)
Fixpoint insert_free (rows payload : list Ticket) : list Ticket :=
  match payload with
  | [] => rows
  | t :: p =>
      if bool_decide (key t ∈ key <$> rows) then insert_free rows p
      else insert_free (rows ++ [t]) p
  end.

Definition row_by_row (req : SupaRequest) (rows : list Ticket)
  : list Ticket * DoResult FBody :=
  match req with
  | POST_tikect payload =>
      (insert_free rows payload, DoResp {| StatusCode := 201; Body := NoContent |})
  | _ => postgrest true req rows
  end.

(** A store that cannot be reached for inserts. *)
Definition unreachable (req : SupaRequest) (rows : list Ticket)
  : list Ticket * DoResult FBody :=
  match req with
  | POST_tikect _ => (rows, DoResp {| StatusCode := 503; Body := Message "upstream unavailable" |})
  | _ => postgrest true req rows
  end.

(** A store whose availability query fails with an error body. *)
Definition query_fails (req : SupaRequest) (rows : list Ticket)
  : list Ticket * DoResult FBody :=
  match req with
  | GET_tikect _ _ =>
      (rows, DoResp {| StatusCode := 500; Body := Message "internal error" |})
  | _ => postgrest true req rows
  end.

Definition request_of (rid : string) (ns : slice Z) (uid mail : string) : PaymentRequest :=
  {| RifaID := rid; Numeros := ns; UserId := uid; Email := mail |}.

(** The request bodies and the intents of the scenarios, by name. *)
Definition requests : list (string * PaymentRequest) :=
  [ ("spring", request_of "R1" (Some [4; 9]) "u1" "u1@x.com");
    ("three", request_of "X" (Some [1; 2; 3]) "u1" "u1@x.com");
    ("twice7", request_of "X" (Some [7; 7]) "u1" "u1@x.com");
    ("seven", request_of "X" (Some [7]) "u1" "u1@x.com");
    ("seven8", request_of "X" (Some [7; 8]) "u2" "u2@x.com") ].

Definition rifa_of (id : string) : Rifa :=
  default {| ID := id; Price := 0; Title := EmptyString |}
    (head (filter (λ r, ID r = id) catalog)).

Definition intent_of (name : string) (md : gmap string string) : PaymentIntent :=
  {| PI_ID := "pi_" +:+ name; ClientSecret := "pi_" +:+ name +:+ "_secret";
     PI_Metadata := md |}.

Definition intents : list (string * PaymentIntent) :=
  ((λ '(name, req), (name, intent_of name (intent_Metadata (rifa_of (RifaID req)) req)))
     <$> requests)
  ++ [ ("garbled", intent_of "garbled"
          {[ "rifa_id" := "X"; "rifa_title" := "Rifa X"; "user_id" := "u1";
             "user_email" := "u1@x.com"; "numeros" := "4;9" ]});
       ("bare", intent_of "bare"
          {[ "rifa_id" := "X"; "rifa_title" := "Rifa X"; "user_id" := "u1";
             "user_email" := "u1@x.com" ]}) ].

Definition assoc {A} (k : string) (l : list (string * A)) : option A :=
  snd <$> head (filter (λ p, p.1 = k) l).

Definition secret : string := "whsec_test".

(** A stand-in for Stripe's signature: the header is valid when it
    is the secret followed by the payload. *)
Definition sign (key payload : string) : string := key +:+ "." +:+ payload.

Definition collaborators (Do : SupaRequest → list Ticket → list Ticket * DoResult FBody)
    (mail_ok : bool) : External (list Ticket) FBody :=
  {| Getenv := λ k, if bool_decide (k = "STRIPE_WEBHOOK_SECRET") then secret else EmptyString;
     Do := Do;
     Decode_Rifas := λ b, match b with RifasJSON l => l | _ => [] end;
     Decode_count := λ b, match b with RowsJSON l => length l | RifasJSON l => length l | _ => 0%nat end;
     ReadAll := λ b, match b with Message s => s | _ => EmptyString end;
     Decode_PaymentRequest := λ body,
       match assoc body requests with
       | Some req => Ok req
       | None => Err "invalid character"
       end;
     paymentintent_New := λ params,
       Ok {| PI_ID := "pi_new"; ClientSecret := "pi_new_secret";
             PI_Metadata := Metadata params |};
     webhook_ConstructEvent := λ payload header key,
       if bool_decide (header = sign key payload)
       then Ok {| Type_ := "payment_intent.succeeded"; Data_Raw := payload |}
       else Err "no signatures found matching the expected signature";
     Unmarshal_PaymentIntent := λ raw,
       match assoc raw intents with
       | Some pi => (pi, None)
       | None => ({| PI_ID := EmptyString; ClientSecret := EmptyString; PI_Metadata := ∅ |},
                  Some "unexpected end of JSON input")
       end;
     Emails_Send := λ _, if mail_ok then None else Some "resend: 503" |}.

(** The event of an intent, as Stripe signs and posts it. *)
Definition succeeded (name : string) : Request :=
  {| ReqBody := name; Stripe_Signature := sign secret name |}.

Definition create (name : string) : Request :=
  {| ReqBody := name; Stripe_Signature := EmptyString |}.

(** The same event signed with another secret, and the event with
    one byte of its body changed after signing. *)
Definition forged (name : string) : Request :=
  {| ReqBody := name; Stripe_Signature := sign "whsec_other" name |}.

Definition tampered (name : string) : Request :=
  {| ReqBody := name +:+ "!"; Stripe_Signature := sign secret name |}.

(** The store with the unique constraint, the store without it, and
    the store that fails every insert. *)
Definition with_unique : External (list Ticket) FBody :=
  collaborators (postgrest true) true.

Definition without_unique : External (list Ticket) FBody :=
  collaborators (postgrest false) true.

Definition store_down : External (list Ticket) FBody :=
  collaborators unreachable true.

Definition skips_taken : External (list Ticket) FBody :=
  collaborators row_by_row true.

Definition query_down : External (list Ticket) FBody :=
  collaborators query_fails true.

Definition ticket (rid : string) (n : Z) (uid : string) : Ticket :=
  {| rifa_id := rid; number := n; profile_id := uid |}.

Definition intent_named (name : string) : PaymentIntent :=
  (Unmarshal_PaymentIntent with_unique name).1.

End Fixture.

(** ** Notions used in the statements *)

(** The same collaborators with another mail service. *)
Definition with_Send {S B} (ext : External S B)
    (send : SendEmailRequest → option error) : External S B :=
  {| Getenv := Getenv ext;
     Do := Do ext;
     Decode_Rifas := Decode_Rifas ext;
     Decode_count := Decode_count ext;
     ReadAll := ReadAll ext;
     Decode_PaymentRequest := Decode_PaymentRequest ext;
     paymentintent_New := paymentintent_New ext;
     webhook_ConstructEvent := webhook_ConstructEvent ext;
     Unmarshal_PaymentIntent := Unmarshal_PaymentIntent ext;
     Emails_Send := send |}.

Inductive Version : Type := main_go | apple_pay.

(** The amounts of the intents asked of Stripe, the payloads of the
    inserts sent to the store, and the lines logged. *)
Definition amounts_sent (l : list Call) : list Z :=
  omap (λ c, match c with CallStripe p => Some (Amount p) | _ => None end) l.

Definition inserts_sent (l : list Call) : list (list Ticket) :=
  omap (λ c, match c with CallDo (POST_tikect p) => Some p | _ => None end) l.

Definition mails_sent (l : list Call) : list SendEmailRequest :=
  omap (λ c, match c with CallSend m => Some m | _ => None end) l.

Definition lines_logged (l : list Call) : list string :=
  omap (λ c, match c with Log s => Some s | _ => None end) l.

Definition intents_sent (l : list Call) : list PaymentIntentParams :=
  omap (λ c, match c with CallStripe p => Some p | _ => None end) l.

(** The parameters of the intent that the two versions of
    CreatePaymentIntent build for an item and a request. *)
Definition params_of (v : Version) (rifa : Rifa) (req : PaymentRequest)
  : PaymentIntentParams :=
  {| Amount := montoTotal rifa req;
     Currency := "usd";
     AutomaticPaymentMethods :=
       match v with main_go => None | apple_pay => Some true end;
     Metadata := intent_Metadata rifa req |}.

(** The item that getRifa finds for [id] in store [s]: the request
    for it can be built, and the store answers 200 with a list that
    starts with the item. *)
Definition found {S B} (ext : External S B) (id : string) (s : S) (rifa : Rifa) : Prop :=
  NewRequest (rifa_url id) = true ∧
  ∃ resp rest,
    (Do ext (GET_rifa id) s).2 = DoResp resp ∧
    StatusCode resp = 200 ∧
    Decode_Rifas ext (Body resp) = rifa :: rest.

(** A request that arrives at one of the two endpoints of one of the
    two versions, and the store after a sequence of them. *)
Inductive Incoming : Type :=
| CreateIntent (v : Version) (r : Request)
| Webhook (v : Version) (r : Request).

Definition handle {S B} (ext : External S B) (i : Incoming) (s : S) : Served S :=
  match i with
  | CreateIntent main_go r => MainGoServer.create_intent ext r s
  | CreateIntent apple_pay r => ApplePayServer.create_intent ext r s
  | Webhook main_go r => MainGoServer.webhook ext r s
  | Webhook apple_pay r => ApplePayServer.webhook ext r s
  end.

Definition run {S B} (ext : External S B) (l : list Incoming) (s : S) : S :=
  foldl (λ s i, store_after (handle ext i s)) s l.

(** The handlers share nothing but the store, and reach it one
    request at a time: whatever requests run concurrently, the store
    goes through the requests sent to it in the order in which it
    receives them. *)
Definition store_steps {S B} (ext : External S B) (l : list SupaRequest) (s : S) : S :=
  foldl (λ s req, (Do ext req s).1) s l.

(** A verified "payment succeeded" event of request [r], its intent
    decoded without error. *)
Definition verified_succeeded {S B} (ext : External S B) (r : Request)
    (pi : PaymentIntent) : Prop :=
  Z.of_nat (String.length (ReqBody r)) ≤ 65536 ∧
  ∃ event,
    webhook_ConstructEvent ext (ReqBody r) (Stripe_Signature r)
      (Getenv ext "STRIPE_WEBHOOK_SECRET") = Ok event ∧
    Type_ event = "payment_intent.succeeded" ∧
    Unmarshal_PaymentIntent ext (Data_Raw event) = (pi, None).

(** The same, when decoding the intent may have failed: main.go goes
    on with whatever was decoded. *)
Definition verified_succeeded_any {S B} (ext : External S B) (r : Request)
    (pi : PaymentIntent) : Prop :=
  Z.of_nat (String.length (ReqBody r)) ≤ 65536 ∧
  ∃ event,
    webhook_ConstructEvent ext (ReqBody r) (Stripe_Signature r)
      (Getenv ext "STRIPE_WEBHOOK_SECRET") = Ok event ∧
    Type_ event = "payment_intent.succeeded" ∧
    (Unmarshal_PaymentIntent ext (Data_Raw event)).1 = pi.

(** The numbers and the rows that the webhook handlers take from the
    metadata of an intent. *)
Definition numeros_of (pi : PaymentIntent) : slice Z :=
  (Json.Unmarshal_ints (lookup_str (PI_Metadata pi) "numeros") None).1.

Definition rows_of (pi : PaymentIntent) : list Ticket :=
  ticket_payload (lookup_str (PI_Metadata pi) "rifa_id") (numeros_of pi)
    (lookup_str (PI_Metadata pi) "user_id").

(** The confirmation mail of an intent, as each version writes it. *)
Definition mail_of (v : Version) (pi : PaymentIntent) : SendEmailRequest :=
  match v with
  | main_go => MainGo.correo_params
  | apple_pay => ApplePay.correo_params
  end (lookup_str (PI_Metadata pi) "user_email")
      (lookup_str (PI_Metadata pi) "rifa_title") (numeros_of pi).

(** A piece of a handler keeps a property of the store. *)
Definition preserves {S A} (P : S → Prop) (m : M S A) : Prop :=
  ∀ st, P (store st) → P (store (m st).2).

Module UrlFacts.

(** Text that the two checks of [Url.Parse] pass over: no control
    character, no [#] and no [%]. *)
Fixpoint inert (s : string) : bool :=
  match s with
  | EmptyString => true
  | String c r =>
      negb (Url.is_ctl c) && negb (Ascii.eqb c "#") && negb (Ascii.eqb c "%") && inert r
  end.

End UrlFacts.

Module JsonFacts.
Import Json.

Fixpoint all_digits (s : string) : bool :=
  match s with
  | EmptyString => true
  | String c r => is_digit c && all_digits r
  end.

(** What may follow a number literal of digits without extending it. *)
Definition ends_number (s : string) : bool :=
  match s with
  | EmptyString => true
  | String c _ =>
      negb (is_digit c || Ascii.eqb c "." || Ascii.eqb c "e" || Ascii.eqb c "E"
            || is_space c)
  end.

(** A reader always consumes some input. *)
Definition shrinks {A} (f : N → string → option (A * string)) : Prop :=
  ∀ d s a r, f d s = Some (a, r) → (String.length r < String.length s)%nat.

(** Two readers agree on the strings shorter than [k]. *)
Definition agree_below {A} (k : nat) (f g : N → string → option (A * string)) : Prop :=
  ∀ d s, (String.length s < k)%nat → f d s = g d s.

End JsonFacts.

(** ** The middleware and the routes *)

(** What the middleware looks at besides the request the handlers
    read: the method. *)
Record HttpRequest : Type := {
  Method : string;
  request : Request
}.

(** An http.HandlerFunc: given the request and the headers set on the
    response so far, the headers it sets before anything is written
    and what it then does.  (The headers that http.Error adds are
    not kept.) *)
Definition HandlerFunc (S : Type) : Type :=
  HttpRequest → gmap string string → gmap string string * M S unit.

(** One of the two handlers behind the middleware.  The header map
    is the one the middleware fills before the handler runs; what
    http.Error adds to an error response is left out. *)
Definition plain {S} (h : Request → M S unit) : HandlerFunc S :=
  λ r hd, (hd, h (request r)).

Definition enableCORS {S} (next : HandlerFunc S) : HandlerFunc S := λ r hd,
  let hd := <["Access-Control-Allow-Origin" := "*"]> hd in
  let hd := <["Access-Control-Allow-Methods" := "POST, GET, OPTIONS"]> hd in
  let hd := <["Access-Control-Allow-Headers" := "Content-Type, Authorization"]> hd in
  if bool_decide (Method r = "OPTIONS") then (hd, WriteHeader 200)
  else next r hd.

Definition withCSP {S} (next : HandlerFunc S) : HandlerFunc S := λ r hd,
  next r
    (<["Content-Security-Policy" :=
         "default-src 'self'; "
         +:+ "script-src 'self' https://js.stripe.com https://m.stripe.network 'unsafe-inline'; "
         +:+ "style-src 'self' https://js.stripe.com 'unsafe-inline'; "
         +:+ "frame-src https://js.stripe.com https://m.stripe.network https://applepay.apple.com; "
         +:+ "connect-src 'self' https://api.stripe.com https://m.stripe.network https://apple-pay-gateway.apple.com;"]>
       hd).

(** The response of a route: the headers and what [serve] reports. *)
Record Reply (S : Type) : Type := {
  header : gmap string string;
  served : Served S
}.
Arguments header {S} _.
Arguments served {S} _.

Definition serve_route {S} (go_func : Task → list Call) (h : HandlerFunc S)
    (r : HttpRequest) (s : S) : Reply S :=
  let '(hd, m) := h r ∅ in
  {| header := hd; served := serve go_func m s |}.

(** The two registrations of [main], in each version. *)
Module MainGoRoutes.
Section Routes.
Context {S B : Type} (ext : External S B).

Definition create_intent : HttpRequest → S → Reply S :=
  serve_route (MainGo.go_func ext) (enableCORS (plain (MainGo.CreatePaymentIntent ext))).

Definition webhook : HttpRequest → S → Reply S :=
  serve_route (MainGo.go_func ext) (plain (MainGo.HandleStripeWebhook ext)).

End Routes.
End MainGoRoutes.

Module ApplePayRoutes.
Section Routes.
Context {S B : Type} (ext : External S B).

Definition create_intent : HttpRequest → S → Reply S :=
  serve_route (ApplePay.go_func ext)
    (enableCORS (withCSP (plain (ApplePay.CreatePaymentIntent ext)))).

Definition webhook : HttpRequest → S → Reply S :=
  serve_route (ApplePay.go_func ext)
    (enableCORS (withCSP (plain (ApplePay.HandleStripeWebhook ext)))).

End Routes.
End ApplePayRoutes.

(** The headers of enableCORS. *)
Definition cors_headers : gmap string string :=
  {[ "Access-Control-Allow-Origin" := "*";
     "Access-Control-Allow-Methods" := "POST, GET, OPTIONS";
     "Access-Control-Allow-Headers" := "Content-Type, Authorization" ]}.

(** ** More notions and test doubles *)

Definition with_Stripe {S B} (ext : External S B)
    (new : PaymentIntentParams → result PaymentIntent) : External S B :=
  {| Getenv := Getenv ext;
     Do := Do ext;
     Decode_Rifas := Decode_Rifas ext;
     Decode_count := Decode_count ext;
     ReadAll := ReadAll ext;
     Decode_PaymentRequest := Decode_PaymentRequest ext;
     paymentintent_New := new;
     webhook_ConstructEvent := webhook_ConstructEvent ext;
     Unmarshal_PaymentIntent := Unmarshal_PaymentIntent ext;
     Emails_Send := Emails_Send ext |}.

Definition with_Events {S B} (ext : External S B)
    (construct : string → string → string → result Event) : External S B :=
  {| Getenv := Getenv ext;
     Do := Do ext;
     Decode_Rifas := Decode_Rifas ext;
     Decode_count := Decode_count ext;
     ReadAll := ReadAll ext;
     Decode_PaymentRequest := Decode_PaymentRequest ext;
     paymentintent_New := paymentintent_New ext;
     webhook_ConstructEvent := construct;
     Unmarshal_PaymentIntent := Unmarshal_PaymentIntent ext;
     Emails_Send := Emails_Send ext |}.

Definition with_Decode {S B} (ext : External S B)
    (decode : string → result PaymentRequest) : External S B :=
  {| Getenv := Getenv ext;
     Do := Do ext;
     Decode_Rifas := Decode_Rifas ext;
     Decode_count := Decode_count ext;
     ReadAll := ReadAll ext;
     Decode_PaymentRequest := decode;
     paymentintent_New := paymentintent_New ext;
     webhook_ConstructEvent := webhook_ConstructEvent ext;
     Unmarshal_PaymentIntent := Unmarshal_PaymentIntent ext;
     Emails_Send := Emails_Send ext |}.

(** The calls of a handler other than its log lines. *)
Definition outside_calls (l : list Call) : list Call :=
  filter (λ c, is_log c = false) l.

(** The state a handler ends in, with the response writer. *)
Definition final {S A} (m : M S A) (s : S) : State S := (m (fresh s)).2.

Definition create_handler {S B} (v : Version) (ext : External S B) : Request → M S unit :=
  match v with
  | main_go => MainGo.CreatePaymentIntent ext
  | apple_pay => ApplePay.CreatePaymentIntent ext
  end.

Definition webhook_handler {S B} (v : Version) (ext : External S B) : Request → M S unit :=
  match v with
  | main_go => MainGo.HandleStripeWebhook ext
  | apple_pay => ApplePay.HandleStripeWebhook ext
  end.

(** The calls of CreatePaymentIntent once the item is found and, in
    main.go, the numbers are free: in this order. *)
Definition calls_to_intent (v : Version) (rifa : Rifa) (req : PaymentRequest) : list Call :=
  CallDo (GET_rifa (RifaID req)) ::
  match v with
  | main_go => [CallDo (GET_tikect (RifaID req) (elems (Numeros req)))]
  | apple_pay => []
  end ++ [CallStripe (params_of v rifa req)].

(** The availability query of main.go finds no row, in the store as
    getRifa left it; the other version asks nothing. *)
Definition numbers_free {S B} (v : Version) (ext : External S B) (req : PaymentRequest)
    (s : S) : Prop :=
  match v with
  | main_go =>
      ∃ resp,
        (Do ext (GET_tikect (RifaID req) (elems (Numeros req)))
           (Do ext (GET_rifa (RifaID req)) s).1).2 = DoResp resp ∧
        Decode_count ext (Body resp) = 0%nat
  | apple_pay => True
  end.

(** When CreatePaymentIntent panics: the request for the item cannot
    be built, or, in main.go, the availability query for a found
    item fails in the transport. *)
Definition panics {S B} (ext : External S B) (v : Version) (r : Request) (s : S) : Prop :=
  ∃ req,
    Decode_PaymentRequest ext (ReqBody r) = Ok req ∧
    (NewRequest (rifa_url (RifaID req)) = false
     ∨ v = main_go ∧ ∃ rifa e,
         found ext (RifaID req) s rifa ∧
         (Do ext (GET_tikect (RifaID req) (elems (Numeros req)))
            (Do ext (GET_rifa (RifaID req)) s).1).2 = DoErr e).

Module Faults.
Import Fixture.

(** Stripe refuses every intent. *)
Definition stripe_down : External (list Ticket) FBody :=
  with_Stripe with_unique (λ _, Err "api_connection_error").

(** Every correctly signed event has the type [ty]. *)
Definition events_of_type (ty : string) : External (list Ticket) FBody :=
  with_Events with_unique (λ payload header key,
    if bool_decide (header = sign key payload)
    then Ok {| Type_ := ty; Data_Raw := payload |}
    else Err "no signatures found matching the expected signature").

(** The network is down for the availability query alone, and for
    every request. *)
Definition query_unreachable : External (list Ticket) FBody :=
  collaborators (λ req rows,
    match req with
    | GET_tikect _ _ => (rows, DoErr "dial tcp: connection refused")
    | _ => postgrest true req rows
    end) true.

Definition no_network : External (list Ticket) FBody :=
  collaborators (λ _ rows, (rows, DoErr "dial tcp: connection refused")) true.

(** Every body decodes to a request for number 7 of the item [id]. *)
Definition asks_for (id : string) : External (list Ticket) FBody :=
  with_Decode with_unique (λ _, Ok (request_of id (Some [7]) "u1" "u1@x.com")).

(** Every body decodes to a request for item X that names no number
    (a body without the field leaves the slice nil). *)
Definition no_numbers : External (list Ticket) FBody :=
  with_Decode with_unique (λ _, Ok (request_of "X" None "u1" "u1@x.com")).

(** A correctly signed body of 65537 bytes. *)
Definition oversize : Request :=
  let body := N.iter 65537 (String "a") EmptyString in
  {| ReqBody := body; Stripe_Signature := sign secret body |}.

Definition post (r : Request) : HttpRequest := {| Method := "POST"; request := r |}.

Definition preflight : HttpRequest :=
  {| Method := "OPTIONS";
     request := {| ReqBody := EmptyString; Stripe_Signature := EmptyString |} |}.

End Faults.

(** ** Words of the numbers line *)

Module MailNotions.

(** A word for strings.Fields: no blank in it. *)
Fixpoint plain_word (s : string) : bool :=
  match s with
  | EmptyString => true
  | String c r => negb (Ascii.is_space c) && plain_word r
  end.

(** fmt.Sprint sticks the brackets to the first and the last item. *)
Fixpoint closed (l : list string) : list string :=
  match l with
  | [] => []
  | [x] => [x +:+ "]"]
  | x :: l' => x :: closed l'
  end.

Definition opened (l : list string) : list string :=
  match l with
  | [] => []
  | x :: l' => ("[" +:+ x) :: l'
  end.

End MailNotions.

(** * Proofs *)

(** ** The JSON text of a list of ints *)

Module JsonProofs.
Import Json JsonFacts.

Lemma append_cons (x : ascii) (a b : string) : String x a +:+ b = String x (a +:+ b).
Proof. reflexivity. Qed.

Lemma append_nil_l (a : string) : EmptyString +:+ a = a.
Proof. reflexivity. Qed.

Lemma append_assoc (a b c : string) : (a +:+ b) +:+ c = a +:+ (b +:+ c).
Proof.
  induction a as [|x a IH]; [reflexivity|].
  rewrite !append_cons. f_equal. exact IH.
Qed.

Lemma append_nil_r (a : string) : a +:+ EmptyString = a.
Proof.
  induction a as [|x a IH]; [reflexivity|].
  rewrite append_cons. f_equal. exact IH.
Qed.

Lemma length_append (a b : string) :
  String.length (a +:+ b) = (String.length a + String.length b)%nat.
Proof.
  induction a as [|x a IH]; [reflexivity|].
  rewrite append_cons. simpl. f_equal. exact IH.
Qed.

Ltac each_char c :=
  destruct c as [[|] [|] [|] [|] [|] [|] [|] [|]]; try discriminate; try reflexivity.

Lemma digit_not_structural c :
  is_digit c = true →
  Ascii.eqb c "{" = false ∧ Ascii.eqb c "[" = false ∧ Ascii.eqb c dquote = false ∧
  Ascii.eqb c "t" = false ∧ Ascii.eqb c "f" = false ∧ Ascii.eqb c "n" = false ∧
  Ascii.eqb c "-" = false ∧ Ascii.eqb c "+" = false ∧ Ascii.eqb c "]" = false ∧
  is_space c = false.
Proof. each_char c; intros _; repeat split. Qed.

Lemma string_of_uint_all_digits d : all_digits (NilEmpty.string_of_uint d) = true.
Proof. induction d; simpl; auto. Qed.

Lemma span_digits_app ds rest :
  all_digits ds = true → ends_number rest = true →
  span_digits (ds +:+ rest) = (ds, rest).
Proof.
  intros Hd Hr. induction ds as [|c ds IH].
  - rewrite append_nil_l. destruct rest as [|c r]; [reflexivity|]. simpl in *.
    destruct (is_digit c); [discriminate | reflexivity].
  - rewrite append_cons. simpl in *.
    apply andb_true_iff in Hd as [Hc Hd]. rewrite Hc, (IH Hd). reflexivity.
Qed.

Lemma to_uint_head p :
  ∃ c r, NilEmpty.string_of_uint (Pos.to_uint p) = String c r ∧
         is_digit c = true ∧ Ascii.eqb c "0" = false ∧ all_digits r = true.
Proof.
  assert (Hn : Pos.to_uint p = Decimal.nzhead (Pos.to_uint p)).
  { pose proof (DecimalPos.Unsigned.to_of (Pos.to_uint p)) as H.
    rewrite DecimalPos.Unsigned.of_to in H. simpl in H.
    rewrite DecimalFacts.unorm_nzhead in H; [exact H|].
    intros Hnil. apply DecimalFacts.unorm_0 in Hnil. rewrite <- H in Hnil.
    now apply DecimalPos.Unsigned.to_uint_nonzero in Hnil. }
  pose proof (DecimalPos.Unsigned.to_uint_nonnil p) as Hnil.
  pose proof (string_of_uint_all_digits (Pos.to_uint p)) as Hall.
  destruct (Pos.to_uint p) as [|d|d|d|d|d|d|d|d|d|d] eqn:E; try congruence;
    [ now symmetry in Hn; apply DecimalFacts.nzhead_nonzero in Hn | .. ];
    simpl in *; eexists _, _; (split; [reflexivity|]); repeat split; exact Hall.
Qed.

Lemma FormatInt_pos p : FormatInt (Z.pos p) = NilEmpty.string_of_uint (Pos.to_uint p).
Proof. reflexivity. Qed.

Lemma FormatInt_neg p :
  FormatInt (Z.neg p) = String "-" (NilEmpty.string_of_uint (Pos.to_uint p)).
Proof. reflexivity. Qed.

Lemma FormatInt_shape z :
  FormatInt z = "0" ∨
  ∃ sg c r, FormatInt z = sg +:+ String c r ∧ (sg = EmptyString ∨ sg = "-") ∧
            is_digit c = true ∧ Ascii.eqb c "0" = false ∧ all_digits r = true.
Proof.
  destruct z as [|p|p]; [left; reflexivity | right | right];
    destruct (to_uint_head p) as (c & r & E & Hc & H0 & Hr).
  - rewrite FormatInt_pos, E. exists EmptyString, c, r. auto.
  - rewrite FormatInt_neg, E. exists "-", c, r. auto.
Qed.

Lemma scan_number_FormatInt z rest :
  ends_number rest = true →
  scan_number (FormatInt z +:+ rest) = Some (FormatInt z, rest).
Proof.
  intros Hr.
  assert (Hf : scan_frac rest = Some (EmptyString, rest)).
  { destruct rest as [|c r]; [reflexivity|]. simpl in *.
    destruct (Ascii.eqb c "."); [|reflexivity].
    rewrite orb_true_r in Hr; simpl in Hr.
    destruct (is_digit c); discriminate. }
  assert (He : scan_exp rest = Some (EmptyString, rest)).
  { destruct rest as [|c r]; [reflexivity|]. simpl in *.
    destruct (Ascii.eqb c "e"), (Ascii.eqb c "E"); try reflexivity;
      destruct (is_digit c), (Ascii.eqb c "."); discriminate. }
  destruct (FormatInt_shape z) as [-> | (sg & c & r & -> & Hsg & Hc & H0 & Hall)].
  - rewrite append_cons, append_nil_l. unfold scan_number. simpl.
    rewrite Hf. simpl. rewrite He. reflexivity.
  - destruct (digit_not_structural c Hc) as (_ & _ & _ & _ & _ & _ & Hm & _).
    pose proof (span_digits_app r rest Hall Hr) as Hs.
    destruct Hsg as [-> | ->]; unfold scan_number.
    + rewrite append_nil_l, append_cons. rewrite Hm.
      unfold scan_int. rewrite H0, Hc, Hs. simpl. rewrite Hf. simpl. rewrite He.
      simpl. now rewrite !append_nil_r.
    + rewrite !append_cons, append_nil_l. simpl.
      rewrite H0, Hc, Hs. simpl. rewrite Hf. simpl. rewrite He.
      simpl. now rewrite !append_nil_r.
Qed.

Lemma ParseInt_FormatInt z :
  Int64.in_range z = true → ParseInt (FormatInt z) = Some z.
Proof.
  intros Hz.
  assert (Hu : ∀ p, Z.of_uint (Pos.to_uint p) = Z.pos p).
  { intros p. unfold Z.of_uint. now rewrite DecimalPos.Unsigned.of_to. }
  destruct z as [|p|p].
  - reflexivity.
  - destruct (to_uint_head p) as (c & r & E & Hc & H0 & Hr).
    destruct (digit_not_structural c Hc) as (_ & _ & _ & _ & _ & _ & Hm & Hp & _).
    rewrite FormatInt_pos. unfold ParseInt. rewrite E, Hm, Hp, <- E.
    rewrite NilEmpty.usu. simpl. rewrite Hu, Hz. reflexivity.
  - destruct (to_uint_head p) as (c & r & E & Hc & H0 & Hr).
    rewrite FormatInt_neg. unfold ParseInt.
    change (Ascii.eqb "-" "-") with true. cbv iota. rewrite E, <- E.
    rewrite NilEmpty.usu. unfold mbind, option_bind. rewrite Hu.
    change (- Z.pos p) with (Z.neg p). rewrite Hz. reflexivity.
Qed.

Lemma FormatInt_head z :
  ∃ c r, FormatInt z = String c r ∧ (is_digit c = true ∨ c = "-"%char).
Proof.
  destruct (FormatInt_shape z) as [-> | (sg & c & r & -> & [-> | ->] & Hc & _)].
  - exists "0"%char, EmptyString. auto.
  - exists c, r. auto.
  - exists "-"%char, (String c r). auto.
Qed.

Lemma parse_value_S n d s :
  parse_value (S n) d s = value_step (parse_elements n) (parse_members n) d s.
Proof. reflexivity. Qed.

Lemma parse_elements_S n d s :
  parse_elements (S n) d s = elements_step (parse_value n) (parse_elements n) d s.
Proof. reflexivity. Qed.

Lemma parse_members_S n d s :
  parse_members (S n) d s = members_step (parse_value n) (parse_members n) d s.
Proof. reflexivity. Qed.

Lemma parse_value_number fuel depth c r :
  is_digit c = true ∨ c = "-"%char →
  parse_value (S fuel) depth (String c r) =
  '(lit, r') ← scan_number (String c r); Some (JNumber lit, r').
Proof.
  intros [Hc | ->]; [|reflexivity].
  destruct (digit_not_structural c Hc) as (H1 & H2 & H3 & H4 & H5 & H6 & _).
  rewrite parse_value_S. unfold value_step. now rewrite H1, H2, H3, H4, H5, H6.
Qed.

Lemma parse_value_FormatInt fuel depth z rest :
  ends_number rest = true →
  parse_value (S fuel) depth (FormatInt z +:+ rest) = Some (JNumber (FormatInt z), rest).
Proof.
  intros Hr. destruct (FormatInt_head z) as (c & r & E & Hc).
  pose proof (scan_number_FormatInt z rest Hr) as Hs.
  rewrite E, append_cons in *.
  rewrite (parse_value_number _ _ _ _ Hc), Hs. reflexivity.
Qed.

Lemma skip_ws_FormatInt z rest : skip_ws (FormatInt z +:+ rest) = FormatInt z +:+ rest.
Proof.
  destruct (FormatInt_head z) as (c & r & -> & [Hc | ->]); rewrite append_cons.
  - destruct (digit_not_structural c Hc) as (_ & _ & _ & _ & _ & _ & _ & _ & _ & Hs).
    simpl. now rewrite Hs.
  - reflexivity.
Qed.

Lemma join_cons2 sep (a b : string) l :
  join sep (a :: b :: l) = a +:+ sep +:+ join sep (b :: l).
Proof. reflexivity. Qed.

Lemma parse_elements_ints l : ∀ z fuel depth rest,
  (length l + 1 < fuel)%nat →
  parse_elements fuel depth (join "," (FormatInt <$> z :: l) +:+ String "]" rest)
  = Some (JNumber ∘ FormatInt <$> z :: l, rest).
Proof.
  induction l as [|z' l IH]; intros z fuel depth rest Hf;
    destruct fuel as [|[|fuel]]; simpl in Hf; try lia.
  - change (join "," (FormatInt <$> [z])) with (FormatInt z).
    rewrite parse_elements_S. unfold elements_step.
    rewrite parse_value_FormatInt by reflexivity. reflexivity.
  - rewrite fmap_cons, fmap_cons, join_cons2, <- fmap_cons, !append_assoc.
    change ("," +:+ ?x) with (String "," x).
    rewrite parse_elements_S. unfold elements_step.
    rewrite parse_value_FormatInt by reflexivity.
    cbn [mbind option_bind]. 
    change (skip_ws (String "," ?x)) with (String ","%char x).
    change (Ascii.eqb "," ",") with true. cbv iota.
    assert (Hsk : skip_ws (join "," (FormatInt <$> z' :: l) +:+ String "]" rest)
                  = join "," (FormatInt <$> z' :: l) +:+ String "]" rest).
    { destruct l as [|z'' l].
      - apply skip_ws_FormatInt.
      - rewrite fmap_cons, fmap_cons, join_cons2, !append_assoc.
        apply skip_ws_FormatInt. }
    rewrite Hsk, IH by lia. reflexivity.
Qed.

Lemma length_join_ints l :
  (length l ≤ String.length (join "," (FormatInt <$> l)))%nat.
Proof.
  assert (H1 : ∀ z, (1 ≤ String.length (FormatInt z))%nat).
  { intros z. destruct (FormatInt_head z) as (c & r & -> & _). simpl. lia. }
  induction l as [|z [|z' l] IH]; simpl. 
  - lia.
  - apply H1.
  - rewrite fmap_cons in IH. change (FormatInt z' :: (FormatInt <$> l)) with (FormatInt <$> z' :: l) in *.
    fold (join "," (FormatInt <$> z' :: l)). 
    rewrite !length_append. specialize (H1 z). simpl in *. lia.
Qed.

Lemma decode_ints_FormatInt l :
  Forall (λ z, Int64.in_range z = true) l →
  decode_int <$> (JNumber ∘ FormatInt <$> l) = (λ z, (z, None)) <$> l.
Proof.
  induction 1 as [|z l Hz _ IH]; [reflexivity|].
  rewrite !fmap_cons, IH. f_equal. simpl. now rewrite ParseInt_FormatInt.
Qed.

Lemma Unmarshal_Marshal_ints (v : slice Z) :
  Forall (λ z, Int64.in_range z = true) (elems v) →
  Unmarshal_ints (Marshal_ints v) None = (v, None).
Proof.
  intros Hv. destruct v as [l|]; [|reflexivity].
  assert (Hp : parse (Marshal_ints (Some l)) = Some (JArray (JNumber ∘ FormatInt <$> l))).
  { unfold parse, Marshal_ints.
    destruct l as [|z l]; [reflexivity|].
    set (data := "[" +:+ join "," (FormatInt <$> z :: l) +:+ "]").
    assert (Hlen : (length (z :: l) + 2 ≤ String.length data)%nat).
    { unfold data. rewrite !length_append.
      pose proof (length_join_ints (z :: l)). simpl in *. lia. }
    unfold fuel_for. 
    destruct (String.length data) as [|n] eqn:En; [simpl in Hlen; lia|].
    replace (2 * S n + 2)%nat with (S (S (2 * n + 2))) by lia.
    unfold data. change ("[" +:+ ?x) with (String "[" x).
    change (skip_ws (String "[" ?x)) with (String "["%char x).
    destruct (FormatInt_head z) as (c & r & E & Hc).
    assert (Hj : ∃ y, join "," (FormatInt <$> z :: l) +:+ "]" = String c y).
    { destruct l as [|z' l].
      - change (join "," (FormatInt <$> [z])) with (FormatInt z).
        rewrite E, append_cons. eauto.
      - rewrite fmap_cons, fmap_cons, join_cons2, E, !append_cons. eauto. }
    destruct Hj as (y & Hy).
    assert (Hnc : Ascii.eqb c "]" = false ∧ is_space c = false).
    { destruct Hc as [Hc | ->]; [|split; reflexivity].
      destruct (digit_not_structural c Hc) as (_ & _ & _ & _ & _ & _ & _ & _ & ? & ?). auto. }
    destruct Hnc as [Hnc Hsp].
    pose proof (parse_elements_ints l z (S (2 * n + 2)) 1 EmptyString) as Hpe.
    simpl in Hlen. specialize (Hpe ltac:(simpl; lia)).
    rewrite parse_value_S. unfold value_step.
    change (Ascii.eqb "[" "{") with false. change (Ascii.eqb "[" "[") with true.
    change (maxNestingDepth <=? 0)%N with false. cbv iota.
    rewrite Hy. simpl skip_ws. rewrite Hsp, Hnc, <- Hy.
    change (N.succ 0) with 1%N. 
    change ("]" : string) with (String "]" EmptyString). rewrite Hpe. reflexivity. }
  unfold Unmarshal_ints. rewrite Hp.
  rewrite decode_ints_FormatInt by exact Hv.
  assert (H1 : fst <$> ((λ z : Z, (z, @None json_error)) <$> l) = l).
  { clear. induction l as [|z l IH]; [reflexivity|]. rewrite !fmap_cons, IH. reflexivity. }
  assert (H2 : first_error (snd <$> ((λ z : Z, (z, @None json_error)) <$> l)) = None).
  { clear. induction l as [|z l IH]; [reflexivity|]. rewrite !fmap_cons. exact IH. }
  now rewrite H1, H2.
Qed.

(** *** The fuel of the parser is enough *)

Lemma skip_ws_length s : (String.length (skip_ws s) ≤ String.length s)%nat.
Proof.
  induction s as [|c s IH]; simpl; [lia|]. destruct (is_space c); simpl; lia.
Qed.

Lemma span_digits_length s d r :
  span_digits s = (d, r) → (String.length r ≤ String.length s)%nat.
Proof.
  revert d r. induction s as [|c s IH]; intros d r; simpl.
  - intros [= <- <-]. simpl. lia.
  - destruct (is_digit c).
    + destruct (span_digits s) as [d' r'] eqn:E. intros [= <- <-].
      specialize (IH _ _ eq_refl). lia.
    + intros [= <- <-]. simpl. lia.
Qed.

Lemma scan_number_length s lit r :
  scan_number s = Some (lit, r) → (String.length r < String.length s)%nat.
Proof.
  unfold scan_number.
  assert (Hi : ∀ s1 i s2, scan_int s1 = Some (i, s2) →
                 (String.length s2 < String.length s1)%nat).
  { intros [|c s1] i s2; simpl; [discriminate|].
    destruct (Ascii.eqb c "0"); [intros [= <- <-]; lia|].
    destruct (is_digit c); [|discriminate].
    destruct (span_digits s1) as [d r'] eqn:E. intros [= <- <-].
    apply span_digits_length in E. lia. }
  assert (Hf : ∀ s2 f s3, scan_frac s2 = Some (f, s3) →
                 (String.length s3 ≤ String.length s2)%nat).
  { intros [|c s2] f s3; simpl; [intros [= <- <-]; simpl; lia|].
    destruct (Ascii.eqb c ".").
    - destruct (span_digits s2) as [d r'] eqn:E. apply span_digits_length in E.
      destruct d; [discriminate|]. intros [= <- <-]. lia.
    - intros [= <- <-]. simpl. lia. }
  assert (He : ∀ s3 e s4, scan_exp s3 = Some (e, s4) →
                 (String.length s4 ≤ String.length s3)%nat).
  { intros [|c s3] e s4; simpl; [intros [= <- <-]; simpl; lia|].
    destruct (Ascii.eqb c "e" || Ascii.eqb c "E").
    - assert (Hs : (String.length (scan_sign s3).2 ≤ String.length s3)%nat).
      { destruct s3 as [|c' s3]; simpl; [lia|].
        destruct (Ascii.eqb c' "+" || Ascii.eqb c' "-"); simpl; lia. }
      destruct (scan_sign s3) as [sg r1]. simpl in Hs.
      destruct (span_digits r1) as [d r'] eqn:E. apply span_digits_length in E.
      destruct d; [discriminate|]. intros [= <- <-]. lia.
    - intros [= <- <-]. simpl. lia. }
  assert (Hsg : ∀ (sg : string) s1,
            (match s with
             | String c r0 => if Ascii.eqb c "-" then (String c EmptyString, r0)
                              else (EmptyString, s)
             | EmptyString => (EmptyString, s)
             end) = (sg, s1) → (String.length s1 ≤ String.length s)%nat).
  { intros sg s1. destruct s as [|c s0]; [intros [= <- <-]; lia|].
    destruct (Ascii.eqb c "-"); intros [= <- <-]; simpl; lia. }
  destruct (match s with
            | String c r0 => if Ascii.eqb c "-" then (String c EmptyString, r0)
                             else (EmptyString, s)
            | EmptyString => (EmptyString, s)
            end) as [sg s1] eqn:E0.
  specialize (Hsg _ _ eq_refl).
  destruct (scan_int s1) as [[i s2]|] eqn:E1; [|discriminate]. apply Hi in E1.
  simpl. destruct (scan_frac s2) as [[f s3]|] eqn:E2; [|discriminate]. apply Hf in E2.
  simpl. destruct (scan_exp s3) as [[e s4]|] eqn:E3; [|discriminate]. apply He in E3.
  simpl. intros [= <- <-]. lia.
Qed.

Lemma scan_string_length_below n : ∀ s raw r,
  (String.length s < n)%nat →
  scan_string s = Some (raw, r) → (String.length r < String.length s)%nat.
Proof.
  induction n as [|n IH]; intros s raw r Hn; [lia|].
  destruct s as [|c s]; simpl; [discriminate|]. simpl in Hn.
  destruct (Ascii.eqb c dquote); [intros [= <- <-]; lia|].
  destruct (Ascii.eqb c backslash).
  - destruct s as [|e s1]; [discriminate|].
    destruct (is_simple_escape e).
    + destruct (scan_string s1) as [[raw' r']|] eqn:E; [|discriminate].
      apply IH in E; [|simpl in *; lia]. simpl. intros [= <- <-]. simpl. lia.
    + destruct (Ascii.eqb e "u"); [|discriminate].
      destruct s1 as [|h1 [|h2 [|h3 [|h4 s2]]]]; try discriminate.
      destruct (is_hex h1 && is_hex h2 && is_hex h3 && is_hex h4); [|discriminate].
      destruct (scan_string s2) as [[raw' r']|] eqn:E; [|discriminate].
      apply IH in E; [|simpl in *; lia]. simpl. intros [= <- <-]. simpl. lia.
  - destruct (N_of_ascii c <? 32)%N; [discriminate|].
    destruct (scan_string s) as [[raw' r']|] eqn:E; [|discriminate].
    apply IH in E; [|lia]. simpl. intros [= <- <-]. lia.
Qed.

Lemma scan_string_length s raw r :
  scan_string s = Some (raw, r) → (String.length r < String.length s)%nat.
Proof. apply (scan_string_length_below (S (String.length s))). lia. Qed.

Lemma strip_prefix_length p : ∀ s r,
  strip_prefix p s = Some r → (String.length r ≤ String.length s)%nat.
Proof.
  induction p as [|a p IH]; intros s r; simpl.
  - intros [= <-]. lia.
  - destruct s as [|b s]; [discriminate|]. destruct (Ascii.eqb a b); [|discriminate].
    intros H. apply IH in H. simpl. lia.
Qed.

Lemma value_step_shrinks elements members :
  shrinks elements → shrinks members → shrinks (value_step elements members).
Proof.
  intros He Hm d s v r. unfold value_step.
  destruct s as [|c s]; [discriminate|].
  pose proof (skip_ws_length s) as Hsk.
  destruct (Ascii.eqb c "{").
  { destruct (maxNestingDepth <=? d)%N; [discriminate|].
    destruct (skip_ws s) as [|c' r'] eqn:E; [discriminate|]. simpl in Hsk.
    destruct (Ascii.eqb c' "}"); [intros [= <- <-]; simpl; lia|].
    destruct (members _ _) as [[ms r'']|] eqn:E'; [|discriminate].
    apply Hm in E'. simpl in *. intros [= <- <-]. lia. }
  destruct (Ascii.eqb c "[").
  { destruct (maxNestingDepth <=? d)%N; [discriminate|].
    destruct (skip_ws s) as [|c' r'] eqn:E; [discriminate|]. simpl in Hsk.
    destruct (Ascii.eqb c' "]"); [intros [= <- <-]; simpl; lia|].
    destruct (elements _ _) as [[ms r'']|] eqn:E'; [|discriminate].
    apply He in E'. simpl in *. intros [= <- <-]. lia. }
  destruct (Ascii.eqb c dquote).
  { destruct (scan_string s) as [[raw r']|] eqn:E; [|discriminate].
    apply scan_string_length in E. simpl. intros [= <- <-]. lia. }
  destruct (Ascii.eqb c "t").
  { destruct (strip_prefix "rue" s) as [r'|] eqn:E; [|discriminate].
    apply strip_prefix_length in E. simpl. intros [= <- <-]. lia. }
  destruct (Ascii.eqb c "f").
  { destruct (strip_prefix "alse" s) as [r'|] eqn:E; [|discriminate].
    apply strip_prefix_length in E. simpl. intros [= <- <-]. lia. }
  destruct (Ascii.eqb c "n").
  { destruct (strip_prefix "ull" s) as [r'|] eqn:E; [|discriminate].
    apply strip_prefix_length in E. simpl. intros [= <- <-]. lia. }
  destruct (scan_number (String c s)) as [[lit r']|] eqn:E; [|discriminate].
  apply scan_number_length in E. simpl. intros [= <- <-]. simpl in E. lia.
Qed.

Lemma elements_step_shrinks value elements :
  shrinks value → shrinks elements → shrinks (elements_step value elements).
Proof.
  intros Hv He d s vs r. unfold elements_step.
  destruct (value d s) as [[v r1]|] eqn:E1; [|discriminate]. apply Hv in E1.
  simpl. pose proof (skip_ws_length r1) as Hsk.
  destruct (skip_ws r1) as [|c r2]; [discriminate|]. simpl in Hsk.
  destruct (Ascii.eqb c ",").
  - pose proof (skip_ws_length r2) as Hsk2.
    destruct (elements d (skip_ws r2)) as [[vs' r3]|] eqn:E2; [|discriminate].
    apply He in E2. simpl. intros [= <- <-]. lia.
  - destruct (Ascii.eqb c "]"); [|discriminate]. intros [= <- <-]. lia.
Qed.

Lemma members_step_shrinks value members :
  shrinks value → shrinks members → shrinks (members_step value members).
Proof.
  intros Hv Hm d s ms r. unfold members_step.
  destruct s as [|q s]; [discriminate|].
  destruct (Ascii.eqb q dquote); [|discriminate].
  destruct (scan_string s) as [[k r1]|] eqn:E1; [|discriminate].
  apply scan_string_length in E1. simpl.
  pose proof (skip_ws_length r1) as Hsk1.
  destruct (skip_ws r1) as [|c r2]; [discriminate|]. simpl in Hsk1.
  destruct (Ascii.eqb c ":"); [|discriminate].
  pose proof (skip_ws_length r2) as Hsk2.
  destruct (value d (skip_ws r2)) as [[v r3]|] eqn:E2; [|discriminate].
  apply Hv in E2. simpl.
  pose proof (skip_ws_length r3) as Hsk3.
  destruct (skip_ws r3) as [|c' r4]; [discriminate|]. simpl in Hsk3.
  destruct (Ascii.eqb c' ",").
  - pose proof (skip_ws_length r4) as Hsk4.
    destruct (members d (skip_ws r4)) as [[ms' r5]|] eqn:E3; [|discriminate].
    apply Hm in E3. simpl. intros [= <- <-]. lia.
  - destruct (Ascii.eqb c' "}"); [|discriminate]. intros [= <- <-]. lia.
Qed.

Lemma parse_shrinks n :
  shrinks (parse_value n) ∧ shrinks (parse_elements n) ∧ shrinks (parse_members n).
Proof.
  induction n as [|n (IHv & IHe & IHm)].
  - repeat split; intros d s a r; discriminate.
  - split; [|split]; intros d s a r.
    + rewrite parse_value_S. now apply value_step_shrinks.
    + rewrite parse_elements_S. now apply elements_step_shrinks.
    + rewrite parse_members_S. now apply members_step_shrinks.
Qed.

Lemma value_step_agree e1 e2 m1 m2 d s :
  agree_below (String.length s) e1 e2 → agree_below (String.length s) m1 m2 →
  value_step e1 m1 d s = value_step e2 m2 d s.
Proof.
  intros He Hm. unfold value_step.
  destruct s as [|c s]; [reflexivity|].
  pose proof (skip_ws_length s) as Hsk.
  destruct (skip_ws s) as [|c' r'] eqn:E; [reflexivity|]. simpl in Hsk.
  rewrite (He (N.succ d) (String c' r')) by (simpl; lia).
  rewrite (Hm (N.succ d) (String c' r')) by (simpl; lia).
  reflexivity.
Qed.

Lemma elements_step_agree v1 v2 e1 e2 d s :
  shrinks v2 → v1 d s = v2 d s → agree_below (String.length s) e1 e2 →
  elements_step v1 e1 d s = elements_step v2 e2 d s.
Proof.
  intros Hsh Hv He. unfold elements_step. rewrite Hv.
  destruct (v2 d s) as [[v r1]|] eqn:E1; [|reflexivity]. apply Hsh in E1.
  simpl. pose proof (skip_ws_length r1) as Hsk.
  destruct (skip_ws r1) as [|c r2]; [reflexivity|]. simpl in Hsk.
  pose proof (skip_ws_length r2) as Hsk2.
  rewrite (He d (skip_ws r2)) by lia. reflexivity.
Qed.

Lemma members_step_agree v1 v2 m1 m2 d s :
  shrinks v2 → agree_below (String.length s) v1 v2 →
  agree_below (String.length s) m1 m2 →
  members_step v1 m1 d s = members_step v2 m2 d s.
Proof.
  intros Hsh Hv Hm. unfold members_step.
  destruct s as [|q s]; [reflexivity|].
  destruct (Ascii.eqb q dquote); [|reflexivity].
  destruct (scan_string s) as [[k r1]|] eqn:E1; [|reflexivity].
  apply scan_string_length in E1. simpl.
  pose proof (skip_ws_length r1) as Hsk1.
  destruct (skip_ws r1) as [|c r2]; [reflexivity|]. simpl in Hsk1.
  destruct (Ascii.eqb c ":"); [|reflexivity].
  pose proof (skip_ws_length r2) as Hsk2.
  rewrite (Hv d (skip_ws r2)) by (simpl; lia).
  destruct (v2 d (skip_ws r2)) as [[v r3]|] eqn:E2; [|reflexivity].
  apply Hsh in E2. simpl.
  pose proof (skip_ws_length r3) as Hsk3.
  destruct (skip_ws r3) as [|c' r4]; [reflexivity|]. simpl in Hsk3.
  pose proof (skip_ws_length r4) as Hsk4.
  rewrite (Hm d (skip_ws r4)) by (simpl; lia). reflexivity.
Qed.

Lemma fuel_irrelevant n : ∀ m,
  (∀ d s, (2 * String.length s < n)%nat → (2 * String.length s < m)%nat →
          parse_value n d s = parse_value m d s) ∧
  (∀ d s, (2 * String.length s + 1 < n)%nat → (2 * String.length s + 1 < m)%nat →
          parse_elements n d s = parse_elements m d s) ∧
  (∀ d s, (2 * String.length s + 1 < n)%nat → (2 * String.length s + 1 < m)%nat →
          parse_members n d s = parse_members m d s).
Proof.
  induction n as [|n IH]; intros m.
  { repeat split; intros; lia. }
  destruct m as [|m]; [repeat split; intros; lia|].
  destruct (IH m) as (IHv & IHe & IHm).
  destruct (parse_shrinks m) as (Sv & Se & Sm).
  split; [|split]; intros d s Hn Hm.
  - rewrite !parse_value_S. apply value_step_agree; intros d' s' Hs'.
    + apply IHe; lia.
    + apply IHm; lia.
  - rewrite !parse_elements_S. apply elements_step_agree.
    + exact Sv.
    + apply IHv; lia.
    + intros d' s' Hs'. apply IHe; lia.
  - rewrite !parse_members_S. apply members_step_agree.
    + exact Sv.
    + intros d' s' Hs'. apply IHv; lia.
    + intros d' s' Hs'. apply IHm; lia.
Qed.

(** More fuel than [fuel_for] changes nothing. *)
Lemma fuel_is_enough (data : string) (n : nat) (depth : N) :
  (fuel_for data ≤ n)%nat →
  parse_value n depth (skip_ws data) = parse_value (fuel_for data) depth (skip_ws data).
Proof.
  intros Hn. pose proof (skip_ws_length data) as Hsk. unfold fuel_for in *.
  apply fuel_irrelevant; lia.
Qed.

End JsonProofs.

(** ** The URLs of the two queries *)

Module UrlProofs.
Import Json JsonFacts JsonProofs UrlFacts.

Lemma inert_cons c r :
  inert (String c r) = true →
  Url.is_ctl c = false ∧ Ascii.eqb c "#" = false ∧ Ascii.eqb c "%" = false ∧
  inert r = true.
Proof.
  simpl. intros H. repeat (apply andb_true_iff in H as [H ?]).
  repeat split; try apply negb_true_iff; assumption.
Qed.

Lemma inert_app a b : inert a = true → inert b = true → inert (a +:+ b) = true.
Proof.
  intros Ha Hb. induction a as [|c a IH]; [exact Hb|].
  destruct (inert_cons c a Ha) as (H1 & H2 & H3 & H4).
  rewrite append_cons. simpl. rewrite H1, H2, H3. simpl. apply IH, H4.
Qed.

Lemma cut_inert s : inert s = true → Url.cut_fragment s = (s, EmptyString).
Proof.
  induction s as [|c s IH]; [reflexivity|]. intros H.
  destruct (inert_cons c s H) as (_ & H2 & _ & H4).
  simpl. rewrite H2, (IH H4). reflexivity.
Qed.

Lemma ctl_inert s : inert s = true → Url.stringContainsCTLByte s = false.
Proof.
  induction s as [|c s IH]; [reflexivity|]. intros H.
  destruct (inert_cons c s H) as (H1 & _ & _ & H4).
  simpl. rewrite H1, (IH H4). reflexivity.
Qed.

Lemma unescape_inert s : inert s = true → Url.unescape_ok s = true.
Proof.
  induction s as [|c s IH]; [reflexivity|]. intros H.
  destruct (inert_cons c s H) as (_ & _ & H3 & H4).
  simpl. rewrite H3. apply IH, H4.
Qed.

Lemma Parse_inert s : inert s = true → Url.Parse s = true.
Proof.
  intros H. unfold Url.Parse.
  rewrite (cut_inert s H), (ctl_inert s H). reflexivity.
Qed.

(** A character other than [#] in front. *)
Lemma Parse_cons c x :
  Ascii.eqb c "#" = false →
  Url.Parse (String c x) = negb (Url.is_ctl c) && Url.Parse x.
Proof.
  intros Hc. unfold Url.Parse. simpl. rewrite Hc.
  destruct (Url.cut_fragment x) as [u frag]. simpl.
  rewrite negb_orb, andb_assoc. reflexivity.
Qed.

(** What precedes the text of the request does not matter. *)
Lemma Parse_prefix p x : inert p = true → Url.Parse (p +:+ x) = Url.Parse x.
Proof.
  induction p as [|c p IH]; [reflexivity|]. intros H.
  destruct (inert_cons c p H) as (H1 & H2 & _ & H4).
  rewrite append_cons, Parse_cons by exact H2. rewrite H1. simpl. apply IH, H4.
Qed.

Lemma unescape_ok_cons c r :
  Url.unescape_ok (String c r)
  = if Ascii.eqb c "%" then
      match r with
      | String a (String b r') => Url.ishex a && Url.ishex b && Url.unescape_ok r'
      | _ => false
      end
    else Url.unescape_ok r.
Proof. reflexivity. Qed.

(** Nor does what follows it behind the [&]: an escape cannot reach
    over the [&]. *)
Lemma unescape_suffix_below n b s1 s2 :
  (String.length b ≤ n)%nat → inert s1 = true → inert s2 = true →
  Url.unescape_ok (b +:+ String "&" s1) = Url.unescape_ok (b +:+ String "&" s2).
Proof.
  intros Hn H1 H2. revert b Hn. induction n as [|n IH]; intros b Hn.
  - destruct b; [|simpl in Hn; lia].
    rewrite !append_nil_l, !unescape_ok_cons. simpl. now rewrite !unescape_inert.
  - destruct b as [|c b].
    { rewrite !append_nil_l, !unescape_ok_cons. simpl. now rewrite !unescape_inert. }
    rewrite !append_cons, !(unescape_ok_cons c). simpl in Hn.
    destruct (Ascii.eqb c "%") eqn:Hc; [|apply IH; lia].
    destruct b as [|a b].
    + rewrite !append_nil_l. destruct s1, s2; reflexivity.
    + rewrite !append_cons. destruct b as [|b' b].
      * rewrite !append_nil_l. now rewrite !andb_false_r.
      * rewrite !append_cons. f_equal. apply IH. simpl in Hn. lia.
Qed.

Lemma Parse_suffix id s1 s2 :
  inert s1 = true → inert s2 = true →
  Url.Parse (id +:+ String "&" s1) = Url.Parse (id +:+ String "&" s2).
Proof.
  intros H1 H2. induction id as [|c id IH].
  - rewrite !append_nil_l, !Parse_cons by reflexivity. now rewrite !Parse_inert.
  - rewrite !append_cons. destruct (Ascii.eqb c "#") eqn:Hc.
    + unfold Url.Parse. simpl. rewrite Hc. simpl.
      apply (unescape_suffix_below (String.length id)); auto.
    + rewrite !Parse_cons by exact Hc. now rewrite IH.
Qed.

Lemma digit_inert c :
  is_digit c = true →
  Url.is_ctl c = false ∧ Ascii.eqb c "#" = false ∧ Ascii.eqb c "%" = false.
Proof. each_char c; intros _; repeat split. Qed.

Lemma digits_inert s : all_digits s = true → inert s = true.
Proof.
  induction s as [|c s IH]; [reflexivity|]. simpl. intros H.
  apply andb_true_iff in H as [Hc H].
  destruct (digit_inert c Hc) as (-> & -> & ->). simpl. auto.
Qed.

Lemma FormatInt_inert z : inert (FormatInt z) = true.
Proof.
  destruct (FormatInt_shape z) as [-> | (sg & c & r & -> & Hsg & Hc & _ & Hr)];
    [reflexivity|].
  apply inert_app.
  - destruct Hsg as [-> | ->]; reflexivity.
  - apply digits_inert. simpl. now rewrite Hc, Hr.
Qed.

Lemma join_inert l : inert (join "," (FormatInt <$> l)) = true.
Proof.
  induction l as [|z l IH]; [reflexivity|].
  destruct l as [|y l]; [apply FormatInt_inert|].
  change (join "," (FormatInt <$> z :: y :: l))
    with (FormatInt z +:+ "," +:+ join "," (FormatInt <$> y :: l)).
  apply inert_app; [apply FormatInt_inert|]. apply inert_app; [reflexivity | exact IH].
Qed.

(** The availability query can be built whenever the query for the
    item can: the two URLs hold the same id between inert text. *)
Lemma NewRequest_tikect id ns :
  NewRequest (tikect_url id ns) = NewRequest (rifa_url id).
Proof.
  unfold NewRequest, tikect_url, rifa_url.
  rewrite (Parse_prefix "/rest/v1/tikect?rifa_id=eq."), (Parse_prefix "/rest/v1/rifa?id=eq.")
    by reflexivity.
  change "&number=in.(" with (String "&" "number=in.(").
  rewrite append_cons.
  change "&select=id,price,title" with (String "&" "select=id,price,title").
  apply Parse_suffix; [|reflexivity].
  apply inert_app; [reflexivity|]. apply inert_app; [apply join_inert | reflexivity].
Qed.

End UrlProofs.

(** ** The handlers, case by case *)

Module HandlerFacts.

Ltac unfold_handlers :=
  unfold handle, MainGoServer.webhook, MainGoServer.create_intent,
         ApplePayServer.webhook, ApplePayServer.create_intent, serve, fresh,
         MainGo.HandleStripeWebhook, ApplePay.HandleStripeWebhook,
         MainGo.CreatePaymentIntent, ApplePay.CreatePaymentIntent,
         MainGo.registrarTickets, ApplePay.registrarTickets,
         MainGo.validarNumeros, getRifa, stripe_New, http_Do,
         MainGo.MaxBodyBytes, ApplePay.MaxBodyBytes,
         log_Printf, record, WriteHeader, http_Error, on_writer, go, return_, panic,
         mbind, M_bind, mret, M_ret.

Section WithCollaborators.

Context {S B : Type} (ext : External S B).

Lemma webhook_unverified v r s e :
  webhook_ConstructEvent ext (ReqBody r) (Stripe_Signature r)
    (Getenv ext "STRIPE_WEBHOOK_SECRET") = Err e →
  let a := handle ext (Webhook v r) s in
  response a = Some 400 ∧ store_after a = s ∧ background a = [] ∧
  Forall (λ c, is_log c = true) (calls a).
Proof.
  intros He. destruct v; unfold_handlers; case_bool_decide; simpl;
    rewrite ?He; simpl; repeat split; repeat constructor.
Qed.

Lemma webhook_verified_main_go r s pi :
  verified_succeeded_any ext r pi →
  let a := MainGoServer.webhook ext r s in
  let d := Do ext (POST_tikect (rows_of pi)) s in
  response a = Some 200 ∧ store_after a = d.1 ∧
  inserts_sent (calls a) = [rows_of pi] ∧
  mails_sent (background a) = (if accepted d.2 then [mail_of main_go pi] else []).
Proof.
  intros (Hsz & ev & Hev & Hty & Hpi). unfold_handlers.
  rewrite bool_decide_eq_false_2 by lia. rewrite Hev.
  rewrite bool_decide_eq_true_2 by exact Hty. rewrite Hpi. simpl.
  fold (numeros_of pi). fold (rows_of pi).
  destruct (Do ext (POST_tikect (rows_of pi)) s) as [s' [err|resp]] eqn:Ed; simpl.
  - repeat split; try done.
  - unfold MainGo.go_func, MainGo.enviarCorreoConfirmacion. repeat case_bool_decide; try lia; simpl;
      repeat split; try done.
    destruct (Emails_Send ext _); reflexivity.
Qed.

Lemma webhook_verified_apple_pay r s pi :
  verified_succeeded ext r pi →
  let a := ApplePayServer.webhook ext r s in
  let d := Do ext (POST_tikect (rows_of pi)) s in
  response a = Some (if accepted d.2 then 200 else 500) ∧ store_after a = d.1 ∧
  inserts_sent (calls a) = [rows_of pi] ∧
  mails_sent (background a) = (if accepted d.2 then [mail_of apple_pay pi] else []) ∧
  (accepted d.2 = false → background a = []).
Proof.
  intros (Hsz & ev & Hev & Hty & Hpi). unfold_handlers. simpl.
  rewrite bool_decide_eq_false_2 by lia. rewrite Hev.
  rewrite bool_decide_eq_true_2 by exact Hty. rewrite Hpi. simpl.
  fold (numeros_of pi). fold (rows_of pi).
  destruct (Do ext (POST_tikect (rows_of pi)) s) as [s' [err|resp]] eqn:Ed; simpl.
  - repeat split; try done.
  - unfold ApplePay.go_func, ApplePay.enviarCorreoConfirmacion. repeat case_bool_decide; try lia; simpl;
      repeat split; try done.
    destruct (Emails_Send ext _); reflexivity.
Qed.

(** Whatever the request, a webhook delivery either leaves the store
    alone or is a verified succeeded event whose rows were posted. *)
Lemma webhook_store v r :
  (∀ s, let a := handle ext (Webhook v r) s in
        store_after a = s ∧ inserts_sent (calls a) = [] ∧ background a = [])
  ∨ ∃ pi, verified_succeeded_any ext r pi ∧ (v = apple_pay → verified_succeeded ext r pi).
Proof.
  destruct (decide (Z.of_nat (String.length (ReqBody r)) ≤ 65536)) as [Hsz|Hsz].
  2: { left. intros s. destruct v; unfold_handlers; simpl;
       rewrite bool_decide_eq_true_2 by lia; simpl; done. }
  destruct (webhook_ConstructEvent ext (ReqBody r) (Stripe_Signature r)
              (Getenv ext "STRIPE_WEBHOOK_SECRET")) as [ev|e] eqn:Hev.
  2: { left. intros s. destruct (webhook_unverified v r s e Hev) as (_ & ? & ? & Hl).
       repeat split; try done.
       revert Hl. generalize (calls (handle ext (Webhook v r) s)).
       induction 1 as [|c l Hc _ IH]; [done|]. destruct c; try done. }
  destruct (decide (Type_ ev = "payment_intent.succeeded")) as [Hty|Hty].
  2: { left. intros s. destruct v; unfold_handlers; simpl;
       rewrite bool_decide_eq_false_2 by lia; rewrite Hev;
       rewrite bool_decide_eq_false_2 by exact Hty; simpl; done. }
  destruct (Unmarshal_PaymentIntent ext (Data_Raw ev)) as [pi [e|]] eqn:Hpi.
  - destruct v.
    + right. exists pi. split; [|done]. split; [done|]. exists ev. rewrite Hpi. done.
    + left. intros s. unfold_handlers; simpl.
      rewrite bool_decide_eq_false_2 by lia. rewrite Hev.
      rewrite bool_decide_eq_true_2 by exact Hty. rewrite Hpi. simpl. done.
  - right. exists pi. split; [split; [done|]; exists ev; rewrite Hpi; done|].
    intros _. split; [done|]. exists ev. done.
Qed.

(** The handlers never consult the mail service. *)
Lemma handler_ignores_Send send v r :
  (match v with
   | main_go => MainGo.HandleStripeWebhook (with_Send ext send) r
   | apple_pay => ApplePay.HandleStripeWebhook (with_Send ext send) r
   end) =
  (match v with
   | main_go => MainGo.HandleStripeWebhook ext r
   | apple_pay => ApplePay.HandleStripeWebhook ext r
   end).
Proof. destruct v; reflexivity. Qed.

Lemma go_func_calls v t :
  let c := match v with
           | main_go => MainGo.go_func ext t
           | apple_pay => ApplePay.go_func ext t
           end in
  Forall (λ c, is_send_call c || is_log c = true) c ∧
  mails_sent c = [match v with
                  | main_go => MainGo.correo_params
                  | apple_pay => ApplePay.correo_params
                  end (task_userEmail t) (task_rifaTitle t) (task_numeros t)].
Proof.
  destruct v; unfold MainGo.go_func, ApplePay.go_func,
    MainGo.enviarCorreoConfirmacion, ApplePay.enviarCorreoConfirmacion; simpl;
    destruct (Emails_Send ext _); simpl; split; repeat constructor.
Qed.

Lemma background_calls v r s :
  Forall (λ c, is_send_call c || is_log c = true)
    (background (handle ext (Webhook v r) s)).
Proof.
  destruct v; unfold handle, MainGoServer.webhook, ApplePayServer.webhook, serve;
    match goal with |- context [?h (fresh s)] => destruct (h (fresh s)) as [res st] end;
    cbn [background]; induction (spawned st) as [|t l IH];
    [ constructor | | constructor | ];
    rewrite fmap_cons; cbn [concat]; apply Forall_app; (split; [|exact IH]).
  - apply (go_func_calls main_go t).
  - apply (go_func_calls apple_pay t).
Qed.

Lemma webhook_with_Send send1 send2 v r s :
  let a := handle (with_Send ext send1) (Webhook v r) s in
  let b := handle (with_Send ext send2) (Webhook v r) s in
  response a = response b ∧ store_after a = store_after b ∧ calls a = calls b ∧
  mails_sent (background a) = mails_sent (background b).
Proof.
  pose proof (handler_ignores_Send send1 v r) as H1.
  pose proof (handler_ignores_Send send2 v r) as H2.
  destruct v; unfold handle, MainGoServer.webhook, ApplePayServer.webhook, serve;
    rewrite H1, H2;
    match goal with |- context [?h (fresh s)] => destruct (h (fresh s)) as [res st] end;
    cbn [response store_after calls background]; repeat split;
    induction (spawned st) as [|t l IH]; try reflexivity;
    rewrite !fmap_cons; cbn [concat];
    unfold mails_sent in *; rewrite !omap_app, IH; f_equal.
  - unfold MainGo.go_func, MainGo.enviarCorreoConfirmacion; simpl.
    destruct (send1 _), (send2 _); reflexivity.
  - unfold ApplePay.go_func, ApplePay.enviarCorreoConfirmacion; simpl.
    destruct (send1 _), (send2 _); reflexivity.
Qed.

(** *** Properties of the store that every request keeps *)

Section Preservation.

Context (P : S → Prop).

Lemma preserves_ret {A} (a : A) : preserves P (mret a : M S A).
Proof. intros st H. exact H. Qed.

Lemma preserves_bind {A A'} (m : M S A) (f : A → M S A') :
  preserves P m → (∀ a, preserves P (f a)) → preserves P (m ≫= f).
Proof.
  intros Hm Hf st H. specialize (Hm st H).
  unfold mbind, M_bind. destruct (m st) as [[a| |] st']; simpl in *; auto.
  apply Hf, Hm.
Qed.

Lemma preserves_record c : preserves P (record c : M S ()).
Proof. intros st H. exact H. Qed.

Lemma preserves_on_writer f : preserves P (on_writer f : M S ()).
Proof. intros st H. exact H. Qed.

Lemma preserves_go t : preserves P (go t : M S ()).
Proof. intros st H. exact H. Qed.

Lemma preserves_return {A} : preserves P (return_ : M S A).
Proof. intros st H. exact H. Qed.

Lemma preserves_panic {A} : preserves P (panic : M S A).
Proof. intros st H. exact H. Qed.

Hypothesis Do_keeps : ∀ req s, P s → P (Do ext req s).1.

Lemma preserves_http_Do req : preserves P (http_Do ext req).
Proof.
  intros st H. unfold http_Do. specialize (Do_keeps req _ H).
  destruct (Do ext req (store st)) as [s' r]. exact Do_keeps.
Qed.

Ltac keeps :=
  unfold log_Printf, WriteHeader, http_Error, stripe_New; cbv zeta;
  repeat first
    [ apply preserves_ret | apply preserves_record | apply preserves_on_writer
    | apply preserves_go | apply preserves_return | apply preserves_panic
    | apply preserves_http_Do
    | apply preserves_bind; [|intros ?]
    | match goal with
      | |- preserves _ (match ?x with _ => _ end) => destruct x
      end ].

Lemma preserves_getRifa id : preserves P (getRifa ext id).
Proof. unfold getRifa. keeps. Qed.

Lemma preserves_handlers v r :
  preserves P (match v with
               | main_go => MainGo.CreatePaymentIntent ext r
               | apple_pay => ApplePay.CreatePaymentIntent ext r
               end) ∧
  preserves P (match v with
               | main_go => MainGo.HandleStripeWebhook ext r
               | apple_pay => ApplePay.HandleStripeWebhook ext r
               end).
Proof.
  pose proof preserves_getRifa.
  destruct v; split;
    unfold MainGo.CreatePaymentIntent, ApplePay.CreatePaymentIntent,
           MainGo.HandleStripeWebhook, ApplePay.HandleStripeWebhook,
           MainGo.validarNumeros, MainGo.registrarTickets, ApplePay.registrarTickets;
    keeps; auto.
Qed.

Lemma handle_keeps i s : P s → P (store_after (handle ext i s)).
Proof.
  intros H.
  destruct i as [v r|v r]; destruct (preserves_handlers v r) as [Hc Hw];
    [ specialize (Hc (fresh s) H); clear Hw | specialize (Hw (fresh s) H); clear Hc ];
    destruct v; unfold handle, MainGoServer.create_intent, MainGoServer.webhook,
      ApplePayServer.create_intent, ApplePayServer.webhook, serve;
    match goal with
    | |- context [?h (fresh s)] => destruct (h (fresh s)) as [res st]
    end; assumption.
Qed.

Lemma run_keeps l : ∀ s, P s → P (run ext l s).
Proof.
  induction l as [|i l IH]; intros s H; [exact H|].
  apply IH, handle_keeps, H.
Qed.

End Preservation.

(** *** CreatePaymentIntent *)

Lemma create_intent_intents v r s p :
  p ∈ intents_sent (calls (handle ext (CreateIntent v r) s)) →
  ∃ req rifa,
    Decode_PaymentRequest ext (ReqBody r) = Ok req ∧
    found ext (RifaID req) s rifa ∧
    p = params_of v rifa req.
Proof.
  destruct v; unfold_handlers; simpl;
    destruct (Decode_PaymentRequest ext (ReqBody r)) as [req|e] eqn:Hreq; simpl;
    try (intros H; apply elem_of_nil in H; contradiction);
    rewrite ?UrlProofs.NewRequest_tikect;
    destruct (NewRequest (rifa_url (RifaID req))) eqn:Hb; simpl;
    try (intros H; apply elem_of_nil in H; contradiction);
    destruct (Do ext (GET_rifa (RifaID req)) s) as [s1 [e|resp]] eqn:Hdo; simpl;
    try (intros H; apply elem_of_nil in H; contradiction);
    case_bool_decide as Hst; simpl;
    try (intros H; apply elem_of_nil in H; contradiction);
    destruct (Decode_Rifas ext (Body resp)) as [|rifa rest] eqn:Hrifas; simpl;
    try (intros H; apply elem_of_nil in H; contradiction).
  - destruct (Do ext (GET_tikect _ _) s1) as [s2 [e|resp2]]; simpl;
      try (intros H; apply elem_of_nil in H; contradiction).
    case_bool_decide as Hcount; simpl;
      try (intros H; apply elem_of_nil in H; contradiction).
    intros H. exists req, rifa. split; [done|]. split.
    + split; [exact Hb|]. exists resp, rest. rewrite Hdo. split; [done|]. split; [|done].
      destruct (decide (StatusCode resp = 200)); [done | contradiction].
    + destruct (paymentintent_New ext _); simpl in H;
        apply list_elem_of_singleton in H; exact H.
  - intros H. exists req, rifa. split; [done|]. split.
    + split; [exact Hb|]. exists resp, rest. rewrite Hdo. split; [done|]. split; [|done].
      destruct (decide (StatusCode resp = 200)); [done | contradiction].
    + destruct (paymentintent_New ext _); simpl in H;
        apply list_elem_of_singleton in H; exact H.
Qed.

(** The apple-pay version: once the item is found the intent is
    asked for, and the tickets of the store are never consulted. *)
Lemma create_intent_apple_pay r s req rifa :
  Decode_PaymentRequest ext (ReqBody r) = Ok req →
  found ext (RifaID req) s rifa →
  let a := ApplePayServer.create_intent ext r s in
  intents_sent (calls a) = [params_of apple_pay rifa req] ∧
  Forall (λ c, is_availability_query c = false) (calls a) ∧
  response a = Some (match paymentintent_New ext (params_of apple_pay rifa req) with
                     | Ok _ => 200 | Err _ => 500 end).
Proof.
  intros Hreq (Hb & resp & rest & Hdo & Hst & Hrifas). unfold_handlers. simpl.
  rewrite Hreq. simpl. rewrite Hb. simpl.
  destruct (Do ext (GET_rifa (RifaID req)) s) as [s1 r1]. simpl in Hdo. subst r1.
  simpl. rewrite bool_decide_eq_false_2 by (rewrite Hst; auto).
  rewrite Hrifas. simpl. fold (params_of apple_pay rifa req).
  destruct (paymentintent_New ext (params_of apple_pay rifa req)); simpl;
    repeat split; repeat constructor.
Qed.

(** main.go: the availability query decides. *)
Lemma create_intent_main_go r s req rifa :
  Decode_PaymentRequest ext (ReqBody r) = Ok req →
  found ext (RifaID req) s rifa →
  let s1 := (Do ext (GET_rifa (RifaID req)) s).1 in
  let q := (Do ext (GET_tikect (RifaID req) (elems (Numeros req))) s1).2 in
  let a := MainGoServer.create_intent ext r s in
  match q with
  | DoErr _ => response a = None ∧ intents_sent (calls a) = []
  | DoResp resp =>
      if bool_decide (0 < Decode_count ext (Body resp))%nat
      then response a = Some 409 ∧ intents_sent (calls a) = []
      else intents_sent (calls a) = [params_of main_go rifa req] ∧
           response a = Some (match paymentintent_New ext (params_of main_go rifa req) with
                              | Ok _ => 200 | Err _ => 500 end)
  end.
Proof.
  intros Hreq (Hb & resp & rest & Hdo & Hst & Hrifas). unfold_handlers. simpl.
  rewrite Hreq. simpl. rewrite UrlProofs.NewRequest_tikect, Hb. simpl.
  destruct (Do ext (GET_rifa (RifaID req)) s) as [s1 r1]. simpl in Hdo. subst r1.
  simpl. rewrite bool_decide_eq_false_2 by (rewrite Hst; auto).
  rewrite Hrifas. simpl.
  destruct (Do ext (GET_tikect _ _) s1) as [s2 [e|resp2]]; simpl; [done|].
  case_bool_decide; simpl; [done|].
  fold (params_of main_go rifa req).
  destruct (paymentintent_New ext (params_of main_go rifa req)); simpl; done.
Qed.

(** main.go, with a store that answers the availability query: a
    request that overlaps an existing ticket is answered 409 and no
    intent is asked for. *)
Lemma main_go_conflict_is_409 (rows : S → list Ticket) r s req rifa :
  AnswersAvailability rows ext →
  (∀ id s, rows (Do ext (GET_rifa id) s).1 = rows s) →
  Decode_PaymentRequest ext (ReqBody r) = Ok req →
  found ext (RifaID req) s rifa →
  taken (RifaID req) (elems (Numeros req)) (rows s) ≠ [] →
  let a := MainGoServer.create_intent ext r s in
  response a = Some 409 ∧ intents_sent (calls a) = [].
Proof.
  intros Hq Hread Hreq Hf Ht.
  pose proof (create_intent_main_go r s req rifa Hreq Hf) as H. cbv zeta in H.
  destruct (Hq (RifaID req) (elems (Numeros req)) (Do ext (GET_rifa (RifaID req)) s).1)
    as (resp & Hresp & Hcount).
  rewrite Hresp, Hcount, Hread in H.
  rewrite bool_decide_eq_true_2 in H; [exact H|].
  destruct (taken _ _ _); [contradiction | simpl; lia].
Qed.

Lemma montoTotal_exact rifa req :
  Int64.in_range (Price rifa * len (Numeros req) * 100) = true →
  montoTotal rifa req = Price rifa * len (Numeros req) * 100.
Proof.
  unfold montoTotal, Int64.mul, Int64.wrap64, Int64.in_range, Int64.min, Int64.max.
  intros H. apply andb_true_iff in H as [H1 H2].
  apply Z.leb_le in H1, H2.
  set (a := Price rifa * len (Numeros req)) in *.
  rewrite (Z.mod_small (a + 2 ^ 63)) by lia.
  replace (a + 2 ^ 63 - 2 ^ 63) with a by lia.
  rewrite Z.mod_small by lia. lia.
Qed.

Lemma verified_any r pi : verified_succeeded ext r pi → verified_succeeded_any ext r pi.
Proof.
  intros (Hsz & ev & Hev & Hty & Hpi). split; [done|]. exists ev. now rewrite Hpi.
Qed.

Lemma mails_imply_200 v r s :
  mails_sent (background (handle ext (Webhook v r) s)) ≠ [] →
  response (handle ext (Webhook v r) s) = Some 200.
Proof.
  intros Hm. destruct (webhook_store v r) as [Hun | (pi & Hany & Hap)].
  - destruct (Hun s) as (_ & _ & Hb). rewrite Hb in Hm. done.
  - destruct v.
    + apply (webhook_verified_main_go r s pi Hany).
    + destruct (webhook_verified_apple_pay r s pi (Hap eq_refl)) as (Hr & _ & _ & Hmail & _).
      unfold handle in *. rewrite Hr. rewrite Hmail in Hm.
      destruct (accepted _); done.
Qed.

Lemma invalid_numeros pi :
  PI_Metadata pi !! "numeros" = None
  ∨ Json.Valid (lookup_str (PI_Metadata pi) "numeros") = false →
  Json.Unmarshal_ints (lookup_str (PI_Metadata pi) "numeros") None
  = (None, Some Json.SyntaxError).
Proof.
  intros [Habs | Hinv].
  - unfold lookup_str. rewrite Habs. reflexivity.
  - unfold Json.Valid in Hinv. unfold Json.Unmarshal_ints.
    destruct (Json.parse _); [discriminate | reflexivity].
Qed.

Lemma amounts_intents l : amounts_sent l = Amount <$> intents_sent l.
Proof.
  induction l as [|c l IH]; [reflexivity|].
  destruct c;
    change (amounts_sent (?c :: l)) with
      (match (match c with CallStripe p => Some (Amount p) | _ => None end) with
       | Some a => a :: amounts_sent l | None => amounts_sent l end);
    change (intents_sent (?c :: l)) with
      (match (match c with CallStripe p => Some p | _ => None end) with
       | Some a => a :: intents_sent l | None => intents_sent l end);
    cbv iota beta; rewrite IH; reflexivity.
Qed.

Lemma lookup_numeros rifa req :
  lookup_str (intent_Metadata rifa req) "numeros" = toString (Numeros req).
Proof. reflexivity. Qed.

(** A delivery either leaves the store alone or posts the rows of its
    event, wherever it starts. *)
Lemma delivery_rows v r :
  (∀ s, store_after (handle ext (Webhook v r) s) = s)
  ∨ ∃ pi, verified_succeeded_any ext r pi ∧
      ∀ s, let a := handle ext (Webhook v r) s in
           let d := Do ext (POST_tikect (rows_of pi)) s in
           store_after a = d.1 ∧
           (v = apple_pay → response a = Some (if accepted d.2 then 200 else 500)).
Proof.
  destruct (webhook_store v r) as [Hun | (pi & Hany & Hap)].
  - left. intros s. apply (Hun s).
  - right. exists pi. split; [done|]. intros s. destruct v.
    + split; [|done]. apply (webhook_verified_main_go r s pi Hany).
    + destruct (webhook_verified_apple_pay r s pi (Hap eq_refl)) as (Hr & Hs & _).
      done.
Qed.

(** *** Consequences of the uniqueness constraint *)

Section Unique.

Context (rows : S → list Ticket) (HU : UniqueStore rows ext).

Lemma unique_Do_keeps req s :
  NoDup (key <$> rows s) → NoDup (key <$> rows (Do ext req s).1).
Proof.
  intros H. destruct req as [id|rid ns|p].
  - now rewrite (read_rifa _ _ HU).
  - now rewrite (read_tikect _ _ HU).
  - destruct (accepted (Do ext (POST_tikect p) s).2) eqn:Ha.
    + destruct (post_accepted _ _ HU p s Ha) as [-> Hn]. exact Hn.
    + now rewrite (post_rejected _ _ HU p s Ha).
Qed.

Lemma conflict_rejected p s t :
  t ∈ rows s → key t ∈ key <$> p → accepted (Do ext (POST_tikect p) s).2 = false.
Proof.
  intros Ht Hk. destruct (accepted (Do ext (POST_tikect p) s).2) eqn:Ha; [|done].
  destruct (post_accepted _ _ HU p s Ha) as [_ Hn].
  rewrite fmap_app in Hn. apply NoDup_app in Hn as (_ & Hdis & _).
  exfalso. apply (Hdis (key t)); [|exact Hk].
  apply list_elem_of_fmap. eauto.
Qed.

Lemma repost_rejected p s :
  p ≠ [] → accepted (Do ext (POST_tikect p) s).2 = true →
  accepted (Do ext (POST_tikect p) (Do ext (POST_tikect p) s).1).2 = false.
Proof.
  intros Hp Ha. destruct p as [|t p]; [done|].
  destruct (post_accepted _ _ HU _ s Ha) as [Hr _].
  apply (conflict_rejected _ _ t).
  - rewrite Hr. apply elem_of_app. right. left.
  - rewrite fmap_cons. left.
Qed.

Lemma post_rows p s :
  rows (Do ext (POST_tikect p) s).1 =
  if accepted (Do ext (POST_tikect p) s).2 then rows s ++ p else rows s.
Proof.
  destruct (accepted (Do ext (POST_tikect p) s).2) eqn:Ha.
  - apply (post_accepted _ _ HU p s Ha).
  - apply (post_rejected _ _ HU p s Ha).
Qed.

Lemma loser_rejected_rows p s t :
  t ∈ rows s → key t ∈ key <$> p →
  accepted (Do ext (POST_tikect p) s).2 = false ∧
  rows (Do ext (POST_tikect p) s).1 = rows s.
Proof.
  intros Ht Hk. pose proof (conflict_rejected p s t Ht Hk) as Ha.
  split; [exact Ha|]. apply (post_rejected _ _ HU p s Ha).
Qed.

End Unique.

End WithCollaborators.
End HandlerFacts.

(** ** Deliveries and sequences of requests *)

Module DeliveryFacts.
Import HandlerFacts.
Section WithCollaborators.
Context {S B : Type} (ext : External S B).

(** A delivery that is no verified succeeded event (decoded, for the
    apple-pay version) is answered 200 or 400 and reaches nothing. *)
Lemma webhook_cases v r :
  (∀ s, let a := handle ext (Webhook v r) s in
        (response a = Some 200 ∨ response a = Some 400) ∧ store_after a = s ∧
        outside_calls (calls a) = [] ∧ background a = [])
  ∨ ∃ pi, verified_succeeded_any ext r pi ∧ (v = apple_pay → verified_succeeded ext r pi).
Proof.
  destruct (decide (Z.of_nat (String.length (ReqBody r)) ≤ 65536)) as [Hsz|Hsz].
  2: { left. intros s. destruct v; unfold_handlers; simpl;
       rewrite bool_decide_eq_true_2 by lia; simpl; repeat split; auto. }
  destruct (webhook_ConstructEvent ext (ReqBody r) (Stripe_Signature r)
              (Getenv ext "STRIPE_WEBHOOK_SECRET")) as [ev|e] eqn:Hev.
  2: { left. intros s. destruct v; unfold_handlers; simpl;
       rewrite bool_decide_eq_false_2 by lia; rewrite Hev; simpl; repeat split; auto. }
  destruct (decide (Type_ ev = "payment_intent.succeeded")) as [Hty|Hty].
  2: { left. intros s. destruct v; unfold_handlers; simpl;
       rewrite bool_decide_eq_false_2 by lia; rewrite Hev;
       rewrite bool_decide_eq_false_2 by exact Hty; simpl; repeat split; auto. }
  destruct (Unmarshal_PaymentIntent ext (Data_Raw ev)) as [pi [e|]] eqn:Hpi.
  - destruct v.
    + right. exists pi. split; [|done]. split; [done|]. exists ev. rewrite Hpi. done.
    + left. intros s. unfold_handlers; simpl.
      rewrite bool_decide_eq_false_2 by lia. rewrite Hev.
      rewrite bool_decide_eq_true_2 by exact Hty. rewrite Hpi. simpl. repeat split; auto.
  - right. exists pi. split; [split; [done|]; exists ev; rewrite Hpi; done|].
    intros _. split; [done|]. exists ev. done.
Qed.

(** The calls of a verified succeeded event: one insert, and one
    goroutine when the store accepted it. *)
Lemma webhook_verified_calls v r s pi :
  verified_succeeded_any ext r pi →
  (v = apple_pay → verified_succeeded ext r pi) →
  let a := handle ext (Webhook v r) s in
  let d := Do ext (POST_tikect (rows_of pi)) s in
  outside_calls (calls a) = [CallDo (POST_tikect (rows_of pi))] ∧
  store_after a = d.1 ∧
  response a = Some (if accepted d.2 then 200
                     else match v with main_go => 200 | apple_pay => 500 end) ∧
  mails_sent (background a) = (if accepted d.2 then [mail_of v pi] else []).
Proof.
  intros Hany Hap. destruct v.
  - clear Hap. destruct Hany as (Hsz & ev & Hev & Hty & Hpi). unfold_handlers.
    rewrite bool_decide_eq_false_2 by lia. rewrite Hev.
    rewrite bool_decide_eq_true_2 by exact Hty. rewrite Hpi. simpl.
    fold (numeros_of pi). fold (rows_of pi).
    destruct (Do ext (POST_tikect (rows_of pi)) s) as [s' [err|resp]] eqn:Ed; simpl.
    + repeat split; try done.
    + unfold MainGo.go_func, MainGo.enviarCorreoConfirmacion.
      repeat case_bool_decide; try lia; simpl; repeat split; try done.
      destruct (Emails_Send ext _); reflexivity.
  - clear Hany. destruct (Hap eq_refl) as (Hsz & ev & Hev & Hty & Hpi).
    unfold_handlers. simpl.
    rewrite bool_decide_eq_false_2 by lia. rewrite Hev.
    rewrite bool_decide_eq_true_2 by exact Hty. rewrite Hpi. simpl.
    fold (numeros_of pi). fold (rows_of pi).
    destruct (Do ext (POST_tikect (rows_of pi)) s) as [s' [err|resp]] eqn:Ed; simpl.
    + repeat split; try done.
    + unfold ApplePay.go_func, ApplePay.enviarCorreoConfirmacion.
      repeat case_bool_decide; try lia; simpl; repeat split; try done.
      destruct (Emails_Send ext _); reflexivity.
Qed.

(** The numbers decoded from any text are Go ints. *)
Lemma ParseInt_in_range lit z : Json.ParseInt lit = Some z → Int64.in_range z = true.
Proof.
  unfold Json.ParseInt.
  destruct (match lit with
            | String c r => if Ascii.eqb c "-" then (true, r)
                            else if Ascii.eqb c "+" then (false, r) else (false, lit)
            | EmptyString => (false, lit)
            end) as [neg ds].
  destruct ds as [|c ds]; [discriminate|].
  destruct (NilEmpty.uint_of_string (String c ds)) as [u|]; [|discriminate].
  simpl. destruct (Int64.in_range (if neg then - Z.of_uint u else Z.of_uint u)) eqn:E;
    [|discriminate].
  intros [= <-]. exact E.
Qed.

Lemma decode_int_in_range j : Int64.in_range (Json.decode_int j).1 = true.
Proof.
  destruct j; try reflexivity. simpl.
  destruct (Json.ParseInt lit) as [z|] eqn:E; [|reflexivity].
  exact (ParseInt_in_range lit z E).
Qed.

Lemma Unmarshal_ints_in_range data :
  Forall (λ z, Int64.in_range z = true) (elems (Json.Unmarshal_ints data None).1).
Proof.
  unfold Json.Unmarshal_ints. destruct (Json.parse data) as [[]|]; simpl; try constructor.
  rewrite <- list_fmap_compose. apply Forall_fmap, Forall_forall. intros j _.
  apply decode_int_in_range.
Qed.

End WithCollaborators.
End DeliveryFacts.

Module SequenceFacts.
Import HandlerFacts.
Section WithCollaborators.
Context {S B : Type} (ext : External S B) (rows : S → list Ticket).
Context (Hrifa : ∀ id s, rows (Do ext (GET_rifa id) s).1 = rows s).
Context (Htikect : ∀ rid ns s, rows (Do ext (GET_tikect rid ns) s).1 = rows s).

(** The queries of CreatePaymentIntent leave the tickets alone. *)
Lemma create_intent_keeps_rows v r s :
  rows (store_after (handle ext (CreateIntent v r) s)) = rows s.
Proof.
  destruct v; unfold_handlers; simpl;
    (destruct (Decode_PaymentRequest ext (ReqBody r)) as [req|e]; simpl; [|reflexivity]);
    rewrite ?UrlProofs.NewRequest_tikect;
    (destruct (NewRequest (rifa_url (RifaID req))); simpl; [|reflexivity]);
    pose proof (Hrifa (RifaID req) s) as Hr1;
    destruct (Do ext (GET_rifa (RifaID req)) s) as [s1 [e|resp]]; simpl in *;
    try exact Hr1;
    (case_bool_decide as Hst; simpl; [exact Hr1|]);
    (destruct (Decode_Rifas ext (Body resp)) as [|rifa rest]; simpl; [exact Hr1|]).
  - pose proof (Htikect (RifaID req) (elems (Numeros req)) s1) as Ht1.
    destruct (Do ext (GET_tikect _ _) s1) as [s2 [e|resp2]]; simpl in *;
      rewrite <- Hr1, <- Ht1; [reflexivity|].
    case_bool_decide; simpl; [reflexivity|].
    destruct (paymentintent_New ext _); reflexivity.
  - destruct (paymentintent_New ext _); exact Hr1.
Qed.

End WithCollaborators.
End SequenceFacts.

(** ** The commit and the store *)

Module CommitFacts.
Import HandlerFacts DeliveryFacts Fixture.
Section WithStore.
Context {S B : Type} (ext : External S B) (rows : S → list Ticket).
Context (HK : KeepsUnique rows ext).

Lemma keeps_Do_unique req s :
  NoDup (key <$> rows s) → NoDup (key <$> rows (Do ext req s).1).
Proof.
  intros H. destruct req as [id|rid ns|p].
  - now rewrite (query_rifa _ _ HK).
  - now rewrite (query_tikect _ _ HK).
  - destruct (insert_grants _ _ HK p s) as (g & _ & -> & Hn). auto.
Qed.

(** What a delivery does to the store: nothing, or the one insert of
    the rows of its verified event. *)
Lemma delivery_store v r s :
  let a := handle ext (Webhook v r) s in
  (inserts_sent (calls a) = [] ∧ filter (λ c, is_store_call c = true) (calls a) = [] ∧
   store_after a = s)
  ∨ ∃ pi, verified_succeeded_any ext r pi ∧
          inserts_sent (calls a) = [rows_of pi] ∧
          filter (λ c, is_store_call c = true) (calls a) = [CallDo (POST_tikect (rows_of pi))] ∧
          store_after a = (Do ext (POST_tikect (rows_of pi)) s).1.
Proof.
  assert (Hins : ∀ l, inserts_sent l = inserts_sent (outside_calls l)).
  { intros l. induction l as [|c l IH]; [reflexivity|].
    destruct c as [[]| | |]; unfold outside_calls in *; simpl;
      rewrite ?filter_cons_True by reflexivity;
      rewrite ?filter_cons_False by (simpl; congruence);
      unfold inserts_sent in *; simpl; rewrite ?IH; reflexivity. }
  assert (Hst : ∀ l, filter (λ c, is_store_call c = true) l
                     = filter (λ c, is_store_call c = true) (outside_calls l)).
  { intros l. induction l as [|c l IH]; [reflexivity|].
    destruct c as [[]| | |]; unfold outside_calls in *; simpl;
      rewrite ?filter_cons_True by reflexivity;
      rewrite ?filter_cons_False by (simpl; congruence);
      rewrite ?filter_cons_True by reflexivity;
      rewrite ?filter_cons_False by (simpl; congruence);
      rewrite ?IH; reflexivity. }
  destruct (webhook_cases ext v r) as [Hun | (pi & Hany & Hap)].
  - left. destruct (Hun s) as (_ & Hs & Hc & _). cbv zeta.
    rewrite Hins, Hst, Hc. auto.
  - right. exists pi. split; [exact Hany|].
    destruct (webhook_verified_calls ext v r s pi Hany Hap) as (Hc & Hs & _).
    cbv zeta in *. rewrite Hins, Hst, Hc. auto.
Qed.

Lemma delivery_unique v r s :
  NoDup (key <$> rows s) → NoDup (key <$> rows (store_after (handle ext (Webhook v r) s))).
Proof.
  intros H. destruct (delivery_store v r s) as [(_ & _ & ->) | (pi & _ & _ & _ & ->)];
    [exact H | apply keeps_Do_unique, H].
Qed.

Lemma delivery_rows_from v r s t :
  t ∈ rows (store_after (handle ext (Webhook v r) s)) →
  t ∈ rows s ∨ ∃ pi, verified_succeeded_any ext r pi ∧ t ∈ rows_of pi.
Proof.
  destruct (delivery_store v r s) as [(_ & _ & ->) | (pi & Hv & _ & _ & ->)]; [auto|].
  destruct (insert_grants _ _ HK (rows_of pi) s) as (g & Hg & -> & _).
  intros Ht. apply elem_of_app in Ht as [Ht|Ht]; [auto|]. right. exists pi. auto.
Qed.

Lemma delivery_keeps_rows v r s t :
  t ∈ rows s → t ∈ rows (store_after (handle ext (Webhook v r) s)).
Proof.
  destruct (delivery_store v r s) as [(_ & _ & ->) | (pi & Hv & _ & _ & ->)]; [auto|].
  destruct (insert_grants _ _ HK (rows_of pi) s) as (g & Hg & -> & _).
  intros Ht. apply elem_of_app. auto.
Qed.

Lemma request_unique i s :
  NoDup (key <$> rows s) → NoDup (key <$> rows (store_after (handle ext i s))).
Proof.
  destruct i as [v r|v r]; [|apply delivery_unique].
  rewrite (SequenceFacts.create_intent_keeps_rows ext rows
             (query_rifa _ _ HK) (query_tikect _ _ HK)). auto.
Qed.

Lemma run_unique_from l : ∀ s,
  NoDup (key <$> rows s) →
  NoDup (key <$> rows (run ext l s)) ∧
  ∀ t, t ∈ rows (run ext l s) →
       t ∈ rows s ∨ ∃ v r pi, Webhook v r ∈ l ∧ verified_succeeded_any ext r pi ∧
                              t ∈ rows_of pi.
Proof.
  induction l as [|i l IH]; intros s H; [split; [exact H | auto]|].
  destruct (IH _ (request_unique i s H)) as [Hn Hfrom].
  split; [exact Hn|]. intros t Ht.
  destruct (Hfrom t Ht) as [Hs | (v & r & pi & Hin & Hv & Hr)].
  - destruct i as [v r|v r].
    + rewrite (SequenceFacts.create_intent_keeps_rows ext rows
                 (query_rifa _ _ HK) (query_tikect _ _ HK)) in Hs. auto.
    + destruct (delivery_rows_from v r s t Hs) as [? | (pi & Hv & Hr)]; [auto|].
      right. exists v, r, pi. split; [apply list_elem_of_here | auto].
  - right. exists v, r, pi. split; [apply list_elem_of_further, Hin | auto].
Qed.

Lemma same_key_same_ticket (l : list Ticket) t t' :
  NoDup (key <$> l) → t ∈ l → t' ∈ l → key t' = key t → t' = t.
Proof.
  induction l as [|x l IH]; intros Hn Ht Ht' Hk; [apply elem_of_nil in Ht; contradiction|].
  rewrite fmap_cons in Hn. apply NoDup_cons in Hn as [Hx Hn].
  apply elem_of_cons in Ht as [->|Ht]; apply elem_of_cons in Ht' as [->|Ht'].
  - reflexivity.
  - exfalso. apply Hx. rewrite <- Hk. apply list_elem_of_fmap. eauto.
  - exfalso. apply Hx. rewrite Hk. apply list_elem_of_fmap. eauto.
  - auto.
Qed.

End WithStore.

(** A store that takes or refuses a batch as a whole is one of
    those. *)
Lemma unique_store_keeps {S B : Type} (ext : External S B) (rows : S → list Ticket) :
  UniqueStore rows ext → KeepsUnique rows ext.
Proof.
  intros HU. split.
  - apply (read_rifa _ _ HU).
  - apply (read_tikect _ _ HU).
  - intros p s. destruct (accepted (Do ext (POST_tikect p) s).2) eqn:Ha.
    + destruct (post_accepted _ _ HU p s Ha) as [Hr Hn]. exists p. auto.
    + exists []. rewrite app_nil_r. split; [apply list_subseteq_nil|].
      split; [apply (post_rejected _ _ HU p s Ha) | auto].
Qed.

Lemma insert_free_grants (p : list Ticket) : ∀ rows,
  ∃ granted, granted ⊆ p ∧ insert_free rows p = rows ++ granted ∧
             (NoDup (key <$> rows) → NoDup (key <$> (rows ++ granted))).
Proof.
  induction p as [|t p IH]; intros rows.
  - exists []. rewrite app_nil_r. split; [done|]. auto.
  - simpl. case_bool_decide as Hk.
    + destruct (IH rows) as (g & Hg & -> & Hn). exists g.
      split; [|auto]. intros x Hx. apply elem_of_cons. right. auto.
    + destruct (IH (rows ++ [t])) as (g & Hg & -> & Hn). exists (t :: g).
      split; [|split].
      * intros x Hx. apply elem_of_cons in Hx as [->|Hx]; apply elem_of_cons; auto.
      * now rewrite <- app_assoc.
      * intros H. rewrite (app_assoc rows [t] g : rows ++ t :: g = (rows ++ [t]) ++ g).
        apply Hn. rewrite fmap_app. apply NoDup_app. split; [exact H|]. split.
        -- intros k Hk' Hin. apply list_elem_of_singleton in Hin. subst k. auto.
        -- apply NoDup_singleton.
Qed.

Lemma skips_taken_keeps : KeepsUnique (λ s : list Ticket, s) skips_taken.
Proof.
  split; [reflexivity | reflexivity |]. intros p s. apply insert_free_grants.
Qed.

(** A refused insert: nothing is written to the response and no mail
    is started; the apple-pay version answers 500. *)
Lemma refused_delivery {S B : Type} (ext : External S B) v r s pi :
  verified_succeeded ext r pi →
  accepted (Do ext (POST_tikect (rows_of pi)) s).2 = false →
  let b := handle ext (Webhook v r) s in
  mails_sent (background b) = [] ∧
  written (w (final (webhook_handler v ext r) s)) = [] ∧
  (v = apple_pay → response b = Some 500).
Proof.
  intros Hv Ha.
  destruct (webhook_verified_calls ext v r s pi (verified_any ext r pi Hv) (λ _, Hv))
    as (_ & _ & Hr & Hm).
  cbv zeta in *. rewrite Ha in Hr, Hm. split; [exact Hm|]. split.
  - destruct Hv as (Hsz & ev & Hev & Hty & Hpi).
    destruct v; unfold final, webhook_handler; unfold_handlers; simpl;
      rewrite bool_decide_eq_false_2 by lia; rewrite Hev;
      rewrite bool_decide_eq_true_2 by exact Hty; rewrite Hpi; simpl;
      fold (numeros_of pi); fold (rows_of pi);
      destruct (Do ext (POST_tikect (rows_of pi)) s) as [s' [err|resp]]; simpl in *;
      try reflexivity; rewrite bool_decide_eq_true_2; try reflexivity;
      apply bool_decide_eq_false in Ha; lia.
  - intros ->. exact Hr.
Qed.

End CommitFacts.

(** ** The claims *)

Import JsonProofs HandlerFacts Fixture.

Module FixtureFacts.

Lemma unique_contract mail_ok :
  UniqueStore (λ s : list Ticket, s) (collaborators (postgrest true) mail_ok).
Proof.
  split; try reflexivity; intros p s; simpl; case_bool_decide as Hn; simpl.
  - intros _. split; [reflexivity | exact Hn].
  - discriminate.
  - discriminate.
  - reflexivity.
Qed.

Lemma answers_availability unique mail_ok :
  AnswersAvailability (λ s : list Ticket, s) (collaborators (postgrest unique) mail_ok).
Proof. intros rid ns s. eexists. split; reflexivity. Qed.

End FixtureFacts.

Example numsStr_spring : numsStr (Some [4; 9]) = "4, 9" ∧ numsStr None = EmptyString.
Proof. split; reflexivity. Qed.

(** The scenario of the spring raffle on main.go: the intent for the
    numbers 4 and 9 at price 1000, then its succeeded event. *)
Example spring_scenario :
  let a := MainGoServer.create_intent with_unique (create "spring") [] in
  let b := MainGoServer.webhook with_unique (succeeded "spring") [] in
  response a = Some 200 ∧
  (λ p, (Amount p, Metadata p !! "numeros")) <$> intents_sent (calls a)
  = [(200000, Some "[4,9]")] ∧
  response b = Some 200 ∧
  store_after b = [ticket "R1" 4 "u1"; ticket "R1" 9 "u1"] ∧
  (λ m, (To m, Subject m)) <$> mails_sent (background b)
  = [(["u1@x.com"], "Tus números para Spring Raffle")].
Proof. vm_compute. repeat split. Qed.

(** C1, as amended.  Every amount that CreatePaymentIntent sends to
    the provider is the price of the item found, times the number of
    requested numbers, times 100, in int64 arithmetic: the price is
    taken in whole currency units and converted to cents.  Without
    overflow that is exactly price * count * 100. *)
Theorem intent_amount_is_price_count_100 {S B : Type} (ext : External S B) (v : Version) (r : Request) (s : S) (amount : Z) :
  amount ∈ amounts_sent (calls (handle ext (CreateIntent v r) s)) →
  ∃ req rifa,
    Decode_PaymentRequest ext (ReqBody r) = Ok req ∧
    found ext (RifaID req) s rifa ∧
    amount = Int64.wrap64 (Int64.wrap64 (Price rifa * len (Numeros req)) * 100) ∧
    (Int64.in_range (Price rifa * len (Numeros req) * 100) = true →
     amount = Price rifa * len (Numeros req) * 100).
Proof.
  rewrite amounts_intents. intros Ha.
  apply list_elem_of_fmap in Ha as (p & -> & Hp).
  destruct (create_intent_intents ext v r s p Hp) as (req & rifa & Hreq & Hf & ->).
  exists req, rifa. split; [exact Hreq|]. split; [exact Hf|].
  split; [reflexivity | apply montoTotal_exact].
Qed.

(** C1, as stated, fails: for the item of price 500 and the three
    numbers 1, 2, 3 both versions send the amount 150000, not 1500. *)
Lemma intent_amount_not_price_times_count :
  Decode_PaymentRequest with_unique (ReqBody (create "three"))
  = Ok (request_of "X" (Some [1; 2; 3]) "u1" "u1@x.com") ∧
  Price (rifa_of "X") = 500 ∧
  amounts_sent (calls (handle with_unique (CreateIntent main_go (create "three")) []))
  = [150000] ∧
  amounts_sent (calls (handle with_unique (CreateIntent apple_pay (create "three")) []))
  = [150000] ∧
  150000 ≠ 500 * 3.
Proof. vm_compute. repeat split. discriminate. Qed.

(** C1, as amended, on the request for three numbers of item X. *)
Lemma intent_amount_witness :
  150000 ∈ amounts_sent (calls (handle with_unique (CreateIntent main_go (create "three")) [])) ∧
  ∃ req rifa,
    Decode_PaymentRequest with_unique (ReqBody (create "three")) = Ok req ∧
    found with_unique (RifaID req) [] rifa ∧
    150000 = Int64.wrap64 (Int64.wrap64 (Price rifa * len (Numeros req)) * 100) ∧
    (Int64.in_range (Price rifa * len (Numeros req) * 100) = true →
     150000 = Price rifa * len (Numeros req) * 100).
Proof.
  assert (H : 150000 ∈ amounts_sent
                (calls (handle with_unique (CreateIntent main_go (create "three")) [])))
    by (vm_compute; left).
  split; [exact H|].
  exact (intent_amount_is_price_count_100 with_unique main_go (create "three") [] 150000 H).
Defined.

(** C2, as amended.  With a store that keeps (item, number) unique
    and takes or refuses a batch as a whole, delivering the same
    request to the webhook twice adds the rows of its event at most
    once; if the first delivery inserted rows the second inserts
    nothing, and the apple-pay version answers that second delivery
    with 500, as it does any failed insert. *)
Theorem replay_inserts_nothing_new {S B : Type} (rows : S → list Ticket) (ext : External S B)
    (HU : UniqueStore rows ext) (v : Version) (r : Request) (s : S) :
  let a := handle ext (Webhook v r) s in
  let b := handle ext (Webhook v r) (store_after a) in
  (rows (store_after b) = rows s
   ∨ ∃ pi, verified_succeeded_any ext r pi ∧
           rows (store_after b) = rows s ++ rows_of pi) ∧
  (rows (store_after a) ≠ rows s →
   rows (store_after b) = rows (store_after a) ∧
   (v = apple_pay → response b = Some 500)).
Proof.
  cbv zeta.
  destruct (delivery_rows ext v r) as [Hun | (pi & Hany & Hd)].
  { rewrite !Hun. split; [left; reflexivity | intros Hne; done]. }
  destruct (Hd s) as (Ha & _). rewrite Ha.
  destruct (Hd (Do ext (POST_tikect (rows_of pi)) s).1) as (Hb & Hrb).
  rewrite Hb. rewrite !(post_rows ext rows HU).
  set (p := rows_of pi) in *.
  destruct (accepted (Do ext (POST_tikect p) s).2) eqn:A1.
  - destruct (decide (p = [])) as [Hp | Hp].
    + rewrite Hp, !app_nil_r. split.
      * left. match goal with |- (if ?x then _ else _) = _ => destruct x end;
          reflexivity.
      * intros Hne. done.
    + pose proof (repost_rejected ext rows HU p s Hp A1) as A2.
      rewrite A2. split; [right; eauto|]. intros _. split; [reflexivity|].
      intros Hv. rewrite (Hrb Hv). now rewrite A2.
  - split; [|intros Hne; done].
    match goal with |- (if ?x then _ else _) = _ ∨ _ => destruct x end;
      [right; eauto | left; reflexivity].
Qed.

(** C2, as stated, fails.  Without a unique constraint at the store
    the second delivery inserts the same rows again; with it, the
    apple-pay version answers the second delivery with 500. *)
Lemma replay_not_idempotent_in_code :
  (let a := handle without_unique (Webhook main_go (succeeded "spring")) [] in
   let b := handle without_unique (Webhook main_go (succeeded "spring")) (store_after a) in
   store_after a = [ticket "R1" 4 "u1"; ticket "R1" 9 "u1"] ∧
   store_after b = [ticket "R1" 4 "u1"; ticket "R1" 9 "u1";
                    ticket "R1" 4 "u1"; ticket "R1" 9 "u1"] ∧
   response b = Some 200) ∧
  (let a := handle with_unique (Webhook apple_pay (succeeded "spring")) [] in
   let b := handle with_unique (Webhook apple_pay (succeeded "spring")) (store_after a) in
   response a = Some 200 ∧ store_after b = store_after a ∧ response b = Some 500).
Proof. vm_compute. repeat split. Qed.

(** C2, as amended, on the event of the spring raffle. *)
Lemma replay_witness :
  let a := handle with_unique (Webhook apple_pay (succeeded "spring")) [] in
  let b := handle with_unique (Webhook apple_pay (succeeded "spring")) (store_after a) in
  store_after a ≠ [] ∧ store_after b = store_after a ∧ response b = Some 500.
Proof.
  intros a b.
  assert (H : store_after a ≠ []) by (vm_compute; discriminate).
  pose proof (proj2 (replay_inserts_nothing_new (λ s, s) with_unique
                       (FixtureFacts.unique_contract true) apple_pay (succeeded "spring") [])
                H) as [H1 H2].
  split; [exact H|]. split; [exact H1 | exact (H2 eq_refl)].
Defined.

(** C3, as amended.  The program does nothing of its own at commit
    to keep (item, number) unique: a delivery reaches the store at
    most once, with the one insert of the rows of its verified
    event, so that concurrent deliveries are, for the store, their
    inserts in some order.  With a store that keeps the pair unique
    under every insert, whether it takes a batch as a whole or row by
    row, no two tickets have the same (item, number) after any
    sequence of requests, every ticket added is a row of a verified
    succeeded event, and whatever a delivery claims, a taken pair
    stays with its ticket.  The program has no AlreadyAllocated result and names
    no number: when the store refuses the insert no mail is sent, the
    response has no body and the apple-pay version answers 500, as
    for any other failure; the error of the commit is the fixed text
    "error registro" in main.go and the status and body of the store
    in the apple-pay version. *)
Theorem one_ticket_per_number {S B : Type} (rows : S → list Ticket) (ext : External S B)
    (HK : KeepsUnique rows ext) :
  (∀ v r s,
     let a := handle ext (Webhook v r) s in
     (length (filter (λ c, is_store_call c = true) (calls a)) ≤ 1)%nat ∧
     store_after a = store_steps ext (POST_tikect <$> inserts_sent (calls a)) s ∧
     ∀ p, p ∈ inserts_sent (calls a) →
          ∃ pi, verified_succeeded_any ext r pi ∧ p = rows_of pi) ∧
  (∀ l s,
     NoDup (key <$> rows s) →
     NoDup (key <$> rows (run ext l s)) ∧
     ∀ t, t ∈ rows (run ext l s) →
          t ∈ rows s ∨ ∃ v r pi, Webhook v r ∈ l ∧ verified_succeeded_any ext r pi ∧
                                 t ∈ rows_of pi) ∧
  (∀ v r s t,
     NoDup (key <$> rows s) → t ∈ rows s →
     let b := handle ext (Webhook v r) s in
     t ∈ rows (store_after b) ∧
     ∀ x, key x = key t → x ≠ t → x ∉ rows (store_after b)) ∧
  (∀ v r s pi,
     verified_succeeded ext r pi →
     accepted (Do ext (POST_tikect (rows_of pi)) s).2 = false →
     let b := handle ext (Webhook v r) s in
     mails_sent (background b) = [] ∧
     written (w (final (webhook_handler v ext r) s)) = [] ∧
     (v = apple_pay → response b = Some 500)) ∧
  (∀ rid ns uid st resp,
     (Do ext (POST_tikect (ticket_payload rid ns uid)) (store st)).2 = DoResp resp →
     400 ≤ StatusCode resp →
     (MainGo.registrarTickets ext rid ns uid st).1 = Normal (Some "error registro") ∧
     (ApplePay.registrarTickets ext rid ns uid st).1
     = Normal (Some ("status " +:+ Json.FormatInt (StatusCode resp) +:+ ": "
                     +:+ ReadAll ext (Body resp)))).
Proof.
  split; [|split; [|split; [|split]]].
  - intros v r s.
    destruct (CommitFacts.delivery_store ext v r s)
      as [(Hi & Hc & Hs) | (pi & Hv & Hi & Hc & Hs)]; cbv zeta in *; rewrite Hi, Hc, Hs.
    + split; [simpl; lia|]. split; [reflexivity|].
      intros p Hp. apply elem_of_nil in Hp. contradiction.
    + split; [simpl; lia|]. split; [reflexivity|].
      intros p Hp. apply list_elem_of_singleton in Hp. eauto.
  - intros l s. apply (CommitFacts.run_unique_from ext rows HK).
  - intros v r s t Hn Ht b.
    pose proof (CommitFacts.delivery_keeps_rows ext rows HK v r s t Ht) as Hkeep.
    split; [exact Hkeep|]. intros x Hk Hne Hin. apply Hne.
    apply (CommitFacts.same_key_same_ticket (rows (store_after b)));
      [apply (CommitFacts.delivery_unique ext rows HK), Hn | exact Hkeep | exact Hin
      | exact Hk].
  - intros v r s pi. apply CommitFacts.refused_delivery.
  - intros rid ns uid st resp Hd Hst.
    unfold MainGo.registrarTickets, ApplePay.registrarTickets, http_Do,
      mbind, M_bind, mret, M_ret.
    destruct (Do ext (POST_tikect (ticket_payload rid ns uid)) (store st)) as [s' d].
    simpl in Hd. subst d. simpl. rewrite bool_decide_eq_true_2 by exact Hst. split; reflexivity.
Qed.

(** C3, as stated, fails.  After u1 took number 7 of item X, the
    commit of u2 for the numbers 7 and 8 fails with the same error as
    a commit against a store that is down, in main.go; in the
    apple-pay version the error is the store's own text and both
    deliveries are answered 500; the free number 8 is not granted,
    and the program names no number.  With a store that skips the
    taken row instead, u2 gets number 8 alone and is mailed the
    numbers 7 and 8.  And without a unique constraint at the store
    both buyers get a ticket for number 7. *)
Lemma loser_gets_blanket_error :
  let s1 := store_after (handle with_unique (Webhook main_go (succeeded "seven")) []) in
  let b := handle with_unique (Webhook main_go (succeeded "seven8")) s1 in
  let c := handle skips_taken (Webhook apple_pay (succeeded "seven8")) s1 in
  run without_unique
    [Webhook main_go (succeeded "seven"); Webhook main_go (succeeded "seven8")] []
  = [ticket "X" 7 "u1"; ticket "X" 7 "u2"; ticket "X" 8 "u2"] ∧
  s1 = [ticket "X" 7 "u1"] ∧
  (MainGo.registrarTickets with_unique "X" (Some [7; 8]) "u2" (fresh s1)).1
  = Normal (Some "error registro") ∧
  (MainGo.registrarTickets store_down "X" (Some [5]) "u3" (fresh [])).1
  = Normal (Some "error registro") ∧
  inserts_sent (calls b) = [[ticket "X" 7 "u2"; ticket "X" 8 "u2"]] ∧
  store_after b = [ticket "X" 7 "u1"] ∧
  lines_logged (calls b)
  = ["💰 Pago verificado de: u2@x.com"; "❌ ERROR DB: error registro"] ∧
  (ApplePay.registrarTickets with_unique "X" (Some [7; 8]) "u2" (fresh s1)).1
  = Normal (Some "status 409: duplicate key value violates unique constraint") ∧
  response (handle with_unique (Webhook apple_pay (succeeded "seven8")) s1) = Some 500 ∧
  response (handle store_down (Webhook apple_pay (succeeded "seven")) []) = Some 500 ∧
  store_after c = [ticket "X" 7 "u1"; ticket "X" 8 "u2"] ∧
  response c = Some 200 ∧
  mails_sent (background c) = [mail_of apple_pay (intent_named "seven8")] ∧
  numsStr (numeros_of (intent_named "seven8")) = "7, 8".
Proof. vm_compute. repeat split. Qed.

(** C3, as amended, on three deliveries that contend for number 7,
    with a store that refuses the batch of the loser and with one
    that skips the taken row. *)
Lemma one_ticket_witness :
  let l := [Webhook main_go (succeeded "seven"); Webhook apple_pay (succeeded "seven8");
            Webhook main_go (succeeded "seven")] in
  NoDup (key <$> ([] : list Ticket)) ∧
  NoDup (key <$> run with_unique l []) ∧ NoDup (key <$> run skips_taken l []) ∧
  run with_unique l [] = [ticket "X" 7 "u1"] ∧
  run skips_taken l [] = [ticket "X" 7 "u1"; ticket "X" 8 "u2"].
Proof.
  intros l.
  assert (H : NoDup (key <$> ([] : list Ticket))) by constructor.
  split; [exact H|]. split; [|split; [|split; reflexivity]].
  - exact (proj1 (proj1 (proj2 (one_ticket_per_number (λ s, s) with_unique
                     (CommitFacts.unique_store_keeps _ _ (FixtureFacts.unique_contract true))))
                    l [] H)).
  - exact (proj1 (proj1 (proj2 (one_ticket_per_number (λ s, s) skips_taken
                                  CommitFacts.skips_taken_keeps)) l [] H)).
Defined.

(** C4, at the failing input.  Ticket (X, 7) exists and a request
    asks for number 7 of item X: the apple-pay version of
    CreatePaymentIntent never queries the tickets, asks Stripe for an
    intent of 50000 and answers 200, where main.go answers 409 and
    asks for none. *)
Theorem apple_pay_creates_intent_despite_conflict :
  let s := [ticket "X" 7 "u0"] in
  let a := ApplePayServer.create_intent with_unique (create "seven") s in
  let m := MainGoServer.create_intent with_unique (create "seven") s in
  taken "X" [7] s = [ticket "X" 7 "u0"] ∧
  response a = Some 200 ∧ amounts_sent (calls a) = [50000] ∧
  filter (λ c, is_availability_query c = true) (calls a) = [] ∧
  response m = Some 409 ∧ amounts_sent (calls m) = [].
Proof. vm_compute. repeat split. Qed.

(** main.go itself lets the request through when the availability
    query fails: validarNumeros looks at neither the error nor the
    status of the answer, and an error body decodes to no rows. *)
Lemma main_go_query_error_lets_through :
  let s := [ticket "X" 7 "u0"] in
  let m := MainGoServer.create_intent query_down (create "seven") s in
  taken "X" [7] s = [ticket "X" 7 "u0"] ∧
  response m = Some 200 ∧ amounts_sent (calls m) = [50000].
Proof. vm_compute. repeat split. Qed.

(** C5, as amended.  In the apple-pay version, for every verified
    succeeded event whose insert the store does not accept (an error
    of the transport or a status from 400 on, a refused duplicate
    included: the program does not tell them apart), the webhook
    handler answers 500, so that the provider redelivers, and starts
    no notification; it answers 200 exactly when the store accepted
    the insert. *)
Theorem apple_pay_store_failure_is_500 {S B : Type} (ext : External S B) (r : Request) (s : S) (pi : PaymentIntent) :
  verified_succeeded ext r pi →
  let d := Do ext (POST_tikect (rows_of pi)) s in
  let a := ApplePayServer.webhook ext r s in
  (accepted d.2 = false →
   response a = Some 500 ∧ background a = [] ∧ store_after a = d.1) ∧
  (accepted d.2 = true → response a = Some 200).
Proof.
  intros Hv. destruct (webhook_verified_apple_pay ext r s pi Hv) as (Hr & Hs & _ & _ & Hb).
  cbv zeta. split; intros Ha; rewrite Ha in Hr; auto.
Qed.

(** C5, as stated, fails.  The apple-pay version answers the
    redelivery of a committed event, a refused duplicate, with 500;
    main.go answers 200 when the store fails with 503. *)
Lemma store_failure_status_mismatch :
  (let s1 := store_after (handle with_unique (Webhook apple_pay (succeeded "spring")) []) in
   let b := handle with_unique (Webhook apple_pay (succeeded "spring")) s1 in
   s1 = [ticket "R1" 4 "u1"; ticket "R1" 9 "u1"] ∧
   store_after b = s1 ∧ response b = Some 500) ∧
  (let a := handle store_down (Webhook main_go (succeeded "spring")) [] in
   (Do store_down (POST_tikect (rows_of (intent_named "spring"))) []).2
   = DoResp {| StatusCode := 503; Body := Message "upstream unavailable" |} ∧
   store_after a = [] ∧ response a = Some 200).
Proof. vm_compute. repeat split. Qed.

(** C5, as amended, on a store that answers every insert with 503. *)
Lemma apple_pay_store_failure_witness :
  verified_succeeded store_down (succeeded "spring") (intent_named "spring") ∧
  accepted (Do store_down (POST_tikect (rows_of (intent_named "spring"))) []).2 = false ∧
  response (ApplePayServer.webhook store_down (succeeded "spring") []) = Some 500.
Proof.
  assert (H1 : verified_succeeded store_down (succeeded "spring") (intent_named "spring")).
  { split; [vm_compute; discriminate|]. eexists. repeat split. }
  assert (H2 : accepted (Do store_down (POST_tikect (rows_of (intent_named "spring"))) []).2
               = false) by reflexivity.
  split; [exact H1|]. split; [exact H2|].
  exact (proj1 (proj1 (apple_pay_store_failure_is_500 store_down (succeeded "spring") []
                         (intent_named "spring") H1) H2)).
Defined.

(** C6.  A webhook request whose signature fails verification
    (ConstructEvent returns an error) is answered 400 by both versions
    of the handler; the store is left as it was, and neither the
    handler nor any goroutine calls the store or the mail service. *)
Theorem unverified_webhook_touches_nothing {S B : Type} (ext : External S B) (v : Version) (r : Request) (s : S) (e : error) :
  webhook_ConstructEvent ext (ReqBody r) (Stripe_Signature r)
    (Getenv ext "STRIPE_WEBHOOK_SECRET") = Err e →
  let a := handle ext (Webhook v r) s in
  response a = Some 400 ∧ store_after a = s ∧
  Forall (λ c, is_store_call c = false ∧ is_send_call c = false)
    (calls a ++ background a).
Proof.
  intros He. destruct (webhook_unverified ext v r s e He) as (Hr & Hs & Hb & Hl).
  cbv zeta. rewrite Hb, app_nil_r. repeat split; try assumption.
  eapply Forall_impl; [exact Hl|]. intros [] Hc; simpl in *; done.
Qed.

(** C6 on an event signed with another secret, and on one whose body
    was changed after signing. *)
Lemma unverified_webhook_witness :
  (webhook_ConstructEvent with_unique (ReqBody (forged "spring"))
     (Stripe_Signature (forged "spring")) (Getenv with_unique "STRIPE_WEBHOOK_SECRET")
   = Err "no signatures found matching the expected signature" ∧
   response (handle with_unique (Webhook main_go (forged "spring")) []) = Some 400) ∧
  (webhook_ConstructEvent with_unique (ReqBody (tampered "spring"))
     (Stripe_Signature (tampered "spring")) (Getenv with_unique "STRIPE_WEBHOOK_SECRET")
   = Err "no signatures found matching the expected signature" ∧
   store_after (handle with_unique (Webhook apple_pay (tampered "spring")) []) = []).
Proof.
  split; (split; [reflexivity|]).
  - exact (proj1 (unverified_webhook_touches_nothing with_unique main_go
                    (forged "spring") [] _ eq_refl)).
  - exact (proj1 (proj2 (unverified_webhook_touches_nothing with_unique apple_pay
                           (tampered "spring") [] _ eq_refl))).
Defined.

(** C7.  For every list of requested numbers (of Go ints), the text
    that CreatePaymentIntent stores under "numeros" in the metadata
    of the intent, decoded the way the webhook handler decodes that
    field, gives back the original list, with no error; a nil list
    comes back nil. *)
Theorem numeros_metadata_roundtrip (rifa : Rifa) (req : PaymentRequest) (pi : PaymentIntent) :
  Forall (λ z, Int64.in_range z = true) (elems (Numeros req)) →
  PI_Metadata pi = intent_Metadata rifa req →
  Json.Unmarshal_ints (lookup_str (PI_Metadata pi) "numeros") None = (Numeros req, None).
Proof.
  intros Hr ->. rewrite lookup_numeros. apply Unmarshal_Marshal_ints, Hr.
Qed.

(** C7 on the request of the spring raffle for the numbers 4 and 9. *)
Lemma numeros_metadata_roundtrip_spring :
  Json.Unmarshal_ints
    (lookup_str (intent_Metadata (rifa_of "R1")
                   (request_of "R1" (Some [4; 9]) "u1" "u1@x.com")) "numeros") None
  = (Some [4; 9], None).
Proof.
  apply (numeros_metadata_roundtrip (rifa_of "R1")
           (request_of "R1" (Some [4; 9]) "u1" "u1@x.com")
           (intent_of "spring"
              (intent_Metadata (rifa_of "R1")
                 (request_of "R1" (Some [4; 9]) "u1" "u1@x.com")))).
  - repeat constructor.
  - reflexivity.
Defined.

(** C8.  Two runs of the webhook handler that differ only in the
    outcome of the mail service answer the provider with the same
    status, leave the same store and make the same calls; the
    goroutine only sends and logs; and whenever a confirmation mail
    is attempted, that is after a successful commit, the status is
    200 in both runs. *)
Theorem webhook_response_ignores_mail {S B} (ext : External S B)
    (send1 send2 : SendEmailRequest → option error) (v : Version) (r : Request) (s : S) :
  let a := handle (with_Send ext send1) (Webhook v r) s in
  let b := handle (with_Send ext send2) (Webhook v r) s in
  response a = response b ∧ store_after a = store_after b ∧ calls a = calls b ∧
  mails_sent (background a) = mails_sent (background b) ∧
  Forall (λ c, is_send_call c || is_log c = true) (background a ++ background b) ∧
  (mails_sent (background a) ≠ [] → response a = Some 200 ∧ response b = Some 200).
Proof.
  cbv zeta.
  destruct (webhook_with_Send ext send1 send2 v r s) as (Hr & Hs & Hc & Hm).
  repeat split; try assumption.
  - apply Forall_app; split; apply background_calls.
  - now apply mails_imply_200.
  - rewrite <- Hr. now apply mails_imply_200.
Qed.

(** C8 on a delivery whose mail is sent in one run and fails in the
    other. *)
Lemma webhook_response_ignores_mail_witness :
  let a := handle (with_Send with_unique (λ _, None)) (Webhook main_go (succeeded "spring")) [] in
  let b := handle (with_Send with_unique (λ _, Some "resend: 503"))
             (Webhook main_go (succeeded "spring")) [] in
  mails_sent (background a) ≠ [] ∧ response a = Some 200 ∧ response b = Some 200.
Proof.
  intros a b.
  assert (H : mails_sent (background a) ≠ []) by (vm_compute; discriminate).
  split; [exact H|].
  exact (proj2 (proj2 (proj2 (proj2 (proj2
           (webhook_response_ignores_mail with_unique (λ _, None)
              (λ _, Some "resend: 503") main_go (succeeded "spring") []))))) H).
Defined.

(** C9, as amended.  When the "numeros" metadata of a verified
    succeeded event is absent or is not valid JSON, Unmarshal fails
    with a syntax error that the handler drops, leaving the numbers
    nil; the commit goes on as the one call of the delivery, an
    insert of zero rows.  The event is answered 200 when the store
    accepts that insert; when it does not, the apple-pay version
    answers 500 and starts no mail, as for any failed insert. *)
Theorem garbled_numeros_still_acknowledged {S B : Type} (ext : External S B)
    (v : Version) (r : Request) (s : S) (pi : PaymentIntent) :
  PI_Metadata pi !! "numeros" = None
  ∨ Json.Valid (lookup_str (PI_Metadata pi) "numeros") = false →
  verified_succeeded ext r pi →
  let a := handle ext (Webhook v r) s in
  let d := Do ext (POST_tikect []) s in
  Json.Unmarshal_ints (lookup_str (PI_Metadata pi) "numeros") None
  = (None, Some Json.SyntaxError) ∧
  outside_calls (calls a) = [CallDo (POST_tikect [])] ∧
  store_after a = d.1 ∧
  (accepted d.2 = true → response a = Some 200) ∧
  (v = apple_pay → accepted d.2 = false → response a = Some 500 ∧ background a = []).
Proof.
  intros H Hv. pose proof (invalid_numeros pi H) as Hu.
  assert (Hrows : rows_of pi = []).
  { unfold rows_of, numeros_of. rewrite Hu. reflexivity. }
  destruct (DeliveryFacts.webhook_verified_calls ext v r s pi (verified_any ext r pi Hv)
              (λ _, Hv)) as (Hc & Hs & Hr & _).
  cbv zeta in *. rewrite Hrows in *.
  split; [exact Hu|]. split; [exact Hc|]. split; [exact Hs|]. split.
  - intros Ha. rewrite Ha in Hr. exact Hr.
  - intros -> Ha. rewrite Ha in Hr. split; [exact Hr|].
    destruct (webhook_verified_apple_pay ext r s pi Hv) as (_ & _ & _ & _ & Hb).
    rewrite Hrows in Hb. exact (Hb Ha).
Qed.

(** C9, as stated, fails in the apple-pay version: with a store that
    cannot be reached for inserts the event whose "numeros" is the
    text 4;9 is answered 500, after an insert of zero rows.  main.go
    answers 200 there, as it does for every failed insert. *)
Lemma garbled_numeros_refused_is_500 :
  let a := handle store_down (Webhook apple_pay (succeeded "garbled")) [] in
  Json.Valid (lookup_str (PI_Metadata (intent_named "garbled")) "numeros") = false ∧
  verified_succeeded store_down (succeeded "garbled") (intent_named "garbled") ∧
  inserts_sent (calls a) = [[]] ∧
  response a = Some 500 ∧
  response (handle store_down (Webhook main_go (succeeded "garbled")) []) = Some 200.
Proof.
  split; [reflexivity|]. split.
  - split; [vm_compute; discriminate|]. eexists. repeat split.
  - vm_compute. repeat split.
Qed.

(** C9, as amended, on an intent whose "numeros" is the text 4;9:
    both versions with a store that accepts the empty insert, and
    the apple-pay version with one that does not. *)
Lemma garbled_numeros_witness :
  Json.Valid (lookup_str (PI_Metadata (intent_named "garbled")) "numeros") = false ∧
  verified_succeeded with_unique (succeeded "garbled") (intent_named "garbled") ∧
  response (handle with_unique (Webhook main_go (succeeded "garbled")) []) = Some 200 ∧
  response (handle with_unique (Webhook apple_pay (succeeded "garbled")) []) = Some 200 ∧
  response (handle store_down (Webhook apple_pay (succeeded "garbled")) []) = Some 500.
Proof.
  assert (H1 : Json.Valid (lookup_str (PI_Metadata (intent_named "garbled")) "numeros") = false)
    by reflexivity.
  assert (H2 : verified_succeeded with_unique (succeeded "garbled") (intent_named "garbled")).
  { split; [vm_compute; discriminate|]. eexists. repeat split. }
  assert (H3 : verified_succeeded store_down (succeeded "garbled") (intent_named "garbled")).
  { split; [vm_compute; discriminate|]. eexists. repeat split. }
  split; [exact H1|]. split; [exact H2|]. split; [|split].
  - exact (proj1 (proj2 (proj2 (proj2 (garbled_numeros_still_acknowledged with_unique
             main_go (succeeded "garbled") [] (intent_named "garbled") (or_intror H1) H2))))
             eq_refl).
  - exact (proj1 (proj2 (proj2 (proj2 (garbled_numeros_still_acknowledged with_unique
             apple_pay (succeeded "garbled") [] (intent_named "garbled") (or_intror H1) H2))))
             eq_refl).
  - exact (proj1 (proj2 (proj2 (proj2 (proj2 (garbled_numeros_still_acknowledged store_down
             apple_pay (succeeded "garbled") [] (intent_named "garbled") (or_intror H1) H3))))
             eq_refl eq_refl)).
Defined.

(** C10.  Nothing in CreatePaymentIntent looks for duplicates: the
    amount of every intent counts the full length of the list of the
    request, and the intent is asked for whenever the item is found,
    which takes a request for it that could be built (and, in
    main.go, an availability query that returns no row); on the
    succeeded event the numbers read back from the metadata give one
    row each, in the same order, in the one batch insert. *)
Theorem duplicates_are_charged_and_inserted {S B : Type} (ext : External S B) :
  (∀ v r s p,
     p ∈ intents_sent (calls (handle ext (CreateIntent v r) s)) →
     ∃ req rifa,
       Decode_PaymentRequest ext (ReqBody r) = Ok req ∧
       found ext (RifaID req) s rifa ∧
       Amount p = Int64.mul (Int64.mul (Price rifa)
                               (Z.of_nat (length (elems (Numeros req))))) 100) ∧
  (∀ r s req rifa,
     Decode_PaymentRequest ext (ReqBody r) = Ok req →
     found ext (RifaID req) s rifa →
     intents_sent (calls (ApplePayServer.create_intent ext r s))
     = [params_of apple_pay rifa req]) ∧
  (∀ r s req rifa resp,
     Decode_PaymentRequest ext (ReqBody r) = Ok req →
     found ext (RifaID req) s rifa →
     (Do ext (GET_tikect (RifaID req) (elems (Numeros req)))
        (Do ext (GET_rifa (RifaID req)) s).1).2 = DoResp resp →
     Decode_count ext (Body resp) = 0%nat →
     intents_sent (calls (MainGoServer.create_intent ext r s))
     = [params_of main_go rifa req]) ∧
  (∀ rifa req pi,
     Forall (λ z, Int64.in_range z = true) (elems (Numeros req)) →
     PI_Metadata pi = intent_Metadata rifa req →
     rows_of pi = ticket_payload (RifaID req) (Numeros req) (UserId req) ∧
     number <$> rows_of pi = elems (Numeros req)) ∧
  (∀ v r s pi,
     verified_succeeded ext r pi →
     inserts_sent (calls (handle ext (Webhook v r) s)) = [rows_of pi]).
Proof.
  split; [|split; [|split; [|split]]].
  - intros v r s p Hp.
    destruct (create_intent_intents ext v r s p Hp) as (req & rifa & Hreq & Hf & ->).
    exists req, rifa. done.
  - intros r s req rifa Hreq Hf.
    apply (create_intent_apple_pay ext r s req rifa Hreq Hf).
  - intros r s req rifa resp Hreq Hf Hq Hc.
    pose proof (create_intent_main_go ext r s req rifa Hreq Hf) as H.
    cbv zeta in H. rewrite Hq, Hc in H. apply H.
  - intros rifa req pi Hr Hmd.
    unfold rows_of, numeros_of. rewrite Hmd.
    rewrite lookup_numeros. unfold toString.
    rewrite Unmarshal_Marshal_ints by assumption. split; [reflexivity|].
    unfold ticket_payload. rewrite <- list_fmap_compose. simpl.
    apply list_fmap_id.
  - intros v r s pi Hv. destruct v.
    + apply (webhook_verified_main_go ext r s pi (verified_any ext r pi Hv)).
    + apply (webhook_verified_apple_pay ext r s pi Hv).
Qed.

(** C10 on a request for number 7 twice. *)
Lemma duplicates_witness :
  let req := request_of "X" (Some [7; 7]) "u1" "u1@x.com" in
  (Decode_PaymentRequest with_unique (ReqBody (create "twice7")) = Ok req ∧
   found with_unique "X" [] (rifa_of "X") ∧
   intents_sent (calls (ApplePayServer.create_intent with_unique (create "twice7") []))
   = [params_of apple_pay (rifa_of "X") req] ∧
   Amount (params_of apple_pay (rifa_of "X") req) = 100000) ∧
  (verified_succeeded with_unique (succeeded "twice7") (intent_named "twice7") ∧
   inserts_sent (calls (handle with_unique (Webhook main_go (succeeded "twice7")) []))
   = [rows_of (intent_named "twice7")] ∧
   rows_of (intent_named "twice7") = [ticket "X" 7 "u1"; ticket "X" 7 "u1"]).
Proof.
  intros req.
  assert (H1 : Decode_PaymentRequest with_unique (ReqBody (create "twice7")) = Ok req)
    by reflexivity.
  assert (H2 : found with_unique "X" [] (rifa_of "X")).
  { split; [reflexivity|]. eexists _, _. repeat split. }
  assert (H3 : verified_succeeded with_unique (succeeded "twice7") (intent_named "twice7")).
  { split; [vm_compute; discriminate|]. eexists. repeat split. }
  split; [split; [exact H1|]; split; [exact H2|]; split; [|reflexivity]
         | split; [exact H3|]; split; [|reflexivity]].
  - exact (proj1 (proj2 (duplicates_are_charged_and_inserted with_unique))
             (create "twice7") [] req (rifa_of "X") H1 H2).
  - exact (proj2 (proj2 (proj2 (proj2 (duplicates_are_charged_and_inserted with_unique))))
             main_go (succeeded "twice7") [] (intent_named "twice7") H3).
Defined.

(** * Further properties of the handlers *)

Import Faults.

(** ** Shared facts *)

Import DeliveryFacts.


Module MailFacts.
Import Json JsonFacts JsonProofs MailNotions.

Lemma rev_app_app (x y z : string) :
  String.rev_app (String.rev_app x y) z = String.rev_app y (x +:+ z).
Proof.
  revert y z. induction x as [|c x IH]; intros y z; [reflexivity|].
  simpl. rewrite IH. reflexivity.
Qed.

Lemma rev_rev (x : string) : String.rev (String.rev x) = x.
Proof.
  unfold String.rev. rewrite rev_app_app. simpl. apply append_nil_r.
Qed.

Lemma rev_app_snoc (x y : string) (c : ascii) :
  String.rev_app (x +:+ String c EmptyString) y = String c (String.rev_app x y).
Proof.
  revert y. induction x as [|d x IH]; intros y; [reflexivity|].
  rewrite append_cons. simpl. apply IH.
Qed.

Lemma words_go_word (x rest cur : string) :
  plain_word x = true →
  String.words_go (Some cur) (x +:+ rest) = String.words_go (Some (String.rev_app x cur)) rest.
Proof.
  intros H. revert cur. induction x as [|d x IH]; intros cur; [reflexivity|].
  simpl in H. apply andb_true_iff in H as [Hd H]. apply negb_true_iff in Hd.
  rewrite append_cons. simpl. rewrite Hd. simpl. apply IH, H.
Qed.

Lemma words_go_start (x rest : string) :
  plain_word x = true → x ≠ EmptyString →
  String.words_go None (x +:+ rest) = String.words_go (Some (String.rev x)) rest.
Proof.
  intros H Hne. destruct x as [|c x]; [contradiction|].
  simpl in H. apply andb_true_iff in H as [Hc H]. apply negb_true_iff in Hc.
  rewrite append_cons. simpl. rewrite Hc. simpl.
  rewrite words_go_word by exact H. reflexivity.
Qed.

Lemma words_join (l : list string) :
  Forall (λ x, plain_word x = true ∧ x ≠ EmptyString) l →
  String.words (join " " l) = l.
Proof.
  unfold String.words.
  induction 1 as [|x l [Hx Hne] Hl IH]; [reflexivity|].
  destruct l as [|y l].
  - simpl. rewrite <- (append_nil_r x) at 1.
    rewrite words_go_start by assumption. simpl. now rewrite rev_rev.
  - change (join " " (x :: y :: l)) with (x +:+ String " " (join " " (y :: l))).
    rewrite words_go_start by assumption.
    change (String.words_go (Some (String.rev x)) (String " " (join " " (y :: l))))
      with (String.rev (String.rev x) :: String.words_go None (join " " (y :: l))).
    now rewrite rev_rev, IH.
Qed.

Lemma join_close (sep : string) (l : list string) :
  l ≠ [] → join sep (closed l) = join sep l +:+ "]".
Proof.
  induction l as [|x l IH]; [contradiction|]. intros _.
  destruct l as [|y l]; [reflexivity|].
  change (closed (x :: y :: l)) with (x :: closed (y :: l)).
  change (join sep (x :: y :: l)) with (x +:+ sep +:+ join sep (y :: l)).
  assert (Hc : ∃ z l', closed (y :: l) = z :: l').
  { destruct l; simpl; eauto. }
  destruct Hc as (z & l' & Hc).
  change (join sep (x :: closed (y :: l))) with
    (match closed (y :: l) with
     | [] => x
     | _ :: _ => x +:+ sep +:+ join sep (closed (y :: l))
     end).
  rewrite Hc at 1. rewrite IH by discriminate. now rewrite !append_assoc.
Qed.

Lemma join_open (sep : string) (l : list string) :
  l ≠ [] → join sep (opened l) = "[" +:+ join sep l.
Proof. destruct l as [|x [|y l]]; [contradiction | reflexivity..]. Qed.

Lemma plain_word_app (x y : string) :
  plain_word x = true → plain_word y = true → plain_word (x +:+ y) = true.
Proof.
  intros Hx Hy. induction x as [|c x IH]; [exact Hy|].
  simpl in Hx. apply andb_true_iff in Hx as [Hc Hx].
  rewrite append_cons. simpl. rewrite Hc. simpl. apply IH, Hx.
Qed.

Lemma plain_close (l : list string) :
  Forall (λ x, plain_word x = true ∧ x ≠ EmptyString) l →
  Forall (λ x, plain_word x = true ∧ x ≠ EmptyString) (closed l).
Proof.
  induction 1 as [|x l [Hx Hne] Hl IH]; [constructor|].
  destruct l as [|y l].
  - constructor; [|constructor]. split; [now apply plain_word_app|].
    destruct x; [contradiction | discriminate].
  - change (closed (x :: y :: l)) with (x :: closed (y :: l)). constructor; auto.
Qed.

Lemma plain_open (l : list string) :
  Forall (λ x, plain_word x = true ∧ x ≠ EmptyString) l →
  Forall (λ x, plain_word x = true ∧ x ≠ EmptyString) (opened l).
Proof.
  destruct 1 as [|x l [Hx Hne] Hl]; [constructor|].
  constructor; [|exact Hl]. split; [exact Hx | discriminate].
Qed.

Lemma digit_not_blank c :
  is_digit c = true →
  Ascii.is_space c = false ∧ in_cutset c "[]" = false.
Proof. each_char c; intros _; split; reflexivity. Qed.

Lemma digits_plain s : all_digits s = true → plain_word s = true.
Proof.
  induction s as [|c s IH]; [reflexivity|]. simpl. intros H.
  apply andb_true_iff in H as [Hc H].
  destruct (digit_not_blank c Hc) as [-> _]. simpl. auto.
Qed.

Lemma digits_last c r :
  is_digit c = true → all_digits r = true →
  ∃ pre d, String c r = pre +:+ String d EmptyString ∧ is_digit d = true.
Proof.
  revert c. induction r as [|c' r IH]; intros c Hc Hr.
  - exists EmptyString, c. auto.
  - simpl in Hr. apply andb_true_iff in Hr as [Hc' Hr].
    destruct (IH c' Hc' Hr) as (pre & d & E & Hd).
    exists (String c pre), d. rewrite E. auto.
Qed.

(** The decimal text of an int: a word that starts with a digit or
    the sign and ends with a digit. *)
Lemma FormatInt_word z :
  plain_word (FormatInt z) = true ∧
  (∃ c r, FormatInt z = String c r ∧ in_cutset c "[]" = false) ∧
  (∃ pre d, FormatInt z = pre +:+ String d EmptyString ∧ in_cutset d "[]" = false).
Proof.
  destruct (FormatInt_shape z) as [-> | (sg & c & r & -> & Hsg & Hc & _ & Hr)].
  - split; [reflexivity|]. split.
    + exists "0"%char, EmptyString. auto.
    + exists EmptyString, "0"%char. auto.
  - destruct (digits_last c r Hc Hr) as (pre & d & E & Hd).
    assert (Hp : plain_word (String c r) = true).
    { apply digits_plain. simpl. now rewrite Hc, Hr. }
    destruct Hsg as [-> | ->].
    + rewrite append_nil_l. split; [exact Hp|]. split.
      * exists c, r. split; [reflexivity|]. apply digit_not_blank, Hc.
      * exists pre, d. split; [exact E|]. apply digit_not_blank, Hd.
    + split; [apply plain_word_app; [reflexivity | exact Hp]|]. split.
      * exists "-"%char, (String c r). auto.
      * exists (String "-" pre), d. rewrite E. split; [reflexivity|].
        apply digit_not_blank, Hd.
Qed.

Lemma join_head (sep x : string) (l : list string) :
  ∃ t, join sep (x :: l) = x +:+ t.
Proof.
  destruct l as [|y l].
  - exists EmptyString. simpl. now rewrite append_nil_r.
  - exists (sep +:+ join sep (y :: l)). reflexivity.
Qed.

Lemma join_last (sep : string) (l : list string) :
  l ≠ [] → ∃ pre x, x ∈ l ∧ join sep l = pre +:+ x.
Proof.
  induction l as [|x l IH]; [contradiction|]. intros _.
  destruct l as [|y l].
  - exists EmptyString, x. split; [apply list_elem_of_here | reflexivity].
  - destruct (IH ltac:(discriminate)) as (pre & z & Hz & E).
    exists (x +:+ sep +:+ pre), z. split; [apply list_elem_of_further, Hz|].
    change (join sep (x :: y :: l)) with (x +:+ sep +:+ join sep (y :: l)).
    rewrite E. now rewrite !append_assoc.
Qed.

Lemma Trim_brackets (body : string) :
  (∃ c r, body = String c r ∧ in_cutset c "[]" = false) →
  (∃ pre d, body = pre +:+ String d EmptyString ∧ in_cutset d "[]" = false) →
  Trim ("[" +:+ body +:+ "]") "[]" = body.
Proof.
  intros (c & r & E1 & Hc) (pre & d & E2 & Hd). unfold Trim.
  assert (H1 : TrimLeft ("[" +:+ body +:+ "]") "[]" = body +:+ "]").
  { rewrite E1. change (TrimLeft ("[" +:+ String c r +:+ "]") "[]")
      with (if in_cutset c "[]" then TrimLeft (r +:+ "]") "[]" else String c (r +:+ "]")).
    rewrite Hc. reflexivity. }
  rewrite H1. unfold String.rev at 2. rewrite rev_app_snoc.
  fold (String.rev body).
  assert (H2 : TrimLeft (String "]" (String.rev body)) "[]" = String.rev body).
  { change (TrimLeft (String "]" (String.rev body)) "[]")
      with (TrimLeft (String.rev body) "[]").
    rewrite E2. unfold String.rev. rewrite rev_app_snoc. cbn [TrimLeft].
    rewrite Hd. reflexivity. }
  rewrite H2. apply rev_rev.
Qed.

(** The numbers of the mail: the decimal texts in the order of the
    list, separated by a comma and a blank. *)
Lemma numsStr_join (v : slice Z) :
  numsStr v = join ", " (FormatInt <$> elems v).
Proof.
  unfold numsStr, Sprint_ints. destruct (elems v) as [|z l]; [reflexivity|].
  set (xs := FormatInt <$> z :: l).
  assert (Hne : xs ≠ []) by discriminate.
  assert (Hplain : Forall (λ x, plain_word x = true ∧ x ≠ EmptyString) xs).
  { apply Forall_fmap, Forall_forall. intros y _. simpl.
    destruct (FormatInt_word y) as (Hp & (c & r & E & _) & _).
    split; [exact Hp|]. rewrite E. discriminate. }
  assert (Hoc : ∀ sep, join sep (closed (opened xs)) = "[" +:+ join sep xs +:+ "]").
  { intros sep. rewrite join_close by (unfold xs; discriminate).
    rewrite join_open by exact Hne. now rewrite append_assoc. }
  rewrite <- (Hoc " "). rewrite words_join by (apply plain_close, plain_open, Hplain).
  rewrite Hoc. apply Trim_brackets.
  - destruct (join_head ", " (FormatInt z) (FormatInt <$> l)) as (t & E).
    destruct (FormatInt_word z) as (_ & (c & r & Ez & Hc) & _).
    exists c, (r +:+ t). unfold xs. rewrite fmap_cons, E, Ez. auto.
  - destruct (join_last ", " xs Hne) as (pre & x & Hx & E).
    apply list_elem_of_fmap in Hx as (y & -> & _).
    destruct (FormatInt_word y) as (_ & _ & (pre' & d & Ey & Hd)).
    exists (pre +:+ pre'), d. rewrite E, Ey. now rewrite append_assoc.
Qed.

End MailFacts.

(** The fixture for an oversize body. *)
Lemma length_iter_String (n : N) (c : ascii) (s : string) :
  String.length (N.iter n (String c) s) = (N.to_nat n + String.length s)%nat.
Proof.
  induction n as [|n IH] using N.peano_ind; [reflexivity|].
  rewrite N.iter_succ, N2Nat.inj_succ. simpl. rewrite IH. reflexivity.
Qed.

Lemma oversize_length : 65536 < Z.of_nat (String.length (ReqBody oversize)).
Proof.
  change (ReqBody oversize) with (N.iter 65537 (String "a") EmptyString).
  rewrite length_iter_String, Nat2Z.inj_add, N_nat_Z. simpl String.length. lia.
Qed.

(** The three inserts of enableCORS into an empty header map. *)
Lemma cors_headers_set :
  <["Access-Control-Allow-Headers" := "Content-Type, Authorization"]>
    (<["Access-Control-Allow-Methods" := "POST, GET, OPTIONS"]>
       (<["Access-Control-Allow-Origin" := "*"]> (∅ : gmap string string)))
  = cors_headers.
Proof.
  unfold cors_headers. apply map_eq. intros k.
  destruct (decide (k = "Access-Control-Allow-Headers")) as [->|H1];
    [reflexivity|].
  destruct (decide (k = "Access-Control-Allow-Methods")) as [->|H2];
    [reflexivity|].
  destruct (decide (k = "Access-Control-Allow-Origin")) as [->|H3];
    [reflexivity|].
  rewrite !lookup_insert_ne by congruence.
  rewrite lookup_singleton_ne by congruence. reflexivity.
Qed.

(** One of the statuses listed. *)
Ltac among := solve [rewrite ?elem_of_cons; repeat first [left; reflexivity | right]].

(** ** Size limit, event types and payloads of the webhook *)

(** X1.  A webhook body of more than 65536 bytes is answered 400 by
    both versions before anything else happens: the signature is
    never checked (the answer is the same whatever the verifier
    would say), the store is not touched, nothing but a log line
    goes out and no goroutine is started. *)
Theorem oversize_body_is_rejected {S B : Type} (ext : External S B)
    (v : Version) (r : Request) (s : S) :
  65536 < Z.of_nat (String.length (ReqBody r)) →
  let a := handle ext (Webhook v r) s in
  response a = Some 400 ∧ store_after a = s ∧ outside_calls (calls a) = [] ∧
  background a = [] ∧
  ∀ construct, handle (with_Events ext construct) (Webhook v r) s = a.
Proof.
  intros H. destruct v; unfold_handlers; simpl;
    rewrite !bool_decide_eq_true_2 by lia; simpl; repeat split; intros; reflexivity.
Qed.

(** X1 on a correctly signed body of 65537 bytes. *)
Lemma oversize_body_witness :
  65536 < Z.of_nat (String.length (ReqBody oversize)) ∧
  response (handle with_unique (Webhook main_go oversize) []) = Some 400 ∧
  response (handle with_unique (Webhook apple_pay oversize) []) = Some 400.
Proof.
  split; [exact oversize_length|]. split.
  - exact (proj1 (oversize_body_is_rejected with_unique main_go oversize [] oversize_length)).
  - exact (proj1 (oversize_body_is_rejected with_unique apple_pay oversize [] oversize_length)).
Defined.

(** X2.  A correctly signed event of any type other than
    "payment_intent.succeeded" is acknowledged with 200 by both
    versions, and nothing is done for it: no store request, no mail,
    the store as it was. *)
Theorem other_events_are_acknowledged {S B : Type} (ext : External S B)
    (v : Version) (r : Request) (s : S) (event : Event) :
  Z.of_nat (String.length (ReqBody r)) ≤ 65536 →
  webhook_ConstructEvent ext (ReqBody r) (Stripe_Signature r)
    (Getenv ext "STRIPE_WEBHOOK_SECRET") = Ok event →
  Type_ event ≠ "payment_intent.succeeded" →
  let a := handle ext (Webhook v r) s in
  response a = Some 200 ∧ store_after a = s ∧ outside_calls (calls a) = [] ∧
  background a = [].
Proof.
  intros Hsz Hev Hty. destruct v; unfold_handlers; simpl;
    rewrite bool_decide_eq_false_2 by lia; rewrite Hev;
    rewrite bool_decide_eq_false_2 by exact Hty; simpl; repeat split.
Qed.

(** X2 on a signed "payment_intent.payment_failed" event. *)
Lemma other_events_witness :
  let ext := events_of_type "payment_intent.payment_failed" in
  webhook_ConstructEvent ext (ReqBody (succeeded "spring"))
    (Stripe_Signature (succeeded "spring")) (Getenv ext "STRIPE_WEBHOOK_SECRET")
  = Ok {| Type_ := "payment_intent.payment_failed"; Data_Raw := "spring" |} ∧
  response (handle ext (Webhook apple_pay (succeeded "spring")) []) = Some 200 ∧
  store_after (handle ext (Webhook apple_pay (succeeded "spring")) []) = [].
Proof.
  intros ext.
  assert (H : webhook_ConstructEvent ext (ReqBody (succeeded "spring"))
                (Stripe_Signature (succeeded "spring")) (Getenv ext "STRIPE_WEBHOOK_SECRET")
              = Ok {| Type_ := "payment_intent.payment_failed"; Data_Raw := "spring" |})
    by reflexivity.
  split; [exact H|].
  pose proof (other_events_are_acknowledged ext apple_pay (succeeded "spring") [] _
                ltac:(vm_compute; discriminate) H ltac:(discriminate)) as (H1 & H2 & _).
  split; [exact H1 | exact H2].
Defined.

(** X3.  A verified succeeded event whose PaymentIntent does not
    decode: the apple-pay version answers 400 and sends nothing to
    the store; main.go drops the error, inserts the rows of whatever
    was decoded and answers 200. *)
Theorem undecodable_intent {S B : Type} (ext : External S B)
    (r : Request) (s : S) (event : Event) (pi : PaymentIntent) (e : error) :
  Z.of_nat (String.length (ReqBody r)) ≤ 65536 →
  webhook_ConstructEvent ext (ReqBody r) (Stripe_Signature r)
    (Getenv ext "STRIPE_WEBHOOK_SECRET") = Ok event →
  Type_ event = "payment_intent.succeeded" →
  Unmarshal_PaymentIntent ext (Data_Raw event) = (pi, Some e) →
  (let a := ApplePayServer.webhook ext r s in
   response a = Some 400 ∧ store_after a = s ∧ outside_calls (calls a) = [] ∧
   background a = []) ∧
  (let a := MainGoServer.webhook ext r s in
   response a = Some 200 ∧ inserts_sent (calls a) = [rows_of pi] ∧
   store_after a = (Do ext (POST_tikect (rows_of pi)) s).1).
Proof.
  intros Hsz Hev Hty Hpi. split.
  - unfold_handlers; simpl.
    rewrite bool_decide_eq_false_2 by lia. rewrite Hev.
    rewrite bool_decide_eq_true_2 by exact Hty. rewrite Hpi. simpl. repeat split.
  - assert (Hv : verified_succeeded_any ext r pi).
    { split; [exact Hsz|]. exists event. rewrite Hpi. repeat split; assumption. }
    destruct (webhook_verified_main_go ext r s pi Hv) as (H1 & H2 & H3 & _).
    repeat split; assumption.
Qed.

(** X3 on an event whose payload is no PaymentIntent: main.go sends
    an insert of no rows. *)
Lemma undecodable_intent_witness :
  Unmarshal_PaymentIntent with_unique "nothing"
  = ({| PI_ID := EmptyString; ClientSecret := EmptyString; PI_Metadata := ∅ |},
     Some "unexpected end of JSON input") ∧
  response (ApplePayServer.webhook with_unique (succeeded "nothing") []) = Some 400 ∧
  inserts_sent (calls (MainGoServer.webhook with_unique (succeeded "nothing") [])) = [[]].
Proof.
  split; [reflexivity|].
  pose proof (undecodable_intent with_unique (succeeded "nothing") []
                {| Type_ := "payment_intent.succeeded"; Data_Raw := "nothing" |} _ _
                ltac:(vm_compute; discriminate) eq_refl eq_refl eq_refl)
    as ((H1 & _) & (_ & H2 & _)).
  split; [exact H1 | exact H2].
Defined.

(** ** The paths of CreatePaymentIntent *)

(** X4.  A create-intent body that does not decode is answered 400
    with the line "JSON inválido" by both versions; neither the
    store nor the payment provider is reached. *)
Theorem invalid_body_is_400 {S B : Type} (ext : External S B)
    (v : Version) (r : Request) (s : S) (e : error) :
  Decode_PaymentRequest ext (ReqBody r) = Err e →
  let a := handle ext (CreateIntent v r) s in
  response a = Some 400 ∧ store_after a = s ∧ outside_calls (calls a) = [] ∧
  background a = [] ∧
  written (w (final (create_handler v ext r) s))
  = [Text ("JSON inválido" +:+ String "010" EmptyString)].
Proof.
  intros He. destruct v; unfold final, create_handler; unfold_handlers;
    rewrite He; simpl; repeat split.
Qed.

(** X4 on a body that is no JSON. *)
Lemma invalid_body_witness :
  Decode_PaymentRequest with_unique (ReqBody (create "garbage")) = Err "invalid character" ∧
  response (handle with_unique (CreateIntent main_go (create "garbage")) []) = Some 400 ∧
  outside_calls (calls (handle with_unique (CreateIntent apple_pay (create "garbage")) [])) = [].
Proof.
  split; [reflexivity|]. split.
  - exact (proj1 (invalid_body_is_400 with_unique main_go (create "garbage") [] _ eq_refl)).
  - exact (proj1 (proj2 (proj2 (invalid_body_is_400 with_unique apple_pay
                                  (create "garbage") [] _ eq_refl)))).
Defined.

(** X5.  When getRifa gives no item, no intent is asked for.  If its
    request could be built (the store then failed, answered another
    status than 200, or sent an empty list), both versions answer
    404 after that one query, without an availability query.  If the
    URL does not parse (a control character in the id, or a malformed
    escape behind a [#]), the handler panics on the nil request
    before any call, and the client gets no response. *)
Theorem missing_item_is_404 {S B : Type} (ext : External S B)
    (v : Version) (r : Request) (s : S) (req : PaymentRequest) :
  Decode_PaymentRequest ext (ReqBody r) = Ok req →
  (∀ rifa, ¬ found ext (RifaID req) s rifa) →
  let a := handle ext (CreateIntent v r) s in
  background a = [] ∧ intents_sent (calls a) = [] ∧
  if NewRequest (rifa_url (RifaID req))
  then response a = Some 404 ∧
       outside_calls (calls a) = [CallDo (GET_rifa (RifaID req))] ∧
       store_after a = (Do ext (GET_rifa (RifaID req)) s).1
  else response a = None ∧ outside_calls (calls a) = [] ∧ store_after a = s ∧
       written (w (final (create_handler v ext r) s)) = [].
Proof.
  intros Hreq Hnf.
  destruct (NewRequest (rifa_url (RifaID req))) eqn:Hb.
  2: { destruct v; unfold final, create_handler; unfold_handlers; rewrite Hreq; simpl;
       rewrite Hb; simpl; repeat split. }
  assert (Hcase : ∀ s1 d, Do ext (GET_rifa (RifaID req)) s = (s1, d) →
            match d with
            | DoErr _ => True
            | DoResp resp => StatusCode resp ≠ 200 ∨ Decode_Rifas ext (Body resp) = []
            end).
  { intros s1 [e|resp] Hd; [exact I|].
    destruct (decide (StatusCode resp = 200)) as [Hst|Hst]; [|left; exact Hst].
    right. destruct (Decode_Rifas ext (Body resp)) as [|rifa rest] eqn:Hl; [reflexivity|].
    exfalso. apply (Hnf rifa). split; [exact Hb|]. exists resp, rest. rewrite Hd. auto. }
  destruct v; unfold_handlers; rewrite Hreq; simpl; rewrite Hb; simpl;
    destruct (Do ext (GET_rifa (RifaID req)) s) as [s1 d] eqn:Hd;
    specialize (Hcase s1 d eq_refl); destruct d as [e|resp]; simpl;
    try (repeat split; fail);
    (case_bool_decide as Hst; simpl; [repeat split|]);
    (destruct Hcase as [Hc|Hc]; [contradiction|]); rewrite Hc; simpl; repeat split.
Qed.

(** X5 with the store out of reach, and for an id that ends in a line
    feed. *)
Lemma missing_item_witness :
  let bad := "X" +:+ String "010" EmptyString in
  response (handle no_network (CreateIntent main_go (create "seven")) []) = Some 404 ∧
  NewRequest (rifa_url bad) = false ∧
  response (handle (asks_for bad) (CreateIntent apple_pay (create "any")) []) = None ∧
  outside_calls (calls (handle (asks_for bad) (CreateIntent main_go (create "any")) [])) = [].
Proof.
  intros bad.
  assert (H404 : ∀ rifa, ¬ found no_network "X" [] rifa).
  { intros rifa (_ & resp & rest & Hd & _). vm_compute in Hd. discriminate Hd. }
  assert (Hbad : ∀ rifa, ¬ found (asks_for bad) bad [] rifa).
  { intros rifa (Hb & _). vm_compute in Hb. discriminate Hb. }
  split.
  - exact (proj1 (proj2 (proj2 (missing_item_is_404 no_network main_go (create "seven") []
                                  (request_of "X" (Some [7]) "u1" "u1@x.com")
                                  eq_refl H404)))).
  - split; [reflexivity|]. split.
    + exact (proj1 (proj2 (proj2 (missing_item_is_404 (asks_for bad) apple_pay
                                    (create "any") [] _ eq_refl Hbad)))).
    + exact (proj1 (proj2 (proj2 (proj2 (missing_item_is_404 (asks_for bad) main_go
                                           (create "any") [] _ eq_refl Hbad))))).
Defined.

(** X6.  Once the item is found, which takes a request that could be
    built (and, in main.go, the availability query finds no row), the
    handler makes its calls in this order: the item query, in main.go
    the availability query, then exactly one request for an intent.
    The provider's answer decides the response: 200 with the client
    secret as body, or 500 with the line "Error Stripe". *)
Theorem intent_request_outcome {S B : Type} (ext : External S B)
    (v : Version) (r : Request) (s : S) (req : PaymentRequest) (rifa : Rifa) :
  Decode_PaymentRequest ext (ReqBody r) = Ok req →
  found ext (RifaID req) s rifa →
  numbers_free v ext req s →
  let a := handle ext (CreateIntent v r) s in
  let body := written (w (final (create_handler v ext r) s)) in
  outside_calls (calls a) = calls_to_intent v rifa req ∧
  match paymentintent_New ext (params_of v rifa req) with
  | Ok pi => response a = Some 200 ∧ body = [ClientSecretJSON (ClientSecret pi)]
  | Err _ => response a = Some 500 ∧
             body = [Text ("Error Stripe" +:+ String "010" EmptyString)]
  end.
Proof.
  intros Hreq (Hb & resp & rest & Hdo & Hst & Hrifas) Hfree.
  destruct v; unfold numbers_free in Hfree;
    unfold final, create_handler, calls_to_intent; unfold_handlers; simpl;
    rewrite Hreq; simpl; rewrite ?UrlProofs.NewRequest_tikect, Hb; simpl;
    destruct (Do ext (GET_rifa (RifaID req)) s) as [s1 r1]; simpl in Hdo, Hfree; subst r1;
    simpl; rewrite bool_decide_eq_false_2 by (rewrite Hst; auto);
    rewrite Hrifas; simpl.
  - destruct Hfree as (resp2 & Hq & Hcount).
    destruct (Do ext (GET_tikect _ _) s1) as [s2 r2]; simpl in Hq; subst r2; simpl.
    rewrite Hcount. rewrite bool_decide_eq_false_2 by lia. simpl.
    fold (params_of main_go rifa req).
    destruct (paymentintent_New ext (params_of main_go rifa req)); simpl; repeat split.
  - fold (params_of apple_pay rifa req).
    destruct (paymentintent_New ext (params_of apple_pay rifa req)); simpl; repeat split.
Qed.

(** X6 with a provider that refuses every intent. *)
Lemma intent_request_outcome_witness :
  let req := request_of "X" (Some [7]) "u1" "u1@x.com" in
  let a := handle stripe_down (CreateIntent main_go (create "seven")) [] in
  Decode_PaymentRequest stripe_down (ReqBody (create "seven")) = Ok req ∧
  found stripe_down "X" [] (rifa_of "X") ∧
  numbers_free main_go stripe_down req [] ∧
  outside_calls (calls a)
  = [CallDo (GET_rifa "X"); CallDo (GET_tikect "X" [7]);
     CallStripe (params_of main_go (rifa_of "X") req)] ∧
  response a = Some 500.
Proof.
  intros req a.
  assert (Hreq : Decode_PaymentRequest stripe_down (ReqBody (create "seven")) = Ok req)
    by reflexivity.
  assert (Hf : found stripe_down (RifaID req) [] (rifa_of "X")).
  { split; [reflexivity|]. eexists _, _. repeat split; reflexivity. }
  assert (Hn : numbers_free main_go stripe_down req []).
  { eexists. split; reflexivity. }
  pose proof (intent_request_outcome stripe_down main_go (create "seven") [] req
                (rifa_of "X") Hreq Hf Hn) as [Hc Ho].
  split; [exact Hreq|]. split; [exact Hf|]. split; [exact Hn|].
  split; [exact Hc | exact (proj1 Ho)].
Defined.

(** X7.  CreatePaymentIntent only reads: with a store whose two
    queries leave the tickets alone, the tickets after the request
    are those before it; the handler sends no insert and no mail,
    starts no goroutine and asks for at most one intent. *)
Theorem create_intent_only_reads {S B : Type} (ext : External S B)
    (rows : S → list Ticket) (v : Version) (r : Request) (s : S) :
  (∀ id s, rows (Do ext (GET_rifa id) s).1 = rows s) →
  (∀ rid ns s, rows (Do ext (GET_tikect rid ns) s).1 = rows s) →
  let a := handle ext (CreateIntent v r) s in
  rows (store_after a) = rows s ∧
  inserts_sent (calls a) = [] ∧ mails_sent (calls a) = [] ∧ background a = [] ∧
  (length (intents_sent (calls a)) ≤ 1)%nat.
Proof.
  intros Hr Ht.
  destruct v; unfold_handlers; simpl;
    (destruct (Decode_PaymentRequest ext (ReqBody r)) as [req|e]; simpl;
     [|repeat split; lia]);
    rewrite ?UrlProofs.NewRequest_tikect;
    (destruct (NewRequest (rifa_url (RifaID req))); simpl; [|repeat split; lia]);
    pose proof (Hr (RifaID req) s) as Hr1;
    destruct (Do ext (GET_rifa (RifaID req)) s) as [s1 [e|resp]]; simpl in *;
    try (repeat split; [exact Hr1 | lia]);
    (case_bool_decide as Hst; simpl; [repeat split; [exact Hr1 | lia]|]);
    (destruct (Decode_Rifas ext (Body resp)) as [|rifa rest]; simpl;
     [repeat split; [exact Hr1 | lia]|]).
  - pose proof (Ht (RifaID req) (elems (Numeros req)) s1) as Ht1.
    destruct (Do ext (GET_tikect _ _) s1) as [s2 [e|resp2]]; simpl in *;
      rewrite <- Hr1, <- Ht1.
    + repeat split; lia.
    + case_bool_decide; simpl; [repeat split; lia|].
      destruct (paymentintent_New ext _); simpl; repeat split; lia.
  - destruct (paymentintent_New ext _); simpl; repeat split; try exact Hr1; lia.
Qed.

(** X7 on a request for a free number. *)
Lemma create_intent_only_reads_witness :
  let s := [ticket "X" 8 "u0"] in
  let a := handle with_unique (CreateIntent main_go (create "seven")) s in
  store_after a = s ∧ inserts_sent (calls a) = [] ∧
  length (intents_sent (calls a)) = 1%nat.
Proof.
  intros s a.
  pose proof (create_intent_only_reads with_unique (λ l, l) main_go (create "seven") s
                (λ _ _, eq_refl) (λ _ _ _, eq_refl)) as (H1 & H2 & _).
  split; [exact H1|]. split; [exact H2 | reflexivity].
Defined.

(** X8.  The statuses each endpoint can answer.  The webhook of
    main.go answers 200 or 400 only, never a 5xx; that of the
    apple-pay version 200, 400 or 500.  CreatePaymentIntent answers
    200, 400, 404 or 500, in main.go also 409, or nothing at all:
    the client gets no response exactly when the handler panics,
    which is when the request for the item cannot be built or, in
    main.go, when the availability query for a found item fails in
    the transport. *)
Theorem statuses_of_the_endpoints {S B : Type} (ext : External S B)
    (i : Incoming) (s : S) :
  let a := handle ext i s in
  match i with
  | Webhook main_go _ => response a ∈ [Some 200; Some 400]
  | Webhook apple_pay _ => response a ∈ [Some 200; Some 400; Some 500]
  | CreateIntent v r =>
      response a ∈ [None; Some 200; Some 400; Some 404; Some 500]
                   ++ match v with main_go => [Some 409] | apple_pay => [] end ∧
      (response a = None ↔ panics ext v r s)
  end.
Proof.
  destruct i as [v r|v r].
  - assert (Hno : ∀ req s1 d (P : Prop),
              Decode_PaymentRequest ext (ReqBody r) = Ok req →
              NewRequest (rifa_url (RifaID req)) = true →
              Do ext (GET_rifa (RifaID req)) s = (s1, d) →
              (∀ rifa, found ext (RifaID req) s rifa →
                 v = main_go → ∀ e, (Do ext (GET_tikect (RifaID req) (elems (Numeros req)))
                                       s1).2 = DoErr e → P) →
              panics ext v r s → P).
    { intros req s1 d P Hreq Hb Hd HP (req' & Hreq' & Hc).
      rewrite Hreq in Hreq'. injection Hreq' as <-.
      destruct Hc as [Hb' | (Hv & rifa & e & Hf & Hq)]; [congruence|].
      rewrite Hd in Hq. exact (HP rifa Hf Hv e Hq). }
    destruct v; unfold_handlers; simpl;
      (destruct (Decode_PaymentRequest ext (ReqBody r)) as [req|e] eqn:Hreq; simpl;
       [|split; [among|]; split; [discriminate|];
         intros (req' & Hreq' & _); rewrite Hreq in Hreq'; discriminate Hreq']);
      rewrite ?UrlProofs.NewRequest_tikect;
      (destruct (NewRequest (rifa_url (RifaID req))) eqn:Hb; simpl;
       [|split; [among|]; split; [|reflexivity];
         intros _; exists req; split; [exact Hreq | left; exact Hb]]);
      destruct (Do ext (GET_rifa (RifaID req)) s) as [s1 d] eqn:Hd;
      pose proof (Hno req s1 d False eq_refl Hb Hd) as Hno';
      (assert (Hfound : ∀ rifa, found ext (RifaID req) s rifa →
                 ∃ resp rest, d = DoResp resp ∧ StatusCode resp = 200 ∧
                              Decode_Rifas ext (Body resp) = rifa :: rest)
         by (intros rifa (_ & resp & rest & Hd' & Hst' & Hl'); rewrite Hd in Hd';
             exists resp, rest; auto));
      destruct d as [e|resp]; simpl.
    all: try (split; [among|]; split; [discriminate|]; intros Hp; exfalso;
              apply Hno'; [|exact Hp]; intros rifa Hf;
              destruct (Hfound rifa Hf) as (? & ? & [=] & _)).
    all: case_bool_decide as Hst; simpl.
    all: try (split; [among|]; split; [discriminate|]; intros Hp; exfalso;
              apply Hno'; [|exact Hp]; intros rifa Hf;
              destruct (Hfound rifa Hf) as (? & ? & [= <-] & Hst' & _); contradiction).
    all: destruct (Decode_Rifas ext (Body resp)) as [|rifa rest] eqn:Hl; simpl.
    all: try (split; [among|]; split; [discriminate|]; intros Hp; exfalso;
              apply Hno'; [|exact Hp]; intros rifa Hf;
              destruct (Hfound rifa Hf) as (? & ? & [= <-] & _ & Hl'); congruence).
    + destruct (Do ext (GET_tikect _ _) s1) as [s2 [e|resp2]] eqn:Hq; simpl.
      * split; [among|]. split; [|reflexivity]. intros _. exists req.
        split; [exact Hreq|]. right. split; [reflexivity|]. exists rifa, e.
        split; [|rewrite Hd; simpl; rewrite Hq; reflexivity].
        split; [exact Hb|]. exists resp, rest. rewrite Hd.
        split; [reflexivity|]. split; [|exact Hl].
        destruct (decide (StatusCode resp = 200)); [done | contradiction].
      * assert (Hnp : ¬ panics ext main_go r s).
        { intros Hp. apply Hno'; [|exact Hp]. intros rifa' _ _ e He.
          try rewrite Hq in He. discriminate He. }
        case_bool_decide; simpl; [split; [among|]; split; [discriminate | done]|].
        destruct (paymentintent_New ext _); simpl;
          (split; [among|]; split; [discriminate | done]).
    + assert (Hnp : ¬ panics ext apple_pay r s).
      { intros Hp. apply Hno'; [|exact Hp]. intros rifa' _ [=]. }
      destruct (paymentintent_New ext _); simpl;
        (split; [among|]; split; [discriminate | done]).
  - destruct (webhook_cases ext v r) as [Hun | (pi & Hany & Hap)].
    + destruct (Hun s) as ([H|H] & _); cbv zeta; rewrite H; destruct v; among.
    + destruct (webhook_verified_calls ext v r s pi Hany Hap) as (_ & _ & H & _).
      cbv zeta. rewrite H. destruct v, (accepted _); among.
Qed.

(** X9.  In main.go a transport error of the availability query
    makes validarNumeros dereference a nil response: for an item that
    was found (its request, and with it that of the availability
    query, could be built) the handler panics after the two queries,
    writes nothing and asks for no intent, and the client gets no
    response.  The apple-pay version, which has no such query,
    answers the same request. *)
Theorem availability_transport_error_panics {S B : Type} (ext : External S B)
    (r : Request) (s : S) (req : PaymentRequest) (rifa : Rifa) (e : error) :
  Decode_PaymentRequest ext (ReqBody r) = Ok req →
  found ext (RifaID req) s rifa →
  (Do ext (GET_tikect (RifaID req) (elems (Numeros req)))
     (Do ext (GET_rifa (RifaID req)) s).1).2 = DoErr e →
  let a := MainGoServer.create_intent ext r s in
  response a = None ∧
  written (w (final (MainGo.CreatePaymentIntent ext r) s)) = [] ∧
  outside_calls (calls a)
  = [CallDo (GET_rifa (RifaID req));
     CallDo (GET_tikect (RifaID req) (elems (Numeros req)))] ∧
  NewRequest (tikect_url (RifaID req) (elems (Numeros req))) = true ∧
  response (ApplePayServer.create_intent ext r s) ≠ None.
Proof.
  intros Hreq Hf Hq. split; [|split; [|split; [|split]]].
  - pose proof (create_intent_main_go ext r s req rifa Hreq Hf) as H. cbv zeta in H.
    rewrite Hq in H. apply H.
  - destruct Hf as (Hb & resp & rest & Hdo & Hst & Hrifas).
    unfold final; unfold_handlers; simpl. rewrite Hreq. simpl.
    rewrite UrlProofs.NewRequest_tikect, Hb. simpl.
    destruct (Do ext (GET_rifa (RifaID req)) s) as [s1 r1]. simpl in Hdo, Hq. subst r1.
    simpl. rewrite bool_decide_eq_false_2 by (rewrite Hst; auto).
    rewrite Hrifas. simpl.
    destruct (Do ext (GET_tikect _ _) s1) as [s2 r2]. simpl in Hq. subst r2. reflexivity.
  - destruct Hf as (Hb & resp & rest & Hdo & Hst & Hrifas).
    unfold_handlers; simpl. rewrite Hreq. simpl.
    rewrite UrlProofs.NewRequest_tikect, Hb. simpl.
    destruct (Do ext (GET_rifa (RifaID req)) s) as [s1 r1]. simpl in Hdo, Hq. subst r1.
    simpl. rewrite bool_decide_eq_false_2 by (rewrite Hst; auto).
    rewrite Hrifas. simpl.
    destruct (Do ext (GET_tikect _ _) s1) as [s2 r2]. simpl in Hq. subst r2. reflexivity.
  - rewrite UrlProofs.NewRequest_tikect. apply Hf.
  - destruct (create_intent_apple_pay ext r s req rifa Hreq Hf) as (_ & _ & H).
    rewrite H. discriminate.
Qed.

(** X9 with a store that cannot be reached for the availability
    query. *)
Lemma availability_transport_error_witness :
  let req := request_of "X" (Some [7]) "u1" "u1@x.com" in
  Decode_PaymentRequest query_unreachable (ReqBody (create "seven")) = Ok req ∧
  found query_unreachable "X" [] (rifa_of "X") ∧
  (Do query_unreachable (GET_tikect "X" [7]) []).2 = DoErr "dial tcp: connection refused" ∧
  response (MainGoServer.create_intent query_unreachable (create "seven") []) = None.
Proof.
  intros req.
  assert (Hreq : Decode_PaymentRequest query_unreachable (ReqBody (create "seven")) = Ok req)
    by reflexivity.
  assert (Hf : found query_unreachable (RifaID req) [] (rifa_of "X")).
  { split; [reflexivity|]. eexists _, _. repeat split; reflexivity. }
  split; [exact Hreq|]. split; [exact Hf|]. split; [reflexivity|].
  exact (proj1 (availability_transport_error_panics query_unreachable (create "seven") []
                  req (rifa_of "X") _ Hreq Hf eq_refl)).
Defined.

(** ** What a delivery sends *)

(** X10.  A confirmation mail is sent only for a verified succeeded
    event whose insert the store accepted: it is then the only mail,
    the one of the event's intent, addressed to the "user_email" of
    the metadata alone, and the delivery is answered 200. *)
Theorem mail_only_after_accepted_insert {S B : Type} (ext : External S B)
    (v : Version) (r : Request) (s : S) (m : SendEmailRequest) :
  m ∈ mails_sent (background (handle ext (Webhook v r) s)) →
  ∃ pi, verified_succeeded_any ext r pi ∧
        accepted (Do ext (POST_tikect (rows_of pi)) s).2 = true ∧
        mails_sent (background (handle ext (Webhook v r) s)) = [m] ∧
        m = mail_of v pi ∧
        To m = [lookup_str (PI_Metadata pi) "user_email"] ∧
        response (handle ext (Webhook v r) s) = Some 200.
Proof.
  intros Hm. destruct (webhook_cases ext v r) as [Hun | (pi & Hany & Hap)].
  - destruct (Hun s) as (_ & _ & _ & Hb). rewrite Hb in Hm.
    apply elem_of_nil in Hm. contradiction.
  - destruct (webhook_verified_calls ext v r s pi Hany Hap) as (_ & _ & Hr & Hb).
    cbv zeta in Hr, Hb. rewrite Hb in Hm. rewrite Hb, Hr.
    destruct (accepted (Do ext (POST_tikect (rows_of pi)) s).2) eqn:Ha;
      [|apply elem_of_nil in Hm; contradiction].
    apply list_elem_of_singleton in Hm. subst m.
    exists pi. split; [exact Hany|]. split; [exact Ha|]. repeat split.
    destruct v; reflexivity.
Qed.

(** X10 on the event of the spring raffle. *)
Lemma mail_only_after_accepted_insert_witness :
  let a := handle with_unique (Webhook apple_pay (succeeded "spring")) [] in
  ∃ m, m ∈ mails_sent (background a) ∧ To m = ["u1@x.com"] ∧ response a = Some 200.
Proof.
  intros a.
  assert (Hm : mail_of apple_pay (intent_named "spring") ∈ mails_sent (background a)).
  { vm_compute. apply list_elem_of_here. }
  exists (mail_of apple_pay (intent_named "spring")). split; [exact Hm|].
  destruct (mail_only_after_accepted_insert with_unique apple_pay (succeeded "spring") []
              _ Hm) as (pi & _ & _ & _ & _ & _ & Hr).
  split; [reflexivity | exact Hr].
Defined.

(** X11.  From the request to the tickets: when the verified
    event carries the metadata that CreatePaymentIntent wrote for a
    request, the webhook handler posts one row per requested number,
    in order, for the item and the user of the request, and once the
    store accepts them it answers 200 and mails the numbers to the
    e-mail address of the request. *)
Theorem paid_request_is_registered {S B : Type} (ext : External S B)
    (v : Version) (r : Request) (s : S) (pi : PaymentIntent)
    (rifa : Rifa) (req : PaymentRequest) :
  verified_succeeded ext r pi →
  PI_Metadata pi = intent_Metadata rifa req →
  Forall (λ z, Int64.in_range z = true) (elems (Numeros req)) →
  let a := handle ext (Webhook v r) s in
  let rows := ticket_payload (RifaID req) (Numeros req) (UserId req) in
  let mail := match v with
              | main_go => MainGo.correo_params
              | apple_pay => ApplePay.correo_params
              end (Email req) (Title rifa) (Numeros req) in
  outside_calls (calls a) = [CallDo (POST_tikect rows)] ∧
  number <$> rows = elems (Numeros req) ∧
  (accepted (Do ext (POST_tikect rows) s).2 = true →
   response a = Some 200 ∧ mails_sent (background a) = [mail]).
Proof.
  intros Hv Hmeta Hr.
  assert (Hnum : numeros_of pi = Numeros req).
  { unfold numeros_of. rewrite Hmeta, lookup_numeros.
    unfold toString. now rewrite Unmarshal_Marshal_ints. }
  assert (Hrows : rows_of pi = ticket_payload (RifaID req) (Numeros req) (UserId req)).
  { unfold rows_of. rewrite Hnum, Hmeta. reflexivity. }
  assert (Hmail : mail_of v pi
                  = match v with
                    | main_go => MainGo.correo_params
                    | apple_pay => ApplePay.correo_params
                    end (Email req) (Title rifa) (Numeros req)).
  { unfold mail_of. rewrite Hnum, Hmeta. reflexivity. }
  destruct (webhook_verified_calls ext v r s pi (verified_any ext r pi Hv) (λ _, Hv))
    as (Hc & _ & Hresp & Hb).
  cbv zeta in *. rewrite Hrows in *. rewrite Hmail in Hb.
  split; [exact Hc|]. split.
  - unfold ticket_payload. rewrite <- list_fmap_compose. apply list_fmap_id.
  - intros Ha. rewrite Ha in Hresp, Hb. split; assumption.
Qed.

(** X11 on the request of the spring raffle for the numbers 4
    and 9. *)
Lemma paid_request_is_registered_witness :
  let a := handle with_unique (Webhook main_go (succeeded "spring")) [] in
  verified_succeeded with_unique (succeeded "spring") (intent_named "spring") ∧
  inserts_sent (calls a) = [[ticket "R1" 4 "u1"; ticket "R1" 9 "u1"]] ∧
  response a = Some 200 ∧
  To <$> mails_sent (background a) = [["u1@x.com"]].
Proof.
  intros a.
  assert (Hv : verified_succeeded with_unique (succeeded "spring") (intent_named "spring")).
  { split; [vm_compute; discriminate|]. eexists. repeat split; reflexivity. }
  split; [exact Hv|].
  destruct (paid_request_is_registered with_unique main_go (succeeded "spring") []
              (intent_named "spring") (rifa_of "R1")
              (request_of "R1" (Some [4; 9]) "u1" "u1@x.com") Hv eq_refl
              ltac:(repeat constructor)) as (_ & _ & H).
  destruct (H eq_refl) as [Hr Hm].
  split; [reflexivity|]. split; [exact Hr|]. fold a in Hm. rewrite Hm. reflexivity.
Defined.

(** X12.  The webhook handlers talk to the store by inserts only,
    at most one per delivery, and never to the payment provider; no
    mail goes out for a delivery without an insert, and a delivery
    that sends no insert leaves the store as it was. *)
Theorem webhook_reaches_only_the_insert {S B : Type} (ext : External S B)
    (v : Version) (r : Request) (s : S) :
  let a := handle ext (Webhook v r) s in
  outside_calls (calls a) = CallDo ∘ POST_tikect <$> inserts_sent (calls a) ∧
  (length (inserts_sent (calls a)) ≤ 1)%nat ∧
  (length (mails_sent (background a)) ≤ length (inserts_sent (calls a)))%nat ∧
  (inserts_sent (calls a) = [] → store_after a = s).
Proof.
  assert (Hins : ∀ l, inserts_sent l = inserts_sent (outside_calls l)).
  { intros l. induction l as [|c l IH]; [reflexivity|].
    destruct c as [[]| | |]; unfold outside_calls in *; simpl;
      rewrite ?filter_cons_True by reflexivity;
      rewrite ?filter_cons_False by (simpl; congruence);
      unfold inserts_sent in *; simpl; rewrite ?IH; reflexivity. }
  destruct (webhook_cases ext v r) as [Hun | (pi & Hany & Hap)].
  - destruct (Hun s) as (_ & Hs & Hc & Hb). cbv zeta.
    rewrite Hins, Hc, Hb. simpl. repeat split; auto.
  - destruct (webhook_verified_calls ext v r s pi Hany Hap) as (Hc & _ & _ & Hb).
    cbv zeta in *. rewrite Hins, Hc, Hb.
    change (inserts_sent [CallDo (POST_tikect (rows_of pi))]) with [rows_of pi].
    split; [reflexivity|]. split; [simpl; lia|].
    split; [destruct (accepted _); simpl; lia | discriminate].
Qed.

(** X13.  Every batch of rows that a webhook handler posts belongs
    to one verified succeeded event: all its rows carry the
    "rifa_id" and the "user_id" of the metadata, and every number is
    a Go int, whatever text the "numeros" field holds. *)
Theorem inserted_rows_are_uniform {S B : Type} (ext : External S B)
    (v : Version) (r : Request) (s : S) (p : list Ticket) :
  p ∈ inserts_sent (calls (handle ext (Webhook v r) s)) →
  ∃ pi, verified_succeeded_any ext r pi ∧
    Forall (λ t, rifa_id t = lookup_str (PI_Metadata pi) "rifa_id" ∧
                 profile_id t = lookup_str (PI_Metadata pi) "user_id" ∧
                 Int64.in_range (number t) = true) p.
Proof.
  intros Hp. destruct (webhook_store ext v r) as [Hun | (pi & Hany & Hap)].
  - destruct (Hun s) as (_ & Hi & _). rewrite Hi in Hp.
    apply elem_of_nil in Hp. contradiction.
  - exists pi. split; [exact Hany|].
    assert (Hi : inserts_sent (calls (handle ext (Webhook v r) s)) = [rows_of pi]).
    { destruct v.
      - apply (webhook_verified_main_go ext r s pi Hany).
      - apply (webhook_verified_apple_pay ext r s pi (Hap eq_refl)). }
    rewrite Hi in Hp. apply list_elem_of_singleton in Hp. subst p.
    unfold rows_of, ticket_payload, numeros_of. apply Forall_fmap.
    eapply Forall_impl; [apply Unmarshal_ints_in_range|].
    intros z Hz. simpl. auto.
Qed.

(** X13 on the event for number 7 twice. *)
Lemma inserted_rows_are_uniform_witness :
  let p := [ticket "X" 7 "u1"; ticket "X" 7 "u1"] in
  p ∈ inserts_sent (calls (handle with_unique (Webhook apple_pay (succeeded "twice7")) []))
  ∧ ∃ pi, verified_succeeded_any with_unique (succeeded "twice7") pi.
Proof.
  intros p.
  assert (Hp : p ∈ inserts_sent
                     (calls (handle with_unique (Webhook apple_pay (succeeded "twice7")) []))).
  { vm_compute. apply list_elem_of_here. }
  split; [exact Hp|].
  destruct (inserted_rows_are_uniform with_unique apple_pay (succeeded "twice7") [] p Hp)
    as (pi & Hv & _).
  exists pi. exact Hv.
Defined.

(** ** Amounts *)

(** X14.  The amount is an int64 congruent to price * count * 100
    modulo 2^64: the multiplications wrap around and never fail. *)
Theorem montoTotal_is_an_int64 (rifa : Rifa) (req : PaymentRequest) :
  Int64.in_range (montoTotal rifa req) = true ∧
  (montoTotal rifa req - Price rifa * len (Numeros req) * 100) mod 2 ^ 64 = 0.
Proof.
  unfold montoTotal, Int64.mul, Int64.wrap64, Int64.in_range, Int64.min, Int64.max.
  set (a := Price rifa * len (Numeros req)).
  set (b := (a + 2 ^ 63) mod 2 ^ 64 - 2 ^ 63).
  split.
  - pose proof (Z.mod_pos_bound (b * 100 + 2 ^ 63) (2 ^ 64) ltac:(lia)).
    apply andb_true_iff. split; apply Z.leb_le; lia.
  - assert (Hb : b = a - 2 ^ 64 * ((a + 2 ^ 63) / 2 ^ 64)).
    { unfold b. rewrite Z.mod_eq by lia. lia. }
    rewrite (Z.mod_eq (b * 100 + 2 ^ 63)) by lia.
    replace (b * 100 + 2 ^ 63 - 2 ^ 64 * ((b * 100 + 2 ^ 63) / 2 ^ 64) - 2 ^ 63 - a * 100)
      with ((- ((b * 100 + 2 ^ 63) / 2 ^ 64) - 100 * ((a + 2 ^ 63) / 2 ^ 64)) * 2 ^ 64)
      by (rewrite Hb at 2; lia).
    apply Z.mod_mul. lia.
Qed.

(** X15.  A request that names no number is not refused: once the
    item is found, which takes a request that could be built, an
    intent of amount 0 is asked for, and the provider's acceptance
    gives 200. *)
Theorem empty_request_still_asks_for_an_intent {S B : Type} (ext : External S B)
    (v : Version) (r : Request) (s : S) (req : PaymentRequest) (rifa : Rifa) :
  Decode_PaymentRequest ext (ReqBody r) = Ok req →
  found ext (RifaID req) s rifa →
  numbers_free v ext req s →
  elems (Numeros req) = [] →
  let a := handle ext (CreateIntent v r) s in
  amounts_sent (calls a) = [0] ∧
  (∀ pi, paymentintent_New ext (params_of v rifa req) = Ok pi → response a = Some 200).
Proof.
  intros Hreq Hf Hfree Hempty.
  assert (Hamount : montoTotal rifa req = 0).
  { unfold montoTotal, len. rewrite Hempty.
    change (Z.of_nat (length (@nil Z))) with 0. unfold Int64.mul.
    rewrite Z.mul_0_r. reflexivity. }
  destruct v.
  - pose proof (create_intent_main_go ext r s req rifa Hreq Hf) as H. cbv zeta in H.
    destruct Hfree as (resp & Hq & Hcount). rewrite Hq, Hcount in H.
    rewrite bool_decide_eq_false_2 in H by lia. destruct H as [Hi Hr].
    cbv zeta. unfold handle. rewrite amounts_intents, Hi, Hr.
    change (Amount <$> [params_of main_go rifa req]) with [montoTotal rifa req].
    rewrite Hamount. split; [reflexivity|]. intros pi ->. reflexivity.
  - destruct (create_intent_apple_pay ext r s req rifa Hreq Hf) as (Hi & _ & Hr).
    cbv zeta. unfold handle. rewrite amounts_intents, Hi, Hr.
    change (Amount <$> [params_of apple_pay rifa req]) with [montoTotal rifa req].
    rewrite Hamount. split; [reflexivity|]. intros pi ->. reflexivity.
Qed.

(** X15 on a body without the "numeros" field. *)
Lemma empty_request_witness :
  let req := request_of "X" None "u1" "u1@x.com" in
  let a := handle no_numbers (CreateIntent main_go (create "{}")) [] in
  Decode_PaymentRequest no_numbers (ReqBody (create "{}")) = Ok req ∧
  found no_numbers "X" [] (rifa_of "X") ∧
  numbers_free main_go no_numbers req [] ∧
  elems (Numeros req) = [] ∧
  amounts_sent (calls a) = [0] ∧ response a = Some 200.
Proof.
  intros req a.
  assert (Hreq : Decode_PaymentRequest no_numbers (ReqBody (create "{}")) = Ok req)
    by reflexivity.
  assert (Hf : found no_numbers (RifaID req) [] (rifa_of "X")).
  { split; [reflexivity|]. eexists _, _. repeat split; reflexivity. }
  assert (Hn : numbers_free main_go no_numbers req []).
  { eexists. split; reflexivity. }
  destruct (empty_request_still_asks_for_an_intent no_numbers main_go (create "{}") []
              req (rifa_of "X") Hreq Hf Hn eq_refl) as [Ha Hr].
  split; [exact Hreq|]. split; [exact Hf|]. split; [exact Hn|]. split; [reflexivity|].
  split; [exact Ha|]. eapply Hr. reflexivity.
Defined.

(** ** The middleware *)

(** X16.  An OPTIONS request to a route behind enableCORS is
    answered 200 by the middleware, with the three CORS headers and
    no other, and the handler does not run: no call, the store as it
    was.  That holds for create-intent in both versions and for the
    webhook of the apple-pay version; the webhook of main.go is
    registered without middleware, so there the request reaches the
    handler, with no header set. *)
Theorem preflight_is_answered_by_the_middleware {S B : Type} (ext : External S B)
    (r : HttpRequest) (s : S) :
  Method r = "OPTIONS" →
  let answered (p : Reply S) :=
    header p = cors_headers ∧ response (served p) = Some 200 ∧
    calls (served p) = [] ∧ store_after (served p) = s ∧ background (served p) = [] in
  answered (MainGoRoutes.create_intent ext r s) ∧
  answered (ApplePayRoutes.create_intent ext r s) ∧
  answered (ApplePayRoutes.webhook ext r s) ∧
  MainGoRoutes.webhook ext r s
  = {| header := ∅; served := MainGoServer.webhook ext (request r) s |}.
Proof.
  intros Hm.
  unfold MainGoRoutes.create_intent, ApplePayRoutes.create_intent, ApplePayRoutes.webhook,
    MainGoRoutes.webhook, serve_route, enableCORS, withCSP, plain.
  rewrite !bool_decide_eq_true_2 by exact Hm. cbn [header served].
  rewrite cors_headers_set. repeat split.
Qed.

(** X16 on a bare OPTIONS request: 200 from the apple-pay webhook
    route, 400 (no signature) from that of main.go. *)
Lemma preflight_witness :
  Method preflight = "OPTIONS" ∧
  response (served (ApplePayRoutes.webhook with_unique preflight [])) = Some 200 ∧
  response (served (MainGoRoutes.webhook with_unique preflight [])) = Some 400.
Proof.
  split; [reflexivity|].
  destruct (preflight_is_answered_by_the_middleware with_unique preflight [] eq_refl)
    as (_ & _ & (_ & H & _) & Hw).
  split; [exact H|]. rewrite Hw. reflexivity.
Defined.

(** X17.  A request of any other method passes the middleware
    unchanged: the route answers what the handler answers, after the
    CORS headers were set and, in the apple-pay version, the
    Content-Security-Policy header beside them. *)
Theorem other_methods_reach_the_handler {S B : Type} (ext : External S B)
    (r : HttpRequest) (s : S) :
  Method r ≠ "OPTIONS" →
  let with_csp (p : Reply S) :=
    is_Some (header p !! "Content-Security-Policy") ∧
    delete "Content-Security-Policy" (header p) = cors_headers in
  MainGoRoutes.create_intent ext r s
  = {| header := cors_headers; served := MainGoServer.create_intent ext (request r) s |} ∧
  served (ApplePayRoutes.create_intent ext r s)
  = ApplePayServer.create_intent ext (request r) s ∧
  with_csp (ApplePayRoutes.create_intent ext r s) ∧
  served (ApplePayRoutes.webhook ext r s) = ApplePayServer.webhook ext (request r) s ∧
  with_csp (ApplePayRoutes.webhook ext r s).
Proof.
  intros Hm.
  unfold MainGoRoutes.create_intent, ApplePayRoutes.create_intent, ApplePayRoutes.webhook,
    serve_route, enableCORS, withCSP, plain.
  rewrite !bool_decide_eq_false_2 by exact Hm. cbn [header served].
  rewrite cors_headers_set.
  assert (Hd : ∀ x, delete "Content-Security-Policy"
                      (<["Content-Security-Policy" := x]> cors_headers) = cors_headers).
  { intros x. rewrite delete_insert_eq. apply delete_id. reflexivity. }
  repeat split; try apply Hd; rewrite lookup_insert_eq; eexists; reflexivity.
Qed.

(** X17 on a POST to create-intent. *)
Lemma other_methods_witness :
  Method (post (create "seven")) ≠ "OPTIONS" ∧
  response (served (MainGoRoutes.create_intent with_unique (post (create "seven")) []))
  = Some 200 ∧
  header (MainGoRoutes.create_intent with_unique (post (create "seven")) []) = cors_headers.
Proof.
  assert (Hm : Method (post (create "seven")) ≠ "OPTIONS") by discriminate.
  split; [exact Hm|].
  destruct (other_methods_reach_the_handler with_unique (post (create "seven")) [] Hm)
    as (H & _).
  rewrite H. split; reflexivity.
Defined.

(** ** The texts of the numbers *)

(** X18.  toString tells lists of Go ints apart: different lists
    give different "numeros" texts, a nil list and an empty one
    included. *)
Theorem toString_tells_lists_apart (v1 v2 : slice Z) :
  Forall (λ z, Int64.in_range z = true) (elems v1) →
  Forall (λ z, Int64.in_range z = true) (elems v2) →
  v1 ≠ v2 → toString v1 ≠ toString v2.
Proof.
  intros H1 H2 Hne Heq. apply Hne.
  pose proof (Unmarshal_Marshal_ints v1 H1) as E1.
  pose proof (Unmarshal_Marshal_ints v2 H2) as E2.
  unfold toString in Heq. rewrite Heq in E1. rewrite E1 in E2. congruence.
Qed.

(** X18 on the nil and the empty list, and on 7, 8 and 78. *)
Lemma toString_tells_lists_apart_witness :
  toString (Some []) ≠ toString None ∧ toString (Some [7; 8]) ≠ toString (Some [78]).
Proof.
  split.
  - apply toString_tells_lists_apart; [constructor | constructor | discriminate].
  - apply toString_tells_lists_apart; [repeat constructor.. | discriminate].
Defined.

(** X19.  The numbers line of the confirmation mail is the decimal
    texts of the numbers, in the order of the list and with
    duplicates kept, separated by a comma and a blank; for no number
    it is empty. *)
Theorem numsStr_lists_the_numbers (v : slice Z) :
  numsStr v = Json.join ", " (Json.FormatInt <$> elems v) ∧
  (elems v = [] → numsStr v = EmptyString).
Proof.
  split; [apply MailFacts.numsStr_join|].
  intros H. rewrite MailFacts.numsStr_join, H. reflexivity.
Qed.

(** ** Sequences of requests *)

(** X20.  Tickets change only through verified succeeded events:
    with a store whose queries leave the tickets alone, any sequence
    of create-intent requests and of webhook deliveries that are not
    verified succeeded events, to either version and in any order,
    ends with the tickets it started with. *)
Theorem only_verified_payments_change_tickets {S B : Type} (ext : External S B)
    (rows : S → list Ticket) (l : list Incoming) (s : S) :
  (∀ id s, rows (Do ext (GET_rifa id) s).1 = rows s) →
  (∀ rid ns s, rows (Do ext (GET_tikect rid ns) s).1 = rows s) →
  Forall (λ i, match i with
               | Webhook _ r => ∀ pi, ¬ verified_succeeded_any ext r pi
               | CreateIntent _ _ => True
               end) l →
  rows (run ext l s) = rows s.
Proof.
  intros Hrifa Htikect Hl. revert s.
  induction Hl as [|i l Hi _ IH]; intros s; [reflexivity|].
  unfold run in *. simpl. rewrite IH. destruct i as [v r|v r].
  - apply SequenceFacts.create_intent_keeps_rows; assumption.
  - destruct (webhook_cases ext v r) as [Hun | (pi & Hany & _)].
    + destruct (Hun s) as (_ & -> & _). reflexivity.
    + destruct (Hi pi Hany).
Qed.

(** X20 on four requests: two for intents, a delivery signed with
    another secret and one changed after signing. *)
Lemma only_verified_payments_witness :
  let l := [CreateIntent main_go (create "seven"); Webhook apple_pay (forged "seven");
            CreateIntent apple_pay (create "spring"); Webhook main_go (tampered "spring")] in
  run with_unique l [ticket "X" 8 "u0"] = [ticket "X" 8 "u0"].
Proof.
  intros l.
  apply (only_verified_payments_change_tickets with_unique (λ s, s) l [ticket "X" 8 "u0"]
           (λ _ _, eq_refl) (λ _ _ _, eq_refl)).
  repeat constructor; intros pi (_ & ev & Hev & _); vm_compute in Hev; discriminate Hev.
Defined.
